(** * usvfs: the hook context (src/usvfs_dll/hookcontext.cpp)

    A shallow embedding of [HookContext] and of the shared parameter record
    it manages, with the properties of the specification stated over it.

    Conventions of the model.
    - A string of the program (a [std::string], a [shared::StringT], the
      characters behind a [const char *] or an [LPCWSTR]) is a Rocq
      [string].  The routines of the C runtime read it up to its first NUL
      ([c_str]); a string built from a C string holds none ([nul_free]).
      A null pointer argument is [None].
    - Every operation of the hook context first converts its wide-string
      arguments with [shared::string_cast] and builds a shared-memory string
      from the result; lookups convert the stored string back.  The
      conversion routines live outside hookcontext.cpp; the operations of
      module [HookContext] work on the converted strings, and module [Wide]
      has the trackers together with their conversions, which are
      parameters there.
    - Character case is the one of the classic "C" locale: only the letters
      a-z / A-Z are folded.
    - Calls to the loggers are left out, except where a property speaks
      about them (guarded access). *)

From Stdlib Require Import Ascii String List ZArith Lia Bool.
From stdpp Require Import base option list gmap strings fin_maps fin_sets.

Local Open Scope string_scope.
Local Open Scope list_scope.

(** ** Characters and strings *)

Module Chars.

Definition is_lower (c : ascii) : bool :=
  let n := nat_of_ascii c in (97 <=? n)%nat && (n <=? 122)%nat.

Definition is_upper (c : ascii) : bool :=
  let n := nat_of_ascii c in (65 <=? n)%nat && (n <=? 90)%nat.

(** [std::toupper(c, loc)] *)
Definition toupper (c : ascii) : ascii :=
  if is_lower c then ascii_of_nat (nat_of_ascii c - 32) else c.

(** [tolower(c)] *)
Definition tolower (c : ascii) : ascii :=
  if is_upper c then ascii_of_nat (nat_of_ascii c + 32) else c.

(** the value of a [char] read as [unsigned char] *)
Definition code (c : ascii) : Z := Z.of_nat (nat_of_ascii c).

Definition all_chars : list ascii := map ascii_of_nat (seq 0 256).

End Chars.

Module Str.

Definition chars (s : string) : list ascii := list_ascii_of_string s.
Definition of_chars (l : list ascii) : string := string_of_list_ascii l.

(** the string with every character folded to upper case *)
Definition upcase (s : string) : list ascii := Chars.toupper <$> chars s.

(** Two strings are equal up to the case of their letters. *)
Definition iequal (a b : string) : Prop := upcase a = upcase b.

(** [t] is, up to case, a suffix of [s]. *)
Definition isuffix (t s : string) : Prop :=
  ∃ pre suf, s = pre +:+ suf ∧ iequal suf t.

(** [t] occurs, up to case, somewhere inside [s]. *)
Definition isubstring (t s : string) : Prop :=
  ∃ pre mid post, s = pre +:+ mid +:+ post ∧ iequal mid t.

#[global] Instance iequal_dec a b : Decision (iequal a b).
Proof. unfold iequal. apply _. Defined.

End Str.

(** ** The Boost string predicates used by the blacklist

    [boost::algorithm::iends_with] and [icontains] with the [is_iequal]
    comparator, written as the loops of boost/algorithm/string. *)

Module Boost.

(** [is_iequal::operator()] *)
Definition is_iequal (a b : ascii) : bool :=
  Ascii.eqb (Chars.toupper a) (Chars.toupper b).

(** [ends_with_iter_select] for bidirectional iterators: both ranges are
    walked from their ends (the arguments are the reversed ranges); the
    answer is whether the test range was exhausted. *)
Fixpoint ends_with_iter (rinput rtest : list ascii) {struct rtest} : bool :=
  match rtest with
  | [] => true
  | p :: rtest' =>
      match rinput with
      | [] => false
      | c :: rinput' =>
          if is_iequal c p then ends_with_iter rinput' rtest' else false
      end
  end.

Definition iends_with (Input Test : string) : bool :=
  ends_with_iter (reverse (Str.chars Input)) (reverse (Str.chars Test)).

(** inner loop of [first_finderF]: advance both iterators while the
    characters compare equal; success when the search range is exhausted *)
Fixpoint match_here (input search : list ascii) {struct search} : bool :=
  match search with
  | [] => true
  | p :: search' =>
      match input with
      | [] => false
      | c :: input' =>
          if is_iequal c p then match_here input' search' else false
      end
  end.

(** outer loop of [first_finderF]: [OuterIt] runs over the positions of
    the input before its end; the result is the offset of the first
    match, [None] for the empty range (End, End) *)
Fixpoint first_finder (search input : list ascii) (offset : nat) : option nat :=
  match input with
  | [] => None
  | _ :: input' =>
      match search with
      | [] => None
      | _ =>
          if match_here input search then Some offset
          else first_finder search input' (S offset)
      end
  end.

(** [contains]: the empty test range is always contained *)
Definition icontains (Input Test : string) : bool :=
  match Str.chars Test with
  | [] => true
  | test => bool_decide (is_Some (first_finder test (Str.chars Input) 0))
  end.

End Boost.

(** ** The C runtime routines used by the hook context *)

Module Crt.

(** the character under a [const char *], in lower case and read as
    [unsigned char]; 0 at the terminator *)
Definition cur (s : list ascii) : Z :=
  match s with
  | [] => 0
  | c :: _ => Chars.code (Chars.tolower c)
  end.

(** [_stricmp]: both strings are read in lower case until they differ or
    the first one ends; the result is the difference of the last
    characters read *)
Fixpoint stricmp_chars (lhs rhs : list ascii) {struct lhs} : Z :=
  let f := cur lhs in
  let l := cur rhs in
  if (f =? 0)%Z || negb (f =? l)%Z then (f - l)%Z
  else
    match lhs, rhs with
    | _ :: lhs', _ :: rhs' => stricmp_chars lhs' rhs'
    | _, _ => (f - l)%Z
    end.

Definition stricmp (lhs rhs : string) : Z :=
  stricmp_chars (Str.chars lhs) (Str.chars rhs).

(** [strncpy_s(dest, src, _TRUNCATE)] on a destination array of [size]
    characters: characters are copied while room is left for the
    terminator.  [avail] is the room left. *)
Fixpoint copy_truncate (avail : nat) (src : list ascii) : list ascii :=
  match avail, src with
  | S avail', c :: src' => c :: copy_truncate avail' src'
  | _, _ => []
  end.

Definition strncpy_s_TRUNCATE (size : nat) (src : string) : string :=
  Str.of_chars (copy_truncate (size - 1) (Str.chars src)).

End Crt.

(** the characters of a buffer before its first NUL *)
Fixpoint c_str_chars (l : list ascii) : list ascii :=
  match l with
  | [] => []
  | c :: l' => if Ascii.eqb c zero then [] else c :: c_str_chars l'
  end.

Definition c_str (s : string) : string := Str.of_chars (c_str_chars (Str.chars s)).

(** the strings that are C strings as they stand: they hold no NUL *)
Definition nul_free (s : string) : Prop := zero ∉ Str.chars s.

#[global] Instance nul_free_dec (s : string) : Decision (nul_free s).
Proof. unfold nul_free. apply _. Defined.

(** ** Data model *)

(** Win32 scalar types *)
Definition DWORD := Z.
Definition BOOL := Z.
Definition TRUE : BOOL := 1%Z.
Definition FALSE : BOOL := 0%Z.
Definition HMODULE := Z.

(** Modelled from the spec: the enumerations of usvfsparameters.h, which
    the specification lists as {debug, info, warning, error} and
    {none, mini, full}. *)
Inductive LogLevel := LogDebug | LogInfo | LogWarning | LogError.
Inductive CrashDumpsType := DumpsNone | DumpsMini | DumpsFull.

(** [USVFSParameters]: the seed handed over at attach; its four strings are
    fixed-size character arrays. *)
Module Seed.
Record USVFSParameters := {
  instanceName : string;
  currentSHMName : string;
  currentInverseSHMName : string;
  debugMode : bool;
  logLevel : LogLevel;
  crashDumpsType : CrashDumpsType;
  crashDumpsPath : string;
}.
End Seed.

Record ForcedLibrary := {
  processName : string;
  libraryPath : string;
}.

(** Modelled from the spec: [SharedParameters], the record living in the
    configuration segment, is declared in hookcontext.h.  The
    specification gives its fields: the seed settings, the count of
    attached processes, a set of process identifiers, a set of blacklisted
    names, an ordered list of forced libraries and two mappings from
    virtual path to real path.  The width of [userCount] is declared there
    as well; it is kept as an integer. *)
Module Shared.
Record SharedParameters := {
  instanceName : string;
  currentSHMName : string;
  currentInverseSHMName : string;
  debugMode : bool;
  logLevel : LogLevel;
  crashDumpsType : CrashDumpsType;
  crashDumpsPath : string;
  userCount : Z;
  processBlacklist : gset string;
  processList : gset DWORD;
  forcedLibraries : list ForcedLibrary;
  deletedFileTracker : gmap string string;
  fakeDirectoryTracker : gmap string string;
}.

Definition set_userCount (n : Z) (p : SharedParameters) :=
  {| instanceName := instanceName p; currentSHMName := currentSHMName p;
     currentInverseSHMName := currentInverseSHMName p;
     debugMode := debugMode p; logLevel := logLevel p;
     crashDumpsType := crashDumpsType p; crashDumpsPath := crashDumpsPath p;
     userCount := n;
     processBlacklist := processBlacklist p; processList := processList p;
     forcedLibraries := forcedLibraries p;
     deletedFileTracker := deletedFileTracker p;
     fakeDirectoryTracker := fakeDirectoryTracker p |}.

Definition set_processBlacklist (b : gset string) (p : SharedParameters) :=
  {| instanceName := instanceName p; currentSHMName := currentSHMName p;
     currentInverseSHMName := currentInverseSHMName p;
     debugMode := debugMode p; logLevel := logLevel p;
     crashDumpsType := crashDumpsType p; crashDumpsPath := crashDumpsPath p;
     userCount := userCount p;
     processBlacklist := b; processList := processList p;
     forcedLibraries := forcedLibraries p;
     deletedFileTracker := deletedFileTracker p;
     fakeDirectoryTracker := fakeDirectoryTracker p |}.

Definition set_processList (l : gset DWORD) (p : SharedParameters) :=
  {| instanceName := instanceName p; currentSHMName := currentSHMName p;
     currentInverseSHMName := currentInverseSHMName p;
     debugMode := debugMode p; logLevel := logLevel p;
     crashDumpsType := crashDumpsType p; crashDumpsPath := crashDumpsPath p;
     userCount := userCount p;
     processBlacklist := processBlacklist p; processList := l;
     forcedLibraries := forcedLibraries p;
     deletedFileTracker := deletedFileTracker p;
     fakeDirectoryTracker := fakeDirectoryTracker p |}.

Definition set_forcedLibraries (l : list ForcedLibrary) (p : SharedParameters) :=
  {| instanceName := instanceName p; currentSHMName := currentSHMName p;
     currentInverseSHMName := currentInverseSHMName p;
     debugMode := debugMode p; logLevel := logLevel p;
     crashDumpsType := crashDumpsType p; crashDumpsPath := crashDumpsPath p;
     userCount := userCount p;
     processBlacklist := processBlacklist p; processList := processList p;
     forcedLibraries := l;
     deletedFileTracker := deletedFileTracker p;
     fakeDirectoryTracker := fakeDirectoryTracker p |}.

Definition set_deletedFileTracker (t : gmap string string) (p : SharedParameters) :=
  {| instanceName := instanceName p; currentSHMName := currentSHMName p;
     currentInverseSHMName := currentInverseSHMName p;
     debugMode := debugMode p; logLevel := logLevel p;
     crashDumpsType := crashDumpsType p; crashDumpsPath := crashDumpsPath p;
     userCount := userCount p;
     processBlacklist := processBlacklist p; processList := processList p;
     forcedLibraries := forcedLibraries p;
     deletedFileTracker := t;
     fakeDirectoryTracker := fakeDirectoryTracker p |}.

Definition set_fakeDirectoryTracker (t : gmap string string) (p : SharedParameters) :=
  {| instanceName := instanceName p; currentSHMName := currentSHMName p;
     currentInverseSHMName := currentInverseSHMName p;
     debugMode := debugMode p; logLevel := logLevel p;
     crashDumpsType := crashDumpsType p; crashDumpsPath := crashDumpsPath p;
     userCount := userCount p;
     processBlacklist := processBlacklist p; processList := processList p;
     forcedLibraries := forcedLibraries p;
     deletedFileTracker := deletedFileTracker p;
     fakeDirectoryTracker := t |}.

(** Modelled from the spec: the constructor of [SharedParameters] is in
    hookcontext.h.  A new record is built from the caller's seed, its
    containers are empty and nobody is attached yet ([userCount] counts
    the attached processes). *)
Definition construct (reference : Seed.USVFSParameters) : SharedParameters :=
  {| instanceName := Seed.instanceName reference;
     currentSHMName := Seed.currentSHMName reference;
     currentInverseSHMName := Seed.currentInverseSHMName reference;
     debugMode := Seed.debugMode reference;
     logLevel := Seed.logLevel reference;
     crashDumpsType := Seed.crashDumpsType reference;
     crashDumpsPath := Seed.crashDumpsPath reference;
     userCount := 0;
     processBlacklist := ∅; processList := ∅; forcedLibraries := [];
     deletedFileTracker := ∅; fakeDirectoryTracker := ∅ |}.
End Shared.

(** ** Containers of the shared record *)

Module Container.

(** [map::emplace]: the pair is inserted unless the key is present; the
    flag tells whether it was inserted *)
Definition emplace (key value : string) (m : gmap string string)
  : gmap string string * bool :=
  match m !! key with
  | Some _ => (m, false)
  | None => (<[key := value]> m, true)
  end.

(** [map::find]: the entry under the key, [None] for [end()] *)
Definition find (key : string) (m : gmap string string)
  : option (string * string) :=
  match m !! key with
  | Some value => Some (key, value)
  | None => None
  end.

(** [map::erase(key)]: the map without the key and the number of entries
    removed *)
Definition erase (key : string) (m : gmap string string)
  : gmap string string * Z :=
  match m !! key with
  | Some _ => (delete key m, 1%Z)
  | None => (m, 0%Z)
  end.

(** [set::find] on the process list: an iterator is the element it
    points to, [None] for [end()] *)
Definition set_find (x : DWORD) (s : gset DWORD) : option DWORD :=
  if decide (x ∈ s) then Some x else None.

(** the outcome of a call that may leave defined behaviour *)
Inductive outcome (A : Type) :=
  | Done (a : A)
  | Undefined.
Arguments Done {A} a.
Arguments Undefined {A}.

(** [set::erase(iterator)]: the iterator has to be dereferenceable;
    erasing [end()] is undefined *)
Definition set_erase (it : option DWORD) (s : gset DWORD)
  : outcome (gset DWORD) :=
  match it with
  | Some x => Done (s ∖ {[x]})
  | None => Undefined
  end.

End Container.

(** ** Operations of the hook context on the shared record

    [m_Parameters] points at the record in the configuration segment; each
    member function below takes the record it points at and, when it
    changes it, returns the new one. *)

Module HookContext.

Import Shared.

(** [HookContext::registerProcess] *)
Definition registerProcess (pid : DWORD) (p : SharedParameters) : SharedParameters :=
  set_processList ({[pid]} ∪ processList p) p.

(** [HookContext::blacklistExecutable] *)
Definition blacklistExecutable (executableName : string) (p : SharedParameters)
  : SharedParameters :=
  set_processBlacklist ({[executableName]} ∪ processBlacklist p) p.

(** [HookContext::clearExecutableBlacklist] *)
Definition clearExecutableBlacklist (p : SharedParameters) : SharedParameters :=
  set_processBlacklist ∅ p.

(** one of the two loops of [executableBlacklisted]: the first item that
    hits sets the flag and leaves the loop *)
Fixpoint scan_blacklist (hit : string → bool) (items : list string)
    (blacklisted : BOOL) : BOOL :=
  match items with
  | [] => blacklisted
  | item :: rest =>
      if hit item then TRUE else scan_blacklist hit rest blacklisted
  end.

(** [HookContext::executableBlacklisted] *)
Definition executableBlacklisted (lpApplicationName lpCommandLine : option string)
    (p : SharedParameters) : BOOL :=
  let blacklisted := FALSE in
  let blacklisted :=
    match lpApplicationName with
    | Some appName =>
        scan_blacklist (λ item, Boost.iends_with appName item)
                       (elements (processBlacklist p)) blacklisted
    | None => blacklisted
    end in
  let blacklisted :=
    match lpCommandLine with
    | Some cmdLine =>
        scan_blacklist (λ item, Boost.icontains cmdLine item)
                       (elements (processBlacklist p)) blacklisted
    | None => blacklisted
    end in
  blacklisted.

(** [HookContext::forceLoadLibrary]: [push_front] *)
Definition forceLoadLibrary (processName libraryPath : string) (p : SharedParameters)
  : SharedParameters :=
  set_forcedLibraries
    ({| processName := processName; libraryPath := libraryPath |}
       :: forcedLibraries p) p.

(** [HookContext::clearLibraryForceLoads] *)
Definition clearLibraryForceLoads (p : SharedParameters) : SharedParameters :=
  set_forcedLibraries [] p.

(** the loop of [librariesToForceLoad]: [results.push_back] for every
    library whose process name compares equal *)
Fixpoint collect_libraries (processNameString : string)
    (libraries : list ForcedLibrary) (results : list string) : list string :=
  match libraries with
  | [] => results
  | library :: rest =>
      let results :=
        if (Crt.stricmp processNameString (processName library) =? 0)%Z
        then results ++ [libraryPath library]
        else results in
      collect_libraries processNameString rest results
  end.

(** [HookContext::librariesToForceLoad] *)
Definition librariesToForceLoad (processName : string) (p : SharedParameters)
  : list string :=
  collect_libraries processName (forcedLibraries p) [].

(** [HookContext::addDeletedFile] *)
Definition addDeletedFile (fromPath toPath : string) (p : SharedParameters)
  : SharedParameters :=
  set_deletedFileTracker
    (fst (Container.emplace fromPath toPath (deletedFileTracker p))) p.

(** [HookContext::existsDeletedFile] *)
Definition existsDeletedFile (fromPath : string) (p : SharedParameters) : bool :=
  match Container.find fromPath (deletedFileTracker p) with
  | Some _ => true
  | None => false
  end.

(** [HookContext::forgetDeletedFile]: the count returned by [erase],
    converted to [bool], and the record afterwards *)
Definition forgetDeletedFile (fromPath : string) (p : SharedParameters)
  : bool * SharedParameters :=
  let '(tracker, count) := Container.erase fromPath (deletedFileTracker p) in
  (negb (count =? 0)%Z, set_deletedFileTracker tracker p).

(** [HookContext::lookupDeletedFile], up to the real path as it is stored;
    the conversion of what is found is in [Wide.lookupDeletedFile] *)
Definition lookupDeletedFile (fromPath : string) (p : SharedParameters) : string :=
  let result := "" in
  match Container.find fromPath (deletedFileTracker p) with
  | Some (_, second) => second
  | None => result
  end.

(** [HookContext::addFakeDirectory] *)
Definition addFakeDirectory (fromPath toPath : string) (p : SharedParameters)
  : SharedParameters :=
  set_fakeDirectoryTracker
    (fst (Container.emplace fromPath toPath (fakeDirectoryTracker p))) p.

(** [HookContext::existsFakeDirectory] *)
Definition existsFakeDirectory (fromPath : string) (p : SharedParameters) : bool :=
  match Container.find fromPath (fakeDirectoryTracker p) with
  | Some _ => true
  | None => false
  end.

(** [HookContext::forgetFakeDirectory] *)
Definition forgetFakeDirectory (fromPath : string) (p : SharedParameters)
  : bool * SharedParameters :=
  let '(tracker, count) := Container.erase fromPath (fakeDirectoryTracker p) in
  (negb (count =? 0)%Z, set_fakeDirectoryTracker tracker p).

(** [HookContext::lookupFakeDirectory], up to the real path as it is
    stored; the conversion of what is found is in
    [Wide.lookupFakeDirectory] *)
Definition lookupFakeDirectory (fromPath : string) (p : SharedParameters) : string :=
  let result := "" in
  match Container.find fromPath (fakeDirectoryTracker p) with
  | Some (_, second) => second
  | None => result
  end.

(** [HookContext::unregisterCurrentProcess]; [currentProcessId] is what
    [GetCurrentProcessId()] returns *)
Definition unregisterCurrentProcess (currentProcessId : DWORD) (p : SharedParameters)
  : Container.outcome SharedParameters :=
  let iter := Container.set_find currentProcessId (processList p) in
  match Container.set_erase iter (processList p) with
  | Container.Done l => Container.Done (set_processList l p)
  | Container.Undefined => Container.Undefined
  end.

(** [HookContext::registeredProcesses] *)
Definition registeredProcesses (p : SharedParameters) : list DWORD :=
  elements (processList p).

End HookContext.

(** ** The trackers as their callers see them

    The callers pass wide strings.  [shared::string_cast], the code pages
    and the code page it takes when the caller names none are declared
    outside hookcontext.cpp: they are parameters here.  The paths are
    converted to UTF-8 on the way in; the real path that a lookup finds is
    converted back without a code page being named. *)

Module Wide.

(** a [std::wstring]: its code units *)
Definition wstring := list N.

Class StringCast := {
  CodePage : Type;
  UTF8 : CodePage;
  (** the code page of [string_cast] when the call names none *)
  default_CodePage : CodePage;
  (** [string_cast<std::string>(source, codePage)] *)
  to_string : CodePage → wstring → string;
  (** [string_cast<std::wstring>(source, codePage)] *)
  to_wstring : CodePage → string → wstring;
}.

Section string_cast.

Context `{StringCast}.

Import Shared.

(** the shared string built from [string_cast<std::string>(path,
    CodePage::UTF8).c_str()] *)
Definition shared_string (path : wstring) : string :=
  c_str (to_string UTF8 path).

(** [HookContext::addDeletedFile] *)
Definition addDeletedFile (fromPath toPath : wstring) (p : SharedParameters)
  : SharedParameters :=
  let s_fromPath := shared_string fromPath in
  let s_toPath := shared_string toPath in
  HookContext.addDeletedFile s_fromPath s_toPath p.

(** [HookContext::existsDeletedFile] *)
Definition existsDeletedFile (fromPath : wstring) (p : SharedParameters) : bool :=
  let s_fromPath := shared_string fromPath in
  HookContext.existsDeletedFile s_fromPath p.

(** [HookContext::forgetDeletedFile] *)
Definition forgetDeletedFile (fromPath : wstring) (p : SharedParameters)
  : bool * SharedParameters :=
  let s_fromPath := shared_string fromPath in
  HookContext.forgetDeletedFile s_fromPath p.

(** [HookContext::lookupDeletedFile] *)
Definition lookupDeletedFile (fromPath : wstring) (p : SharedParameters)
  : wstring :=
  let s_fromPath := shared_string fromPath in
  let result := [] in
  match Container.find s_fromPath (deletedFileTracker p) with
  | Some (_, second) => to_wstring default_CodePage (c_str second)
  | None => result
  end.

(** [HookContext::addFakeDirectory] *)
Definition addFakeDirectory (fromPath toPath : wstring) (p : SharedParameters)
  : SharedParameters :=
  let s_fromPath := shared_string fromPath in
  let s_toPath := shared_string toPath in
  HookContext.addFakeDirectory s_fromPath s_toPath p.

(** [HookContext::existsFakeDirectory] *)
Definition existsFakeDirectory (fromPath : wstring) (p : SharedParameters) : bool :=
  let s_fromPath := shared_string fromPath in
  HookContext.existsFakeDirectory s_fromPath p.

(** [HookContext::forgetFakeDirectory] *)
Definition forgetFakeDirectory (fromPath : wstring) (p : SharedParameters)
  : bool * SharedParameters :=
  let s_fromPath := shared_string fromPath in
  HookContext.forgetFakeDirectory s_fromPath p.

(** [HookContext::lookupFakeDirectory] *)
Definition lookupFakeDirectory (fromPath : wstring) (p : SharedParameters)
  : wstring :=
  let s_fromPath := shared_string fromPath in
  let result := [] in
  match Container.find s_fromPath (fakeDirectoryTracker p) with
  | Some (_, second) => to_wstring default_CodePage (c_str second)
  | None => result
  end.

(** what becomes of a real path that is stored by an addition and found
    again by a lookup *)
Definition there_and_back (toPath : wstring) : wstring :=
  to_wstring default_CodePage (c_str (shared_string toPath)).

End string_cast.

(** the code units of a text *)
Definition widen (s : string) : wstring := N_of_ascii <$> Str.chars s.

Definition narrow (w : wstring) : string := Str.of_chars (ascii_of_N <$> w).

(** conversions for texts in which every character is one code unit
    below 256, the same in every code page *)
Definition plain_cast : StringCast :=
  {| CodePage := bool; UTF8 := true; default_CodePage := false;
     to_string := λ _, narrow; to_wstring := λ _, widen |}.

End Wide.

(** ** Notions of the specification *)

(** what the specification calls a blacklisted launch: some entry is, up
    to case, a suffix of the application name or a substring of the command
    line *)
Definition blacklist_match (blacklist : gset string)
    (appName commandLine : option string) : Prop :=
  (∃ a item, appName = Some a ∧ item ∈ blacklist ∧ Str.isuffix item a) ∨
  (∃ c item, commandLine = Some c ∧ item ∈ blacklist ∧ Str.isubstring item c).


(** ** Sample data for the examples *)

Definition sample_seed : Seed.USVFSParameters :=
  {| Seed.instanceName := "uvfs-x";
     Seed.currentSHMName := "uvfs-x-tree";
     Seed.currentInverseSHMName := "uvfs-x-inverse";
     Seed.debugMode := false;
     Seed.logLevel := LogInfo;
     Seed.crashDumpsType := DumpsNone;
     Seed.crashDumpsPath := "C:\dumps" |}.

Definition sample_record : Shared.SharedParameters := Shared.construct sample_seed.

Definition sample_libraries : Shared.SharedParameters :=
  HookContext.forceLoadLibrary "mygame.exe" "c.dll"
    (HookContext.forceLoadLibrary "game.exe" "b.dll"
       (HookContext.forceLoadLibrary "GAME.exe.bak" "x.dll"
          (HookContext.forceLoadLibrary "GAME.exe" "a.dll" sample_record))).

Definition sample_tracked : Shared.SharedParameters :=
  HookContext.addFakeDirectory "\data\mods" "C:\s1\mods"
    (HookContext.addDeletedFile "\data\a.txt" "C:\s1\a.txt" sample_record).

(** ** Initialisation of the parameter record *)

(** The lengths of the four character arrays of [USVFSParameters] are
    declared in usvfsparameters.h; they are parameters of the model. *)
Record BufferSizes := {
  instanceName_size : nat;
  currentSHMName_size : nat;
  currentInverseSHMName_size : nat;
  crashDumpsPath_size : nat;
}.

(** [usvfs::USVFSInitParametersInt]: every field of [*parameters] is
    written, so the record afterwards is the result *)
Definition USVFSInitParametersInt (sizes : BufferSizes)
    (instanceName currentSHMName currentInverseSHMName : string)
    (debugMode : bool) (logLevel : LogLevel) (crashDumpsType : CrashDumpsType)
    (crashDumpsPath : string) : Seed.USVFSParameters :=
  {| Seed.debugMode := debugMode;
     Seed.logLevel := logLevel;
     Seed.crashDumpsType := crashDumpsType;
     Seed.instanceName :=
       Crt.strncpy_s_TRUNCATE (instanceName_size sizes) instanceName;
     Seed.currentSHMName :=
       Crt.strncpy_s_TRUNCATE (currentSHMName_size sizes) currentSHMName;
     Seed.currentInverseSHMName :=
       Crt.strncpy_s_TRUNCATE (currentInverseSHMName_size sizes)
                              currentInverseSHMName;
     Seed.crashDumpsPath :=
       Crt.strncpy_s_TRUNCATE (crashDumpsPath_size sizes) crashDumpsPath |}.

(** [SharedParameters::makeLocal] *)
Definition makeLocal (sizes : BufferSizes) (p : Shared.SharedParameters)
  : Seed.USVFSParameters :=
  USVFSInitParametersInt sizes
    (Shared.instanceName p) (Shared.currentSHMName p)
    (Shared.currentInverseSHMName p) (Shared.debugMode p) (Shared.logLevel p)
    (Shared.crashDumpsType p) (Shared.crashDumpsPath p).

(** [field] is what fits of [src] in an array of [size] characters, one of
    which is the terminator *)
Definition truncated_to (size : nat) (src field : string) : Prop :=
  (∃ rest, src = field +:+ rest) ∧
  String.length field = Nat.min (String.length src) (size - 1).

Definition sample_sizes : BufferSizes :=
  {| instanceName_size := 8; currentSHMName_size := 8;
     currentInverseSHMName_size := 8; crashDumpsPath_size := 16 |}.

(** ** Processes, segments and the life cycle of a hook context *)

Module Os.

Definition segment_id := nat.

(** The named shared memory of the host: [names] is the global name space,
    [segments] holds every segment that was created, and for each the
    object called "parameters" when it has been constructed.  Unlinking a
    name leaves the segment to those that have it mapped. *)
Record SharedMemory := {
  names : gmap string segment_id;
  segments : gmap segment_id (option Shared.SharedParameters);
}.

(** [managed_shared_memory(open_or_create, name, size)] *)
Definition open_or_create (name : string) (m : SharedMemory)
  : segment_id * SharedMemory :=
  match names m !! name with
  | Some id => (id, m)
  | None =>
      let id := fresh (dom (segments m)) in
      (id, {| names := <[name := id]> (names m);
              segments := <[id := None]> (segments m) |})
  end.

(** [shared_memory_object::remove(name)] *)
Definition remove (name : string) (m : SharedMemory) : SharedMemory :=
  {| names := delete name (names m); segments := segments m |}.

(** the record a pointer into segment [id] points at *)
Definition record (id : segment_id) (m : SharedMemory)
  : option Shared.SharedParameters :=
  segments m !! id ≫= λ o, o.

Definition store (id : segment_id) (p : Shared.SharedParameters)
    (m : SharedMemory) : SharedMemory :=
  {| names := names m; segments := <[id := Some p]> (segments m) |}.

End Os.

Module Life.

Import Os.

(** the members of a [HookContext]; [m_Parameters] points into the segment
    [m_ConfigurationSHM], the two trees are known by the names of their
    segments *)
Record HookContext := {
  m_ConfigurationSHM : segment_id;
  m_Tree : string;
  m_InverseTree : string;
  m_DebugMode : bool;
  m_DLLModule : HMODULE;
}.

(** the value of the static [s_Instance]: absent from the process table
    for [nullptr], otherwise pointing at a context that is alive or at one
    whose construction failed after the assignment *)
Inductive instance :=
  | alive (c : HookContext)
  | dangling (c : HookContext).

Inductive exception :=
  | runtime_error (what : string)
  | usage_error (msg info : string)
  | bad_alloc.

Inductive result (A : Type) :=
  | Returned (a : A)
  | Thrown (e : exception).
Arguments Returned {A} a.
Arguments Thrown {A} e.

(** the host: its shared memory and [s_Instance] of every process *)
Record World := {
  memory : SharedMemory;
  processes : gmap DWORD instance;
}.

(** [HookContext::retrieveParameters]: the record named "parameters" of the
    segment is found or constructed from the seed; the segment is taken to
    have room for it, so that [bad_alloc] is not thrown *)
Definition retrieveParameters (params : Seed.USVFSParameters)
    (id : segment_id) (m : SharedMemory)
  : Shared.SharedParameters * SharedMemory :=
  match record id m with
  | Some res => (res, m)
  | None =>
      let res := Shared.construct params in
      (res, store id res m)
  end.

(** [HookContext::HookContext], run by process [pid].  The class of
    [m_Tree] and [m_InverseTree], the tree container, is not in
    hookcontext.cpp: of the construction of the two members the model keeps
    the names they are given, and [tree_found], which tells whether
    [m_Tree.get()] is non-null afterwards.  What the tree containers do to
    the segments of the trees is not part of [construct]. *)
Definition construct (pid : DWORD) (params : Seed.USVFSParameters)
    (module : HMODULE) (tree_found : bool) (w : World)
  : result HookContext * World :=
  let '(shm, m) := open_or_create (Seed.instanceName params) (memory w) in
  let '(parameters, m) := retrieveParameters params shm m in
  let this :=
    {| m_ConfigurationSHM := shm;
       m_Tree := Shared.currentSHMName parameters;
       m_InverseTree := Shared.currentInverseSHMName parameters;
       m_DebugMode := Seed.debugMode params;
       m_DLLModule := module |} in
  match processes w !! pid with
  | Some _ =>
      (Thrown (runtime_error "singleton duplicate instantiation (HookContext)"),
       {| memory := m; processes := processes w |})
  | None =>
      let m :=
        store shm
          (Shared.set_userCount (Shared.userCount parameters + 1) parameters) m in
      if tree_found then
        (Returned this,
         {| memory := m; processes := <[pid := alive this]> (processes w) |})
      else
        (Thrown (usage_error "shm not found" (Seed.instanceName params)),
         {| memory := m; processes := <[pid := dangling this]> (processes w) |})
  end.

(** [HookContext::~HookContext], run by process [pid] on its context: the
    body of the destructor, which is where the count is taken down and the
    configuration segment removed.  The destructors of the members, which
    run after the body, are not part of [destroy]; see [Teardown.detach].
    [None] when the process has no live context to destroy (or when its
    segment held no record, which [construct] excludes). *)
Definition destroy (pid : DWORD) (w : World) : option World :=
  match processes w !! pid with
  | Some (alive this) =>
      match record (m_ConfigurationSHM this) (memory w) with
      | Some parameters =>
          let count := (Shared.userCount parameters - 1)%Z in
          let m :=
            store (m_ConfigurationSHM this)
                  (Shared.set_userCount count parameters) (memory w) in
          let m :=
            if (count =? 0)%Z
            then remove (Shared.instanceName parameters) m
            else m in
          Some {| memory := m; processes := delete pid (processes w) |}
      | None => None
      end
  | _ => None
  end.

(** attaches and detaches of the processes of the host, in the order in
    which they happen; each is one step *)
Inductive event :=
  | Attach (pid : DWORD) (params : Seed.USVFSParameters) (module : HMODULE)
  | Detach (pid : DWORD).

Definition is_attach (e : event) : bool :=
  match e with Attach _ _ _ => true | Detach _ => false end.

Definition is_detach (e : event) : bool :=
  match e with Attach _ _ _ => false | Detach _ => true end.

(** one event; [None] when the attach throws or there is nothing to
    detach *)
Definition step (e : event) (w : World) : option World :=
  match e with
  | Attach pid params module =>
      match construct pid params module true w with
      | (Returned _, w') => Some w'
      | (Thrown _, _) => None
      end
  | Detach pid => destroy pid w
  end.

Fixpoint run (trace : list event) (w : World) : option World :=
  match trace with
  | [] => Some w
  | e :: rest =>
      match step e w with
      | Some w' => run rest w'
      | None => None
      end
  end.

(** nothing is linked and no process is attached *)
Definition boot : World :=
  {| memory := {| names := ∅; segments := ∅ |}; processes := ∅ |}.

(** whether [s_Instance] points at a live context configured by segment
    [id] *)
Definition holds (id : segment_id) (i : instance) : bool :=
  match i with
  | alive c => bool_decide (m_ConfigurationSHM c = id)
  | dangling _ => false
  end.

(** the processes whose context has segment [id] as its configuration *)
Definition holders (id : segment_id) (procs : gmap DWORD instance)
  : gmap DWORD instance :=
  filter (λ kv, holds id kv.2 = true) procs.

(** the number of users recorded for the instance called [name]: the
    [userCount] of the record in the segment linked under that name, 0 when
    there is no such segment or no record in it *)
Definition recorded_users (name : string) (m : SharedMemory) : Z :=
  match names m !! name with
  | Some id =>
      match record id m with
      | Some parameters => Shared.userCount parameters
      | None => 0%Z
      end
  | None => 0%Z
  end.

(** The state of a host on which contexts are only created and destroyed
    by [construct] and [destroy]: a linked segment that holds a record
    holds the one of the instance it is named after, whose [userCount] is
    the number of processes attached to it and is not zero; every process
    that has a context has a live one, whose configuration segment is
    linked and holds a record; every linked segment exists, and under one
    name only. *)
Definition consistent (w : World) : Prop :=
  (∀ name id parameters,
     names (memory w) !! name = Some id →
     record id (memory w) = Some parameters →
     Shared.instanceName parameters = name ∧
     Shared.userCount parameters
       = Z.of_nat (size (holders id (processes w))) ∧
     0 < size (holders id (processes w))) ∧
  (∀ pid i, processes w !! pid = Some i →
     ∃ c name, i = alive c ∧
       names (memory w) !! name = Some (m_ConfigurationSHM c) ∧
       is_Some (record (m_ConfigurationSHM c) (memory w))) ∧
  (∀ name id, names (memory w) !! name = Some id →
     id ∈ dom (segments (memory w))) ∧
  (∀ name name' id,
     names (memory w) !! name = Some id →
     names (memory w) !! name' = Some id → name = name').

(** What is left of [consistent] when names may be unlinked while
    processes are attached under them: the configuration segment of a
    process holds a record, linked or not. *)
Definition sound (w : World) : Prop :=
  (∀ name id parameters,
     names (memory w) !! name = Some id →
     record id (memory w) = Some parameters →
     Shared.instanceName parameters = name ∧
     Shared.userCount parameters
       = Z.of_nat (size (holders id (processes w))) ∧
     0 < size (holders id (processes w))) ∧
  (∀ pid i, processes w !! pid = Some i →
     ∃ c, i = alive c ∧
       is_Some (record (m_ConfigurationSHM c) (memory w))) ∧
  (∀ name id, names (memory w) !! name = Some id →
     id ∈ dom (segments (memory w))) ∧
  (∀ name name' id,
     names (memory w) !! name = Some id →
     names (memory w) !! name' = Some id → name = name').

(** a host before anybody attaches: no process has a context and the
    linked segments, each under its own name, hold no record yet *)
Definition idle (w : World) : Prop :=
  processes w = ∅ ∧
  (∀ name id, names (memory w) !! name = Some id →
     segments (memory w) !! id = Some None) ∧
  (∀ name name' id,
     names (memory w) !! name = Some id →
     names (memory w) !! name' = Some id → name = name').

(** the instances of [names] are linked to segments that hold a record *)
Definition recorded (instances : gset string) (w : World) : Prop :=
  ∀ name id, name ∈ instances → names (memory w) !! name = Some id →
             is_Some (record id (memory w)).

(** the instance names the attaches of a trace ask for *)
Fixpoint attach_names (trace : list event) : gset string :=
  match trace with
  | [] => ∅
  | Attach _ params _ :: rest => {[Seed.instanceName params]} ∪ attach_names rest
  | Detach _ :: rest => attach_names rest
  end.

(** a trace that can happen: a process attaches when it has no context and
    detaches when it has one; [attached] are the processes that have one
    at the start *)
Fixpoint feasible (attached : gset DWORD) (trace : list event) : bool :=
  match trace with
  | [] => true
  | Attach pid _ _ :: rest =>
      bool_decide (pid ∉ attached) && feasible ({[pid]} ∪ attached) rest
  | Detach pid :: rest =>
      bool_decide (pid ∈ attached) && feasible (attached ∖ {[pid]}) rest
  end.

(** how many attaches and detaches a trace has *)
Definition attaches (trace : list event) : nat :=
  length (List.filter is_attach trace).

Definition detaches (trace : list event) : nat :=
  length (List.filter is_detach trace).

Definition sample_trace : list event :=
  [Attach 1%Z sample_seed 0%Z; Attach 2%Z sample_seed 0%Z;
   Detach 1%Z; Attach 3%Z sample_seed 0%Z; Detach 3%Z; Detach 2%Z].

(** a host on which the two tree segments of the sample instance have been
    created beforehand *)
Definition with_trees : World :=
  {| memory :=
       {| names := {[ "uvfs-x-tree" := 0; "uvfs-x-inverse" := 1 ]};
          segments := {[ 0 := None; 1 := None ]} |};
     processes := ∅ |}.

(** process 1 attaches to the sample instance on that host and detaches
    again *)
Definition attached_once : World :=
  (construct 1%Z sample_seed 0%Z true with_trees).2.

Definition once : list event := [Attach 1%Z sample_seed 0%Z; Detach 1%Z].

End Life.

(** ** Detaching, with the segments of the trees *)

Module Teardown.

Import Os Life.

(** Modelled from the spec: the destructors of the members [m_InverseTree]
    and [m_Tree], whose class, the tree container, is not under src/.
    "detach() - decrement userCount; on zero, unlink all three segments":
    when the detach has brought [userCount] to zero they unlink the
    segments of the two trees, the inverse tree first, as the members are
    destroyed in the reverse order of their declaration.  "attach - ...
    open the two tree segments": constructing them links no name, which is
    how [Life.construct] has it. *)
Definition unlink_trees (this : HookContext) (m : SharedMemory)
  : SharedMemory :=
  remove (m_Tree this) (remove (m_InverseTree this) m).

(** a detach: the body of the destructor, then the destructors of the
    members *)
Definition detach (pid : DWORD) (w : World) : option World :=
  match processes w !! pid with
  | Some (alive this) =>
      match record (m_ConfigurationSHM this) (memory w), destroy pid w with
      | Some parameters, Some w' =>
          if (Shared.userCount parameters - 1 =? 0)%Z
          then Some {| memory := unlink_trees this (memory w');
                       processes := processes w' |}
          else Some w'
      | _, _ => None
      end
  | _ => None
  end.

(** one event; [None] when the attach throws or there is nothing to
    detach *)
Definition step (e : event) (w : World) : option World :=
  match e with
  | Attach pid params module =>
      match construct pid params module true w with
      | (Returned _, w') => Some w'
      | (Thrown _, _) => None
      end
  | Detach pid => detach pid w
  end.

Fixpoint run (trace : list event) (w : World) : option World :=
  match trace with
  | [] => Some w
  | e :: rest =>
      match step e w with
      | Some w' => run rest w'
      | None => None
      end
  end.

End Teardown.

(** ** Guarded access *)

Module Access.

(** what is written to the log: the event the specification names, and
    everything else *)
Inductive log_record :=
  | LockTimeout (bound : N)
  | Other (text : string).

(** The mutex as a process that waits for it finds it: free, or taken by a
    holder that signals it after some milliseconds, or not at all. *)
Inductive Mutex :=
  | Free
  | Taken (released_after : option N).

(** how a wait ends: the mutex afterwards, whether it was acquired, the
    milliseconds the wait took and what it wrote to the log *)
Record waited := {
  mutex : Mutex;
  acquired : bool;
  elapsed : N;
  written : list log_record;
}.

(** Modelled from the spec: [m_Mutex.wait], of the mutex class, which is
    not under src/.  "acquire the cross-process mutex with a bounded
    wait"; "LockTimeout - mutex wait exceeded bound; logged, guard granted
    best-effort".  The wait ends when the mutex can be taken, and when the
    bound is reached at the latest; in that case the mutex has not been
    acquired and the event is logged.  The member function returns
    nothing: [acquired] is not visible to the caller. *)
Definition wait (timeout : N) (m : Mutex) : waited :=
  match m with
  | Free =>
      {| mutex := Taken None; acquired := true; elapsed := 0; written := [] |}
  | Taken (Some after) =>
      if (after <=? timeout)%N
      then {| mutex := Taken None; acquired := true; elapsed := after;
              written := [] |}
      else {| mutex := Taken (Some (after - timeout)%N); acquired := false;
              elapsed := timeout; written := [LockTimeout timeout] |}
  | Taken None =>
      {| mutex := Taken None; acquired := false; elapsed := timeout;
         written := [LockTimeout timeout] |}
  end.

(** Modelled from the spec: [m_Mutex.signal]; the guard "releases on
    drop". *)
Definition signal (m : Mutex) : Mutex := Free.

Record Context := { m_Mutex : Mutex }.

(** what matters of a process here: [s_Instance] ([None] for [nullptr]),
    the records written to the loggers and the milliseconds it has spent
    waiting *)
Record Process := {
  s_Instance : option Context;
  log : list log_record;
  clock : N;
}.

(** the deleter of the shared pointer handed out *)
Inductive deleter := unlock | unlockShared.

Inductive access :=
  | Guard (release : deleter)
  | AssertionFailed.

(** [s_Instance->m_Mutex.wait(200)] *)
Definition wait_for_instance (instance : Context) (p : Process) : Process :=
  let w := wait 200 (m_Mutex instance) in
  {| s_Instance := Some {| m_Mutex := mutex w |};
     log := log p ++ written w;
     clock := clock p + elapsed w |}.

(** [HookContext::readAccess] *)
Definition readAccess (p : Process) : access * Process :=
  match s_Instance p with
  | None => (AssertionFailed, p)
  | Some instance => (Guard unlockShared, wait_for_instance instance p)
  end.

(** [HookContext::writeAccess] *)
Definition writeAccess (p : Process) : access * Process :=
  match s_Instance p with
  | None => (AssertionFailed, p)
  | Some instance => (Guard unlock, wait_for_instance instance p)
  end.

(** [HookContext::unlock] and [HookContext::unlockShared], run when the
    guard is dropped *)
Definition release (d : deleter) (p : Process) : Process :=
  match s_Instance p with
  | None => p
  | Some instance =>
      {| s_Instance := Some {| m_Mutex := signal (m_Mutex instance) |};
         log := log p; clock := clock p |}
  end.

(** a process whose mutex is taken by another one that does not signal
    it, with nothing logged *)
Definition contended : Process :=
  {| s_Instance := Some {| m_Mutex := Taken None |}; log := []; clock := 0 |}.

End Access.

(** ** Settings and the local copy of the parameters *)

Module Settings.

Import Shared.

Definition set_logLevel (l : LogLevel) (p : SharedParameters) :=
  {| instanceName := instanceName p; currentSHMName := currentSHMName p;
     currentInverseSHMName := currentInverseSHMName p;
     debugMode := debugMode p; logLevel := l;
     crashDumpsType := crashDumpsType p; crashDumpsPath := crashDumpsPath p;
     userCount := userCount p;
     processBlacklist := processBlacklist p; processList := processList p;
     forcedLibraries := forcedLibraries p;
     deletedFileTracker := deletedFileTracker p;
     fakeDirectoryTracker := fakeDirectoryTracker p |}.

Definition set_crashDumpsType (t : CrashDumpsType) (p : SharedParameters) :=
  {| instanceName := instanceName p; currentSHMName := currentSHMName p;
     currentInverseSHMName := currentInverseSHMName p;
     debugMode := debugMode p; logLevel := logLevel p;
     crashDumpsType := t; crashDumpsPath := crashDumpsPath p;
     userCount := userCount p;
     processBlacklist := processBlacklist p; processList := processList p;
     forcedLibraries := forcedLibraries p;
     deletedFileTracker := deletedFileTracker p;
     fakeDirectoryTracker := fakeDirectoryTracker p |}.

Definition set_SHMNames (tree inverse : string) (p : SharedParameters) :=
  {| instanceName := instanceName p; currentSHMName := tree;
     currentInverseSHMName := inverse;
     debugMode := debugMode p; logLevel := logLevel p;
     crashDumpsType := crashDumpsType p; crashDumpsPath := crashDumpsPath p;
     userCount := userCount p;
     processBlacklist := processBlacklist p; processList := processList p;
     forcedLibraries := forcedLibraries p;
     deletedFileTracker := deletedFileTracker p;
     fakeDirectoryTracker := fakeDirectoryTracker p |}.

(** [HookContext::setLogLevel] *)
Definition setLogLevel (level : LogLevel) (p : SharedParameters)
  : SharedParameters :=
  set_logLevel level p.

(** [HookContext::setCrashDumpsType] *)
Definition setCrashDumpsType (type : CrashDumpsType) (p : SharedParameters)
  : SharedParameters :=
  set_crashDumpsType type p.

(** [HookContext::updateParameters]; [treeName] and [inverseName] are what
    [m_Tree.shmName()] and [m_InverseTree.shmName()] return, and the
    record is assigned their C strings *)
Definition updateParameters (treeName inverseName : string) (p : SharedParameters)
  : SharedParameters :=
  set_SHMNames (c_str treeName) (c_str inverseName) p.

(** [HookContext::callParameters]: the local copy that is returned and the
    record afterwards *)
Definition callParameters (sizes : BufferSizes) (treeName inverseName : string)
    (p : SharedParameters) : Seed.USVFSParameters * SharedParameters :=
  let p := updateParameters treeName inverseName p in
  (makeLocal sizes p, p).

End Settings.

(** two optional strings that are both null or equal up to case *)
Definition same_up_to_case (a b : option string) : Prop :=
  match a, b with
  | Some x, Some y => Str.iequal x y
  | None, None => True
  | _, _ => False
  end.

(** ** Member functions run by the processes of a host *)

Module Host.

Import Os Life.

(** [HookContext::remove] *)
Definition remove (instanceName : string) (w : World) : World :=
  {| memory := Os.remove instanceName (memory w); processes := processes w |}.

(** what [m_Parameters] of the context of process [pid] points at *)
Definition parameters_of (pid : DWORD) (w : World)
  : option Shared.SharedParameters :=
  match processes w !! pid with
  | Some (alive c) => record (m_ConfigurationSHM c) (memory w)
  | _ => None
  end.

(** process [pid] assigns [p] through [m_Parameters] *)
Definition assign (pid : DWORD) (p : Shared.SharedParameters) (w : World)
  : option World :=
  match processes w !! pid with
  | Some (alive c) =>
      Some {| memory := store (m_ConfigurationSHM c) p (memory w);
              processes := processes w |}
  | _ => None
  end.

(** the member functions that change the shared record *)
Inductive call :=
  | RegisterProcess (pid : DWORD)
  | UnregisterCurrentProcess
  | BlacklistExecutable (executableName : string)
  | ClearExecutableBlacklist
  | ForceLoadLibrary (processName libraryPath : string)
  | ClearLibraryForceLoads
  | AddDeletedFile (fromPath toPath : string)
  | ForgetDeletedFile (fromPath : string)
  | AddFakeDirectory (fromPath toPath : string)
  | ForgetFakeDirectory (fromPath : string)
  | SetLogLevel (level : LogLevel)
  | SetCrashDumpsType (type : CrashDumpsType)
  | UpdateParameters (treeName inverseName : string).

(** the record after the call, made by the process whose identifier is
    [self] *)
Definition perform (self : DWORD) (c : call) (p : Shared.SharedParameters)
  : Container.outcome Shared.SharedParameters :=
  match c with
  | RegisterProcess pid => Container.Done (HookContext.registerProcess pid p)
  | UnregisterCurrentProcess => HookContext.unregisterCurrentProcess self p
  | BlacklistExecutable name =>
      Container.Done (HookContext.blacklistExecutable name p)
  | ClearExecutableBlacklist =>
      Container.Done (HookContext.clearExecutableBlacklist p)
  | ForceLoadLibrary pn lp =>
      Container.Done (HookContext.forceLoadLibrary pn lp p)
  | ClearLibraryForceLoads =>
      Container.Done (HookContext.clearLibraryForceLoads p)
  | AddDeletedFile v r => Container.Done (HookContext.addDeletedFile v r p)
  | ForgetDeletedFile v => Container.Done (HookContext.forgetDeletedFile v p).2
  | AddFakeDirectory v r => Container.Done (HookContext.addFakeDirectory v r p)
  | ForgetFakeDirectory v =>
      Container.Done (HookContext.forgetFakeDirectory v p).2
  | SetLogLevel level => Container.Done (Settings.setLogLevel level p)
  | SetCrashDumpsType type => Container.Done (Settings.setCrashDumpsType type p)
  | UpdateParameters tree inverse =>
      Container.Done (Settings.updateParameters tree inverse p)
  end.

(** what happens on the host: a process attaches or detaches, or a process
    calls a member function of its context *)
Inductive action :=
  | Lifecycle (e : event)
  | Call (pid : DWORD) (c : call).

(** one action; [None] when the life-cycle event is impossible, the
    process has no context, or the call is undefined *)
Definition act (a : action) (w : World) : option World :=
  match a with
  | Lifecycle e => step e w
  | Call pid c =>
      match parameters_of pid w with
      | Some p =>
          match perform pid c p with
          | Container.Done p' => assign pid p' w
          | Container.Undefined => None
          end
      | None => None
      end
  end.

Fixpoint play (script : list action) (w : World) : option World :=
  match script with
  | [] => Some w
  | a :: rest =>
      match act a w with
      | Some w' => play rest w'
      | None => None
      end
  end.

(** the attaches and detaches of a script *)
Fixpoint lifecycle (script : list action) : list event :=
  match script with
  | [] => []
  | Lifecycle e :: rest => e :: lifecycle rest
  | Call _ _ :: rest => lifecycle rest
  end.

Definition sample_script : list action :=
  [Lifecycle (Attach 1%Z sample_seed 0%Z);
   Call 1%Z (RegisterProcess 1%Z);
   Lifecycle (Attach 2%Z sample_seed 0%Z);
   Call 2%Z (BlacklistExecutable ".tmp.exe");
   Call 1%Z (AddDeletedFile "\data\a.txt" "C:\s1\a.txt");
   Call 2%Z (UpdateParameters "uvfs-x-tree-2" "uvfs-x-inverse-2");
   Call 1%Z UnregisterCurrentProcess;
   Lifecycle (Detach 1%Z);
   Call 2%Z (SetLogLevel LogDebug);
   Lifecycle (Detach 2%Z)].

(** two processes attached to the sample instance *)
Definition attached_twice : World :=
  default boot
    (run [Attach 1%Z sample_seed 0%Z; Attach 2%Z sample_seed 0%Z] boot).

(** the record the two of them share, the record after process 1 has
    blacklisted a name, and the host after process 1 has assigned it *)
Definition shared_before : Shared.SharedParameters :=
  default sample_record (parameters_of 1%Z attached_twice).

Definition shared_after : Shared.SharedParameters :=
  HookContext.blacklistExecutable ".tmp.exe" shared_before.

Definition written : World :=
  default attached_twice (assign 1%Z shared_after attached_twice).

(** the host after process 1 has called [callParameters] for a child it
    starts, with arrays that are too small for the names of the trees *)
Definition handed_over : World :=
  default attached_twice
    (assign 1%Z
       (Settings.callParameters sample_sizes "uvfs-x-tree-2"
          "uvfs-x-inverse-2" shared_before).2
       attached_twice).

End Host.

(** ** The hexadecimal dump of a buffer *)

Module Dump.

Definition hex_digit (n : nat) : ascii :=
  match n with
  | 0 => "0" | 1 => "1" | 2 => "2" | 3 => "3" | 4 => "4" | 5 => "5"
  | 6 => "6" | 7 => "7" | 8 => "8" | 9 => "9" | 10 => "a" | 11 => "b"
  | 12 => "c" | 13 => "d" | 14 => "e" | _ => "f"
  end%char.

(** what [_snprintf(_, 3, "%02x ", c)] stores: the two hexadecimal digits
    of the byte and a blank; the count of 3 leaves no room for a
    terminator *)
Definition format_02x (c : ascii) : list ascii :=
  [hex_digit (nat_of_ascii c / 16); hex_digit (nat_of_ascii c mod 16);
   " "%char].

(** one record of the "hooks" logger: a row with the offset of its first
    byte, or the buffer alone.  The text is [temp] before its terminator;
    a character that was never written is [None]. *)
Inductive entry :=
  | Row (offset : nat) (text : list (option ascii))
  | Plain (text : list (option ascii)).

(** the loop of [printBuffer], from index [i] on *)
Fixpoint print_loop (buffer : list ascii) (i : nat)
    (temp : list (option ascii)) (log : list entry)
  : list (option ascii) * list entry :=
  match buffer with
  | [] => (temp, log)
  | c :: rest =>
      let offset := i mod 16 in
      let temp :=
        take (offset * 3) temp ++ (Some <$> format_02x c)
          ++ drop (offset * 3 + 3) temp in
      let log :=
        if (offset =? 15)%nat then log ++ [Row (i - offset) temp] else log in
      print_loop rest (S i) temp log
  end.

(** [printBuffer]; [buffer] holds the [size] bytes that are read *)
Definition printBuffer (buffer : list ascii) : list entry :=
  let '(temp, log) := print_loop buffer 0 (replicate 48 None) [] in
  log ++ [Plain temp].

(** the text of a run of bytes *)
Definition hexline (bytes : list ascii) : list (option ascii) :=
  Some <$> (bytes ≫= format_02x).

(** the rows of the first [count] groups of 16 bytes, the first of which
    is group number [k] *)
Fixpoint row_entries (count k : nat) (buffer : list ascii) : list entry :=
  match count with
  | 0 => []
  | S count' =>
      Row (k * 16) (hexline (take 16 buffer))
        :: row_entries count' (S k) (drop 16 buffer)
  end.

End Dump.

(** * Properties *)

(** ** Facts about strings and the Boost predicates *)

Section string_facts.

Lemma chars_app (a b : string) :
  Str.chars (a +:+ b) = Str.chars a ++ Str.chars b.
Proof.
  induction a as [|c a IH]; simpl; [done|]. unfold Str.chars in *. simpl.
  by rewrite IH.
Qed.

Lemma of_chars_chars (s : string) : Str.of_chars (Str.chars s) = s.
Proof. apply string_of_list_ascii_of_string. Qed.

Lemma chars_of_chars (l : list ascii) : Str.chars (Str.of_chars l) = l.
Proof. apply list_ascii_of_string_of_list_ascii. Qed.

Lemma chars_inj (a b : string) : Str.chars a = Str.chars b → a = b.
Proof.
  intros H. rewrite <- (of_chars_chars a), <- (of_chars_chars b).
  by rewrite H.
Qed.

Lemma is_iequal_true (a b : ascii) :
  Boost.is_iequal a b = true ↔ Chars.toupper a = Chars.toupper b.
Proof. unfold Boost.is_iequal. apply Ascii.eqb_eq. Qed.

(** the inner loop decides "[search] is, up to case, a prefix of [input]" *)
Lemma match_here_spec (input search : list ascii) :
  Boost.match_here input search = true ↔
  ∃ mid post, input = mid ++ post ∧
              Chars.toupper <$> mid = Chars.toupper <$> search.
Proof.
  revert input. induction search as [|p search IH]; intros input; simpl.
  - split; [|done]. intros _. by exists [], input.
  - destruct input as [|c input].
    + split; [done|]. intros (mid & post & Heq & Hup).
      destruct mid; simplify_eq/=.
    + destruct (Boost.is_iequal c p) eqn:Hcp.
      * apply is_iequal_true in Hcp. rewrite IH. split.
        -- intros (mid & post & -> & Hup). exists (c :: mid), post.
           split; [done|]. rewrite !fmap_cons. by rewrite Hcp, Hup.
        -- intros (mid & post & Heq & Hup).
           destruct mid as [|m mid]; simplify_eq/=. by exists mid, post.
      * split; [done|]. intros (mid & post & Heq & Hup).
        destruct mid as [|m mid]; simplify_eq/=.
        assert (Boost.is_iequal m p = true) by by apply is_iequal_true.
        congruence.
Qed.

Lemma first_finder_spec (search input : list ascii) (offset : nat) :
  search ≠ [] →
  is_Some (Boost.first_finder search input offset) ↔
  ∃ pre mid post, input = pre ++ mid ++ post ∧
                  Chars.toupper <$> mid = Chars.toupper <$> search.
Proof.
  intros Hne. destruct search as [|p srch]; [done|]. clear Hne.
  revert offset.
  induction input as [|c input IH]; intros offset; cbn [Boost.first_finder].
  - split; [by intros [? ?]|]. intros (pre & mid & post & Heq & Hup).
    destruct pre, mid; simplify_eq/=.
  - destruct (Boost.match_here (c :: input) (p :: srch)) eqn:Hm.
    + split; [|by eauto]. intros _.
      apply match_here_spec in Hm as (mid & post & Heq & Hup).
      by exists [], mid, post.
    + rewrite IH. split.
      * intros (pre & mid & post & -> & Hup). by exists (c :: pre), mid, post.
      * intros (pre & mid & post & Heq & Hup).
        destruct pre as [|c' pre]; simpl in Heq.
        -- assert (Boost.match_here (mid ++ post) (p :: srch) = true) as Hm';
             [|rewrite <- Heq in Hm'; congruence].
           apply match_here_spec. by exists mid, post.
        -- injection Heq as -> ->. by exists pre, mid, post.
Qed.

Lemma ends_with_iter_match_here (rinput rtest : list ascii) :
  Boost.ends_with_iter rinput rtest = Boost.match_here rinput rtest.
Proof.
  revert rinput. induction rtest as [|p rtest IH]; intros [|c rinput]; simpl;
    by rewrite ?IH.
Qed.

Lemma iequal_chars (a b : list ascii) :
  Str.iequal (Str.of_chars a) (Str.of_chars b) ↔
  Chars.toupper <$> a = Chars.toupper <$> b.
Proof. unfold Str.iequal, Str.upcase. by rewrite !chars_of_chars. Qed.

(** [iends_with] decides the case-insensitive suffix relation. *)
Lemma iends_with_spec (Input Test : string) :
  Boost.iends_with Input Test = true ↔ Str.isuffix Test Input.
Proof.
  unfold Boost.iends_with, Str.isuffix.
  rewrite ends_with_iter_match_here, match_here_spec. split.
  - intros (mid & post & Heq & Hup).
    exists (Str.of_chars (reverse post)), (Str.of_chars (reverse mid)). split.
    + apply chars_inj. rewrite chars_app, !chars_of_chars.
      rewrite <- reverse_app, <- Heq. by rewrite reverse_involutive.
    + unfold Str.iequal, Str.upcase. rewrite chars_of_chars.
      apply (f_equal reverse) in Hup.
      rewrite <- !fmap_reverse in Hup. by rewrite reverse_involutive in Hup.
  - intros (pre & suf & -> & Hup). unfold Str.iequal, Str.upcase in Hup.
    exists (reverse (Str.chars suf)), (reverse (Str.chars pre)). split.
    + by rewrite chars_app, reverse_app.
    + rewrite !fmap_reverse. by f_equal.
Qed.

(** [icontains] decides the case-insensitive substring relation. *)
Lemma icontains_spec (Input Test : string) :
  Boost.icontains Input Test = true ↔ Str.isubstring Test Input.
Proof.
  unfold Boost.icontains, Str.isubstring.
  destruct (Str.chars Test) as [|p test] eqn:Ht.
  - split; [|done]. intros _. exists "", "", Input. split; [done|].
    unfold Str.iequal, Str.upcase. by rewrite Ht.
  - rewrite bool_decide_eq_true, first_finder_spec by done. split.
    + intros (pre & mid & post & Heq & Hup).
      exists (Str.of_chars pre), (Str.of_chars mid), (Str.of_chars post).
      split.
      * apply chars_inj. by rewrite !chars_app, !chars_of_chars.
      * unfold Str.iequal, Str.upcase. by rewrite chars_of_chars, Ht.
    + intros (pre & mid & post & -> & Hup).
      exists (Str.chars pre), (Str.chars mid), (Str.chars post).
      split; [by rewrite !chars_app|].
      unfold Str.iequal, Str.upcase in Hup. by rewrite <- Ht.
Qed.

End string_facts.

Section crt_facts.

Lemma all_chars_complete (c : ascii) : In c Chars.all_chars.
Proof.
  unfold Chars.all_chars. rewrite <- (ascii_nat_embedding c).
  apply in_map, in_seq. pose proof (nat_ascii_bounded c). lia.
Qed.

Lemma forall_chars (P : ascii → bool) :
  forallb P Chars.all_chars = true → ∀ c, P c = true.
Proof.
  intros H c. rewrite forallb_forall in H. apply H, all_chars_complete.
Qed.

Lemma forall_chars2 (P : ascii → ascii → bool) :
  forallb (λ a, forallb (P a) Chars.all_chars) Chars.all_chars = true →
  ∀ a b, P a b = true.
Proof.
  intros H a b. apply (forall_chars (P a)).
  by apply (forall_chars (λ a, forallb (P a) Chars.all_chars)).
Qed.

(** In the "C" locale folding to lower case and folding to upper case
    identify the same characters. *)
Lemma tolower_toupper (a b : ascii) :
  Chars.tolower a = Chars.tolower b ↔ Chars.toupper a = Chars.toupper b.
Proof.
  pose proof (forall_chars2
    (λ a b, Bool.eqb (Ascii.eqb (Chars.tolower a) (Chars.tolower b))
                     (Ascii.eqb (Chars.toupper a) (Chars.toupper b)))) as H.
  specialize (H ltac:(vm_compute; reflexivity) a b).
  apply Bool.eqb_prop in H. by rewrite <- !Ascii.eqb_eq, H.
Qed.

Lemma code_tolower_inj (a b : ascii) :
  Chars.code (Chars.tolower a) = Chars.code (Chars.tolower b) ↔
  Chars.tolower a = Chars.tolower b.
Proof.
  unfold Chars.code. split; [|by intros ->]. intros H.
  apply Nat2Z.inj in H.
  rewrite <- (ascii_nat_embedding (Chars.tolower a)),
          <- (ascii_nat_embedding (Chars.tolower b)). by rewrite H.
Qed.

Lemma code_tolower_zero (c : ascii) :
  Chars.code (Chars.tolower c) = 0%Z ↔ c = zero.
Proof.
  pose proof (forall_chars
    (λ c, Bool.eqb (Chars.code (Chars.tolower c) =? 0)%Z (Ascii.eqb c zero)))
    as H.
  specialize (H ltac:(vm_compute; reflexivity) c).
  apply Bool.eqb_prop in H. by rewrite <- Z.eqb_eq, H, Ascii.eqb_eq.
Qed.

(** [_stricmp] returns 0 exactly when the two C strings are equal up to
    case. *)
Lemma stricmp_chars_zero (lhs rhs : list ascii) :
  Crt.stricmp_chars lhs rhs = 0%Z ↔
  Chars.toupper <$> c_str_chars lhs = Chars.toupper <$> c_str_chars rhs.
Proof.
  revert rhs. induction lhs as [|a lhs IH]; intros [|b rhs]; simpl.
  - done.
  - destruct (Ascii.eqb_spec b zero) as [->|Hb]; [done|].
    split; [|done]. intros H. exfalso. apply Hb, code_tolower_zero. lia.
  - destruct (Ascii.eqb_spec a zero) as [->|Ha]; [done|].
    assert (Chars.code (Chars.tolower a) ≠ 0%Z) as Hne
      by by rewrite code_tolower_zero.
    apply Z.eqb_neq in Hne as Hne'. rewrite Hne'. simpl.
    split; [lia|done].
  - destruct (Ascii.eqb_spec a zero) as [->|Ha].
    { change (Chars.code (Chars.tolower zero)) with 0%Z. simpl.
      destruct (Ascii.eqb_spec b zero) as [->|Hb]; [done|].
      split; [|done]. intros H. exfalso. apply Hb, code_tolower_zero. lia. }
    assert (Chars.code (Chars.tolower a) ≠ 0%Z) as Hne
      by by rewrite code_tolower_zero.
    apply Z.eqb_neq in Hne as Hne'. rewrite Hne'. simpl.
    destruct (Z.eqb_spec (Chars.code (Chars.tolower a))
                         (Chars.code (Chars.tolower b))) as [Heq|Hdiff]; simpl.
    + assert (b ≠ zero) as Hb.
      { intros ->. by rewrite Heq in Hne. }
      destruct (Ascii.eqb_spec b zero) as [|_]; [done|].
      rewrite !fmap_cons, IH.
      apply code_tolower_inj, tolower_toupper in Heq. rewrite Heq.
      change (list_fmap ascii ascii Chars.toupper (c_str_chars lhs))
        with (Chars.toupper <$> c_str_chars lhs).
      split; [congruence|]. by intros [= ?].
    + split; [lia|]. intros H. exfalso. apply Hdiff.
      destruct (Ascii.eqb_spec b zero) as [|_]; [done|].
      rewrite !fmap_cons in H. injection H as H _.
      by apply code_tolower_inj, tolower_toupper.
Qed.

Lemma stricmp_zero (lhs rhs : string) :
  Crt.stricmp lhs rhs = 0%Z ↔ Str.iequal (c_str lhs) (c_str rhs).
Proof.
  unfold Crt.stricmp, c_str. by rewrite stricmp_chars_zero, iequal_chars.
Qed.

Lemma c_str_chars_id (l : list ascii) : zero ∉ l → c_str_chars l = l.
Proof.
  induction l as [|c l IH]; simpl; [done|]. intros Hnot.
  apply not_elem_of_cons in Hnot as [Hc Hl].
  destruct (Ascii.eqb_spec c zero) as [->|_]; [done|]. by rewrite IH.
Qed.

(** A string without NUL characters is its own C string. *)
Lemma c_str_id (s : string) : nul_free s → c_str s = s.
Proof.
  intros H. unfold c_str. rewrite c_str_chars_id by done.
  apply of_chars_chars.
Qed.

Lemma copy_truncate_take (avail : nat) (src : list ascii) :
  Crt.copy_truncate avail src = take avail src.
Proof.
  revert src. induction avail as [|n IH]; intros [|c src]; simpl;
    by rewrite ?IH.
Qed.

End crt_facts.


(** ** The executable blacklist *)

Section blacklist.

Import Shared HookContext.

Lemma scan_blacklist_TRUE (hit : string → bool) (items : list string) :
  scan_blacklist hit items FALSE = TRUE ↔ ∃ item, item ∈ items ∧ hit item = true.
Proof.
  induction items as [|item rest IH]; simpl.
  - split; [done|]. intros (? & []%elem_of_nil & _).
  - destruct (hit item) eqn:Hhit.
    + split; [|done]. intros _. exists item. split; [left|done].
    + rewrite IH. split.
      * intros (x & Hin & Hx). exists x. split; [by right|done].
      * intros (x & [->|Hin]%elem_of_cons & Hx); [congruence|by exists x].
Qed.

Lemma scan_blacklist_from_TRUE (hit : string → bool) (items : list string) :
  scan_blacklist hit items TRUE = TRUE.
Proof. induction items as [|item rest IH]; simpl; [done|]. by destruct (hit item). Qed.

Lemma scan_blacklist_bool (hit : string → bool) (items : list string) (b : BOOL) :
  b = TRUE ∨ b = FALSE →
  scan_blacklist hit items b = TRUE ∨ scan_blacklist hit items b = FALSE.
Proof.
  intros Hb. induction items as [|item rest IH]; simpl; [done|].
  destruct (hit item); [by left|done].
Qed.

Lemma executableBlacklisted_TRUE (p : SharedParameters) (appName commandLine : option string) :
  executableBlacklisted appName commandLine p = TRUE ↔
  blacklist_match (processBlacklist p) appName commandLine.
Proof.
  unfold executableBlacklisted, blacklist_match.
  destruct appName as [a|], commandLine as [c|].
  - destruct (scan_blacklist (λ item, Boost.iends_with a item)
                (elements (processBlacklist p)) FALSE =? TRUE)%Z eqn:Happ.
    + apply Z.eqb_eq in Happ. rewrite Happ, scan_blacklist_from_TRUE.
      split; [|done]. intros _. left.
      apply scan_blacklist_TRUE in Happ as (item & Hin & Hhit).
      exists a, item. split_and!; [done|by apply elem_of_elements|].
      by apply iends_with_spec.
    + apply Z.eqb_neq in Happ.
      destruct (scan_blacklist_bool (λ item, Boost.iends_with a item)
                  (elements (processBlacklist p)) FALSE) as [?|Hf];
        [by right|done|].
      rewrite Hf, scan_blacklist_TRUE. split.
      * intros (item & Hin & Hhit). right. exists c, item.
        split_and!; [done|by apply elem_of_elements|by apply icontains_spec].
      * intros [(a' & item & [= <-] & Hin & Hsuf)|(c' & item & [= <-] & Hin & Hsub)].
        -- exfalso. apply Happ, scan_blacklist_TRUE. exists item.
           split; [by apply elem_of_elements|by apply iends_with_spec].
        -- exists item.
           split; [by apply elem_of_elements|by apply icontains_spec].
  - rewrite scan_blacklist_TRUE. split.
    + intros (item & Hin & Hhit). left. exists a, item.
      split_and!; [done|by apply elem_of_elements|by apply iends_with_spec].
    + intros [(a' & item & [= <-] & Hin & Hsuf)|(c' & item & [=] & _)].
      exists item. split; [by apply elem_of_elements|by apply iends_with_spec].
  - rewrite scan_blacklist_TRUE. split.
    + intros (item & Hin & Hhit). right. exists c, item.
      split_and!; [done|by apply elem_of_elements|by apply icontains_spec].
    + intros [(a' & item & [=] & _)|(c' & item & [= <-] & Hin & Hsub)].
      exists item. split; [by apply elem_of_elements|by apply icontains_spec].
  - split; [done|]. by intros [(? & ? & [=] & _)|(? & ? & [=] & _)].
Qed.

Lemma executableBlacklisted_bool (p : SharedParameters) (appName commandLine : option string) :
  executableBlacklisted appName commandLine p = TRUE ∨
  executableBlacklisted appName commandLine p = FALSE.
Proof.
  unfold executableBlacklisted.
  destruct appName as [a|], commandLine as [c|]; try by right.
  - apply scan_blacklist_bool, scan_blacklist_bool. by right.
  - apply scan_blacklist_bool. by right.
  - apply scan_blacklist_bool. by right.
Qed.

(** C1. Whatever the blacklist and the pair (appName, commandLine),
    [executableBlacklisted] answers TRUE exactly when some blacklist entry
    is a case-insensitive suffix of the application name or occurs as a
    case-insensitive substring of the command line, and FALSE otherwise; a
    null application name or command line gives no match on its side. *)
Theorem executableBlacklisted_iff
    (p : SharedParameters) (appName commandLine : option string) :
  (executableBlacklisted appName commandLine p = TRUE ↔
     (∃ a item, appName = Some a ∧ item ∈ processBlacklist p ∧
                Str.isuffix item a) ∨
     (∃ c item, commandLine = Some c ∧ item ∈ processBlacklist p ∧
                Str.isubstring item c)) ∧
  (executableBlacklisted appName commandLine p = FALSE ↔
     ¬ ((∃ a item, appName = Some a ∧ item ∈ processBlacklist p ∧
                   Str.isuffix item a) ∨
        (∃ c item, commandLine = Some c ∧ item ∈ processBlacklist p ∧
                   Str.isubstring item c))).
Proof.
  pose proof (executableBlacklisted_TRUE p appName commandLine) as Ht.
  unfold blacklist_match in Ht. split; [done|].
  rewrite <- Ht.
  destruct (executableBlacklisted_bool p appName commandLine) as [H|H];
    rewrite H; by split.
Qed.

End blacklist.

Example blacklist_scenario :
  HookContext.executableBlacklisted (Some "C:\x\helper.TMP.EXE") None
    (HookContext.blacklistExecutable ".tmp.exe" sample_record) = TRUE.
Proof. vm_compute. reflexivity. Qed.

Example blacklist_command_line :
  HookContext.executableBlacklisted (Some "C:\x\tool.exe") (Some "tool.exe /run Helper.Tmp.Exe /q")
    (HookContext.blacklistExecutable ".tmp.exe" sample_record) = TRUE.
Proof. vm_compute. reflexivity. Qed.

Example blacklist_no_match :
  HookContext.executableBlacklisted (Some "C:\x\helper.tmp.exe.bak") None
    (HookContext.blacklistExecutable ".tmp.exe" sample_record) = FALSE.
Proof. vm_compute. reflexivity. Qed.

(** ** Forced libraries *)

Section forced_libraries.

Import Shared HookContext.

Lemma collect_libraries_filter (name : string) (libraries : list ForcedLibrary)
    (results : list string) :
  collect_libraries name libraries results =
  results ++ (libraryPath <$>
    filter (λ l, Str.iequal (c_str name) (c_str (processName l))) libraries).
Proof.
  revert results. induction libraries as [|library rest IH]; intros results.
  - simpl. by rewrite app_nil_r.
  - cbn [collect_libraries]. rewrite IH, filter_cons.
    destruct (Z.eqb_spec (Crt.stricmp name (processName library)) 0) as [Hz|Hz].
    + apply stricmp_zero in Hz. rewrite decide_True by done.
      by rewrite fmap_cons, <- app_assoc.
    + rewrite decide_False; [done|]. by rewrite <- stricmp_zero.
Qed.

Lemma filter_libraries_nul_free (name : string) (libraries : list ForcedLibrary) :
  nul_free name → Forall (λ l, nul_free (processName l)) libraries →
  filter (λ l, Str.iequal (c_str name) (c_str (processName l))) libraries
  = filter (λ l, Str.iequal name (processName l)) libraries.
Proof.
  intros Hname Hall. rewrite (c_str_id name) by done.
  induction Hall as [|library rest Hlib Hrest IH]; [done|].
  rewrite !filter_cons, IH. by rewrite (c_str_id (processName library)).
Qed.

(** C7. [forceLoadLibrary] puts the pair in front of the list, and
    [librariesToForceLoad] returns, in list order, the library paths of
    exactly those pairs whose process name is equal to the argument up to
    case: the whole names are compared, not a prefix, a suffix or a part of
    them. The names are compared as C strings, which is what they are when
    they hold no NUL. *)
Theorem librariesToForceLoad_exact (p : SharedParameters) (name : string) :
  (∀ pn lp, forcedLibraries (forceLoadLibrary pn lp p) =
            {| processName := pn; libraryPath := lp |} :: forcedLibraries p) ∧
  librariesToForceLoad name p =
    libraryPath <$>
      filter (λ l, Str.iequal (c_str name) (c_str (processName l)))
             (forcedLibraries p) ∧
  (nul_free name →
   Forall (λ l, nul_free (processName l)) (forcedLibraries p) →
   librariesToForceLoad name p =
     libraryPath <$>
       filter (λ l, Str.iequal name (processName l)) (forcedLibraries p)).
Proof.
  split; [done|]. unfold librariesToForceLoad.
  rewrite collect_libraries_filter. split; [done|].
  intros Hname Hall. by rewrite filter_libraries_nul_free.
Qed.

Lemma librariesToForceLoad_exact_witness :
  librariesToForceLoad "Game.EXE" sample_libraries =
    libraryPath <$>
      filter (λ l, Str.iequal "Game.EXE" (processName l))
             (forcedLibraries sample_libraries).
Proof.
  apply (librariesToForceLoad_exact sample_libraries "Game.EXE").
  - apply (bool_decide_unpack _). vm_compute. exact I.
  - apply (bool_decide_unpack _). vm_compute. exact I.
Defined.

Example force_load_scenario :
  librariesToForceLoad "Game.EXE" sample_libraries = ["b.dll"; "a.dll"].
Proof. vm_compute. reflexivity. Qed.

End forced_libraries.

(** ** The deletion and fake-directory trackers *)

Section trackers.

Import Shared HookContext.

Lemma emplace_lookup_same (k v : string) (m : gmap string string) :
  (Container.emplace k v m).1 !! k = Some (default v (m !! k)).
Proof.
  unfold Container.emplace. destruct (m !! k) eqn:Hk; simpl; [done|].
  by rewrite lookup_insert_eq.
Qed.

Lemma emplace_present (k v old : string) (m : gmap string string) :
  m !! k = Some old → Container.emplace k v m = (m, false).
Proof. intros H. unfold Container.emplace. by rewrite H. Qed.

Lemma erase_lookup_same (k : string) (m : gmap string string) :
  (Container.erase k m).1 !! k = None.
Proof.
  unfold Container.erase. destruct (m !! k) eqn:Hk; simpl; [|done].
  by rewrite lookup_delete_eq.
Qed.

Lemma set_deletedFileTracker_id (p : SharedParameters) :
  set_deletedFileTracker (deletedFileTracker p) p = p.
Proof. by destruct p. Qed.

Lemma set_fakeDirectoryTracker_id (p : SharedParameters) :
  set_fakeDirectoryTracker (fakeDirectoryTracker p) p = p.
Proof. by destruct p. Qed.

Lemma existsDeletedFile_lookup (v : string) (p : SharedParameters) :
  existsDeletedFile v p = bool_decide (is_Some (deletedFileTracker p !! v)).
Proof.
  unfold existsDeletedFile, Container.find.
  by destruct (deletedFileTracker p !! v).
Qed.

Lemma existsFakeDirectory_lookup (v : string) (p : SharedParameters) :
  existsFakeDirectory v p = bool_decide (is_Some (fakeDirectoryTracker p !! v)).
Proof.
  unfold existsFakeDirectory, Container.find.
  by destruct (fakeDirectoryTracker p !! v).
Qed.

Lemma lookupDeletedFile_lookup (v : string) (p : SharedParameters) :
  lookupDeletedFile v p = default "" (deletedFileTracker p !! v).
Proof.
  unfold lookupDeletedFile, Container.find.
  by destruct (deletedFileTracker p !! v).
Qed.

Lemma lookupFakeDirectory_lookup (v : string) (p : SharedParameters) :
  lookupFakeDirectory v p = default "" (fakeDirectoryTracker p !! v).
Proof.
  unfold lookupFakeDirectory, Container.find.
  by destruct (fakeDirectoryTracker p !! v).
Qed.

Lemma forgetDeletedFile_tracker (v : string) (p : SharedParameters) :
  deletedFileTracker (forgetDeletedFile v p).2 =
  (Container.erase v (deletedFileTracker p)).1.
Proof.
  unfold forgetDeletedFile.
  by destruct (Container.erase v (deletedFileTracker p)).
Qed.

Lemma forgetFakeDirectory_tracker (v : string) (p : SharedParameters) :
  fakeDirectoryTracker (forgetFakeDirectory v p).2 =
  (Container.erase v (fakeDirectoryTracker p)).1.
Proof.
  unfold forgetFakeDirectory.
  by destruct (Container.erase v (fakeDirectoryTracker p)).
Qed.

Lemma addDeletedFile_lookup (v r : string) (p : SharedParameters) :
  deletedFileTracker (addDeletedFile v r p) !! v =
  Some (default r (deletedFileTracker p !! v)).
Proof. unfold addDeletedFile. simpl. apply emplace_lookup_same. Qed.

Lemma addFakeDirectory_lookup (v r : string) (p : SharedParameters) :
  fakeDirectoryTracker (addFakeDirectory v r p) !! v =
  Some (default r (fakeDirectoryTracker p !! v)).
Proof. unfold addFakeDirectory. simpl. apply emplace_lookup_same. Qed.

Lemma wide_lookupDeletedFile_lookup `{Wide.StringCast} (v : Wide.wstring)
    (p : SharedParameters) :
  Wide.lookupDeletedFile v p
  = from_option (λ second, Wide.to_wstring Wide.default_CodePage (c_str second))
      [] (deletedFileTracker p !! Wide.shared_string v).
Proof.
  unfold Wide.lookupDeletedFile, Container.find.
  by destruct (deletedFileTracker p !! Wide.shared_string v).
Qed.

Lemma wide_lookupFakeDirectory_lookup `{Wide.StringCast} (v : Wide.wstring)
    (p : SharedParameters) :
  Wide.lookupFakeDirectory v p
  = from_option (λ second, Wide.to_wstring Wide.default_CodePage (c_str second))
      [] (fakeDirectoryTracker p !! Wide.shared_string v).
Proof.
  unfold Wide.lookupFakeDirectory, Container.find.
  by destruct (fakeDirectoryTracker p !! Wide.shared_string v).
Qed.

Lemma untracked_deleted `{Wide.StringCast} (v : Wide.wstring)
    (p : SharedParameters) :
  Wide.existsDeletedFile v p = false →
  deletedFileTracker p !! Wide.shared_string v = None.
Proof.
  unfold Wide.existsDeletedFile. rewrite existsDeletedFile_lookup.
  intros Hnew%bool_decide_eq_false. by apply eq_None_not_Some.
Qed.

Lemma untracked_fake `{Wide.StringCast} (v : Wide.wstring)
    (p : SharedParameters) :
  Wide.existsFakeDirectory v p = false →
  fakeDirectoryTracker p !! Wide.shared_string v = None.
Proof.
  unfold Wide.existsFakeDirectory. rewrite existsFakeDirectory_lookup.
  intros Hnew%bool_decide_eq_false. by apply eq_None_not_Some.
Qed.

(** C4, as the code has it. After [addDeletedFile v r] the path [v] is
    tracked; when [v] was not tracked before the call,
    [lookupDeletedFile v] returns what the conversion of [r] to UTF-8 at
    the addition and the conversion back at the lookup, which names no
    code page, make of it, and so [r] itself when the two conversions give
    [r] back; after [forgetDeletedFile v] the path is no longer tracked.
    The fake-directory tracker obeys the same laws.  This holds whatever
    [string_cast] does. *)
Theorem tracker_laws `{Wide.StringCast} (p : SharedParameters)
    (v r : Wide.wstring) :
  (Wide.existsDeletedFile v (Wide.addDeletedFile v r p) = true ∧
   (Wide.existsDeletedFile v p = false →
    Wide.lookupDeletedFile v (Wide.addDeletedFile v r p)
      = Wide.there_and_back r ∧
    (Wide.there_and_back r = r →
     Wide.lookupDeletedFile v (Wide.addDeletedFile v r p) = r)) ∧
   Wide.existsDeletedFile v (Wide.forgetDeletedFile v p).2 = false) ∧
  (Wide.existsFakeDirectory v (Wide.addFakeDirectory v r p) = true ∧
   (Wide.existsFakeDirectory v p = false →
    Wide.lookupFakeDirectory v (Wide.addFakeDirectory v r p)
      = Wide.there_and_back r ∧
    (Wide.there_and_back r = r →
     Wide.lookupFakeDirectory v (Wide.addFakeDirectory v r p) = r)) ∧
   Wide.existsFakeDirectory v (Wide.forgetFakeDirectory v p).2 = false).
Proof.
  split; split_and!.
  - unfold Wide.existsDeletedFile, Wide.addDeletedFile.
    by rewrite existsDeletedFile_lookup, addDeletedFile_lookup,
      bool_decide_eq_true_2.
  - intros Hnew%untracked_deleted.
    assert (Wide.lookupDeletedFile v (Wide.addDeletedFile v r p)
            = Wide.there_and_back r) as Hfound.
    { rewrite wide_lookupDeletedFile_lookup. unfold Wide.addDeletedFile.
      by rewrite addDeletedFile_lookup, Hnew. }
    split; [done|]. intros Hback. by rewrite Hfound.
  - unfold Wide.existsDeletedFile, Wide.forgetDeletedFile.
    rewrite existsDeletedFile_lookup, forgetDeletedFile_tracker.
    rewrite erase_lookup_same, bool_decide_eq_false_2; [done|]. by intros [? ?].
  - unfold Wide.existsFakeDirectory, Wide.addFakeDirectory.
    by rewrite existsFakeDirectory_lookup, addFakeDirectory_lookup,
      bool_decide_eq_true_2.
  - intros Hnew%untracked_fake.
    assert (Wide.lookupFakeDirectory v (Wide.addFakeDirectory v r p)
            = Wide.there_and_back r) as Hfound.
    { rewrite wide_lookupFakeDirectory_lookup. unfold Wide.addFakeDirectory.
      by rewrite addFakeDirectory_lookup, Hnew. }
    split; [done|]. intros Hback. by rewrite Hfound.
  - unfold Wide.existsFakeDirectory, Wide.forgetFakeDirectory.
    rewrite existsFakeDirectory_lookup, forgetFakeDirectory_tracker.
    rewrite erase_lookup_same, bool_decide_eq_false_2; [done|]. by intros [? ?].
Qed.

Lemma tracker_laws_witness :
  @Wide.lookupDeletedFile Wide.plain_cast (Wide.widen "\data\a.txt")
    (@Wide.addDeletedFile Wide.plain_cast (Wide.widen "\data\a.txt")
       (Wide.widen "C:\real\a.txt") sample_record)
    = Wide.widen "C:\real\a.txt" ∧
  @Wide.lookupFakeDirectory Wide.plain_cast (Wide.widen "\data\mods")
    (@Wide.addFakeDirectory Wide.plain_cast (Wide.widen "\data\mods")
       (Wide.widen "C:\real\mods") sample_record)
    = Wide.widen "C:\real\mods".
Proof.
  split.
  - apply (@tracker_laws Wide.plain_cast sample_record
             (Wide.widen "\data\a.txt") (Wide.widen "C:\real\a.txt")).
    + vm_compute. reflexivity.
    + vm_compute. reflexivity.
  - apply (@tracker_laws Wide.plain_cast sample_record
             (Wide.widen "\data\mods") (Wide.widen "C:\real\mods")).
    + vm_compute. reflexivity.
    + vm_compute. reflexivity.
Defined.

(** C4 as stated fails: adding a path that is already tracked keeps the
    real path stored first, so the lookup does not return the new one. *)
Lemma tracker_add_lookup_counterexample :
  existsDeletedFile "\data\a.txt" sample_tracked = true ∧
  lookupDeletedFile "\data\a.txt"
    (addDeletedFile "\data\a.txt" "C:\s2\a.txt" sample_tracked)
    = "C:\s1\a.txt" ∧
  lookupDeletedFile "\data\a.txt"
    (addDeletedFile "\data\a.txt" "C:\s2\a.txt" sample_tracked)
    ≠ "C:\s2\a.txt".
Proof. vm_compute. split_and!; [reflexivity|reflexivity|discriminate]. Qed.

(** C8. Adding a path that is already tracked changes nothing: the record
    is the same afterwards and the lookup still returns the real path
    stored first. This holds for both trackers. *)
Theorem tracker_add_keeps_existing (p : SharedParameters) (v r1 r2 : string) :
  (deletedFileTracker p !! v = Some r1 →
   addDeletedFile v r2 p = p ∧
   lookupDeletedFile v (addDeletedFile v r2 p) = r1) ∧
  (fakeDirectoryTracker p !! v = Some r1 →
   addFakeDirectory v r2 p = p ∧
   lookupFakeDirectory v (addFakeDirectory v r2 p) = r1).
Proof.
  split; intros Hold.
  - assert (addDeletedFile v r2 p = p) as ->.
    { unfold addDeletedFile. rewrite (emplace_present _ _ _ _ Hold). simpl.
      apply set_deletedFileTracker_id. }
    split; [done|]. by rewrite lookupDeletedFile_lookup, Hold.
  - assert (addFakeDirectory v r2 p = p) as ->.
    { unfold addFakeDirectory. rewrite (emplace_present _ _ _ _ Hold). simpl.
      apply set_fakeDirectoryTracker_id. }
    split; [done|]. by rewrite lookupFakeDirectory_lookup, Hold.
Qed.

Lemma tracker_add_keeps_existing_witness :
  (addDeletedFile "\data\a.txt" "C:\s2\a.txt" sample_tracked = sample_tracked ∧
   lookupDeletedFile "\data\a.txt"
     (addDeletedFile "\data\a.txt" "C:\s2\a.txt" sample_tracked)
     = "C:\s1\a.txt") ∧
  (addFakeDirectory "\data\mods" "C:\s2\mods" sample_tracked = sample_tracked ∧
   lookupFakeDirectory "\data\mods"
     (addFakeDirectory "\data\mods" "C:\s2\mods" sample_tracked)
     = "C:\s1\mods").
Proof.
  split.
  - apply (tracker_add_keeps_existing sample_tracked
             "\data\a.txt" "C:\s1\a.txt" "C:\s2\a.txt").
    reflexivity.
  - apply (tracker_add_keeps_existing sample_tracked
             "\data\mods" "C:\s1\mods" "C:\s2\mods").
    reflexivity.
Defined.

(** C9. Looking up a path that is not tracked returns the empty string,
    with no error; a path tracked with an empty real path gives the same
    answer, although [exists] tells the two apart. This holds for both
    trackers. *)
Theorem lookup_untracked_empty (p : SharedParameters) (v : string) :
  (deletedFileTracker p !! v = None →
   lookupDeletedFile v p = "" ∧
   existsDeletedFile v (addDeletedFile v "" p) = true ∧
   lookupDeletedFile v (addDeletedFile v "" p) = lookupDeletedFile v p) ∧
  (fakeDirectoryTracker p !! v = None →
   lookupFakeDirectory v p = "" ∧
   existsFakeDirectory v (addFakeDirectory v "" p) = true ∧
   lookupFakeDirectory v (addFakeDirectory v "" p) = lookupFakeDirectory v p).
Proof.
  split; intros Hnone.
  - rewrite existsDeletedFile_lookup, !lookupDeletedFile_lookup.
    by rewrite addDeletedFile_lookup, Hnone.
  - rewrite existsFakeDirectory_lookup, !lookupFakeDirectory_lookup.
    by rewrite addFakeDirectory_lookup, Hnone.
Qed.

Lemma lookup_untracked_empty_witness :
  lookupDeletedFile "\data\a.txt" sample_record = "" ∧
  lookupFakeDirectory "\data\mods" sample_record = "".
Proof.
  split.
  - apply (lookup_untracked_empty sample_record "\data\a.txt"). reflexivity.
  - apply (lookup_untracked_empty sample_record "\data\mods"). reflexivity.
Defined.

End trackers.

(** ** The process list *)

Section process_list.

Import Shared HookContext.

(** C10. [unregisterCurrentProcess] erases what [find] returned without
    comparing it with [end()]. When the current process is in the list the
    call is defined and removes that identifier and nothing else; when it
    is not, the call runs into the erasure of [end()], which is undefined.
    After [registerProcess] of the same identifier the first case
    applies. *)
Theorem unregisterCurrentProcess_unchecked (p : SharedParameters) (pid : DWORD) :
  (pid ∈ processList p →
   ∃ q, unregisterCurrentProcess pid p = Container.Done q ∧
        processList q = (processList p ∖ {[pid]}) ∧
        (pid ∉ processList q) ∧
        (∀ other, other ≠ pid →
           (other ∈ processList q ↔ other ∈ processList p)) ∧
        size (processList p) = S (size (processList q))) ∧
  (pid ∉ processList p →
   unregisterCurrentProcess pid p = Container.Undefined) ∧
  pid ∈ processList (registerProcess pid p).
Proof.
  unfold unregisterCurrentProcess, Container.set_find. split_and!.
  - intros Hin. rewrite decide_True by done. simpl.
    eexists. split; [done|]. simpl.
    split; [done|]. split.
    { intros [_ Hn]%elem_of_difference. by apply Hn, elem_of_singleton. }
    split.
    { intros other Hne. rewrite elem_of_difference, elem_of_singleton. tauto. }
    rewrite size_difference by set_solver. rewrite size_singleton.
    assert (size (processList p) ≠ 0); [|lia].
    intros Hz. apply size_empty_inv in Hz. set_solver.
  - intros Hout. by rewrite decide_False.
  - unfold registerProcess. simpl. set_solver.
Qed.

Lemma unregisterCurrentProcess_unchecked_witness :
  (∃ q, unregisterCurrentProcess 4242%Z
          (registerProcess 17%Z (registerProcess 4242%Z sample_record))
        = Container.Done q ∧ processList q = {[17%Z]}) ∧
  unregisterCurrentProcess 4242%Z (registerProcess 17%Z sample_record)
    = Container.Undefined.
Proof.
  split.
  - destruct (proj1 (unregisterCurrentProcess_unchecked
      (registerProcess 17%Z (registerProcess 4242%Z sample_record)) 4242%Z))
      as (q & Hq & Hlist & _).
    + vm_compute. reflexivity.
    + exists q. split; [exact Hq|]. rewrite Hlist. vm_compute. reflexivity.
  - apply (unregisterCurrentProcess_unchecked
             (registerProcess 17%Z sample_record) 4242%Z).
    vm_compute. intros H. discriminate H.
Defined.

End process_list.

(** ** Initialisation of the parameter record *)

Section init_parameters.

Lemma length_chars (s : string) : length (Str.chars s) = String.length s.
Proof. induction s as [|c s IH]; simpl; [done|]. by rewrite <- IH. Qed.

Lemma strncpy_s_TRUNCATE_truncated (size : nat) (src : string) :
  truncated_to size src (Crt.strncpy_s_TRUNCATE size src).
Proof.
  unfold truncated_to, Crt.strncpy_s_TRUNCATE.
  rewrite copy_truncate_take. split.
  - exists (Str.of_chars (drop (size - 1) (Str.chars src))).
    apply chars_inj. by rewrite chars_app, !chars_of_chars, take_drop.
  - rewrite <- !length_chars, chars_of_chars, length_take. lia.
Qed.

(** C6. [USVFSInitParametersInt] always produces a record: each of the
    four strings is copied as far as it fits in its array, which holds one
    character less than its size, and is cut there when it is longer; the
    three scalar settings are copied as they are. *)
Theorem USVFSInitParametersInt_truncates (sizes : BufferSizes)
    (instanceName currentSHMName currentInverseSHMName : string)
    (debugMode : bool) (logLevel : LogLevel) (crashDumpsType : CrashDumpsType)
    (crashDumpsPath : string) :
  let parameters :=
    USVFSInitParametersInt sizes instanceName currentSHMName
      currentInverseSHMName debugMode logLevel crashDumpsType crashDumpsPath in
  truncated_to (instanceName_size sizes) instanceName
               (Seed.instanceName parameters) ∧
  truncated_to (currentSHMName_size sizes) currentSHMName
               (Seed.currentSHMName parameters) ∧
  truncated_to (currentInverseSHMName_size sizes) currentInverseSHMName
               (Seed.currentInverseSHMName parameters) ∧
  truncated_to (crashDumpsPath_size sizes) crashDumpsPath
               (Seed.crashDumpsPath parameters) ∧
  Seed.debugMode parameters = debugMode ∧
  Seed.logLevel parameters = logLevel ∧
  Seed.crashDumpsType parameters = crashDumpsType.
Proof.
  simpl. split_and!; try done; apply strncpy_s_TRUNCATE_truncated.
Qed.

Example init_parameters_over_long :
  USVFSInitParametersInt sample_sizes "uvfs-instance" "tree" "inverse-tree"
    true LogDebug DumpsMini "C:\Users\someone\dumps"
  = {| Seed.instanceName := "uvfs-in";
       Seed.currentSHMName := "tree";
       Seed.currentInverseSHMName := "inverse";
       Seed.debugMode := true;
       Seed.logLevel := LogDebug;
       Seed.crashDumpsType := DumpsMini;
       Seed.crashDumpsPath := "C:\Users\someon" |}.
Proof. vm_compute. reflexivity. Qed.

End init_parameters.

(** ** Guarded access *)

Section access.

Import Access.

(** C5. [readAccess] and [writeAccess] wait on the mutex of the instance
    with a bound of 200 milliseconds and take no longer; they hand out a
    guard whatever the outcome of the wait; and when the wait has given up
    at the bound, the event is in the log afterwards.  The wait itself is
    the one the specification describes. *)
Theorem access_best_effort (p : Process) (instance : Context) :
  s_Instance p = Some instance →
  ((readAccess p).1 = Guard unlockShared ∧
   (writeAccess p).1 = Guard unlock) ∧
  ((clock (readAccess p).2 ≤ clock p + 200)%N ∧
   (clock (writeAccess p).2 ≤ clock p + 200)%N) ∧
  (acquired (wait 200 (m_Mutex instance)) = false →
   log (readAccess p).2 = log p ++ [LockTimeout 200] ∧
   log (writeAccess p).2 = log p ++ [LockTimeout 200]).
Proof.
  intros Hinst. unfold readAccess, writeAccess. rewrite Hinst. simpl.
  assert ((elapsed (wait 200 (m_Mutex instance)) ≤ 200)%N) as Hbound.
  { destruct (m_Mutex instance) as [|[after|]]; simpl; [lia| |lia].
    destruct (N.leb_spec after 200); simpl; lia. }
  split; [done|]. split; [lia|].
  destruct (m_Mutex instance) as [|[after|]]; simpl; [done| |done].
  by destruct (after <=? 200)%N.
Qed.

Lemma access_best_effort_witness :
  acquired (wait 200 (Taken None)) = false ∧
  ((readAccess contended).1 = Guard unlockShared ∧
   (writeAccess contended).1 = Guard unlock) ∧
  ((clock (readAccess contended).2 ≤ clock contended + 200)%N ∧
   (clock (writeAccess contended).2 ≤ clock contended + 200)%N) ∧
  log (readAccess contended).2 = [LockTimeout 200] ∧
  log (writeAccess contended).2 = [LockTimeout 200].
Proof.
  destruct (access_best_effort contended {| m_Mutex := Taken None |} eq_refl)
    as (Hguard & Hclock & Hlog).
  split; [reflexivity|]. split; [exact Hguard|]. split; [exact Hclock|].
  apply Hlog. reflexivity.
Defined.

(** a mutex that its holder signals in time is acquired, and nothing is
    logged *)
Example access_in_time :
  let p := {| s_Instance := Some {| m_Mutex := Taken (Some 150%N) |};
              log := []; clock := 0 |} in
  (readAccess p).1 = Guard unlockShared ∧
  log (readAccess p).2 = [] ∧ clock (readAccess p).2 = 150%N.
Proof. vm_compute. by split_and!. Qed.

End access.

(** ** Attaching and detaching *)

Section life_cycle.

Import Os Life.

Lemma record_store_same (id : segment_id) (p : Shared.SharedParameters)
    (m : SharedMemory) :
  record id (store id p m) = Some p.
Proof. unfold record, store. simpl. by rewrite lookup_insert_eq. Qed.

Lemma record_store_other (id id' : segment_id) (p : Shared.SharedParameters)
    (m : SharedMemory) :
  id ≠ id' → record id' (store id p m) = record id' m.
Proof. intros Hne. unfold record, store. simpl. by rewrite lookup_insert_ne. Qed.

(** what a successful construction does to the host *)
Lemma construct_returned (pid : DWORD) (params : Seed.USVFSParameters)
    (module : HMODULE) (w w' : World) (c : HookContext) :
  construct pid params module true w = (Returned c, w') →
  processes w !! pid = None ∧
  processes w' = <[pid := alive c]> (processes w) ∧
  ∃ parameters,
    memory w' =
      store (m_ConfigurationSHM c)
        (Shared.set_userCount (Shared.userCount parameters + 1) parameters)
        (open_or_create (Seed.instanceName params) (memory w)).2 ∧
    m_ConfigurationSHM c
      = (open_or_create (Seed.instanceName params) (memory w)).1 ∧
    parameters =
      default (Shared.construct params)
        (record (m_ConfigurationSHM c) (memory w)) ∧
    (record (m_ConfigurationSHM c) (memory w) = None →
     Shared.userCount parameters = 0%Z) ∧
    Shared.instanceName parameters =
      default (Seed.instanceName params)
        (Shared.instanceName <$> record (m_ConfigurationSHM c) (memory w)).
Proof.
  unfold construct.
  destruct (open_or_create (Seed.instanceName params) (memory w))
    as [shm m1] eqn:Hopen.
  destruct (retrieveParameters params shm m1) as [parameters m2] eqn:Hret.
  destruct (processes w !! pid) eqn:Hpid; [discriminate|].
  intros [= <- <-]. simpl. split; [done|]. split; [done|].
  exists parameters.
  assert (record shm m1 = record shm (memory w)) as Hrec.
  { unfold open_or_create in Hopen.
    destruct (names (memory w) !! Seed.instanceName params) eqn:Hn.
    - by injection Hopen as <- <-.
    - injection Hopen as <- <-. unfold record. simpl.
      rewrite lookup_insert_eq. simpl.
      pose proof (is_fresh (dom (segments (memory w)))) as Hfresh.
      apply not_elem_of_dom in Hfresh. by rewrite Hfresh. }
  unfold retrieveParameters in Hret. rewrite Hrec in Hret.
  destruct (record shm (memory w)) as [found|] eqn:Hfound.
  - injection Hret as <- <-. by split_and!.
  - injection Hret as <- <-. split_and!; try done.
    unfold store. simpl. by rewrite insert_insert_eq.
Qed.

Lemma holders_lookup_None (id : segment_id) (pid : DWORD)
    (procs : gmap DWORD instance) :
  procs !! pid = None → holders id procs !! pid = None.
Proof. intros H. apply map_lookup_filter_None. left. done. Qed.

Lemma holders_insert_same (id : segment_id) (pid : DWORD) (c : HookContext)
    (procs : gmap DWORD instance) :
  procs !! pid = None → m_ConfigurationSHM c = id →
  size (holders id (<[pid := alive c]> procs)) = S (size (holders id procs)).
Proof.
  intros Hnone Hid. unfold holders. rewrite map_filter_insert_True.
  - apply map_size_insert_None. by apply holders_lookup_None.
  - simpl. by apply bool_decide_eq_true_2.
Qed.

Lemma holders_insert_other (id : segment_id) (pid : DWORD) (c : HookContext)
    (procs : gmap DWORD instance) :
  procs !! pid = None → m_ConfigurationSHM c ≠ id →
  holders id (<[pid := alive c]> procs) = holders id procs.
Proof.
  intros Hnone Hid. unfold holders. apply map_filter_insert_not'.
  - simpl. by rewrite bool_decide_eq_false_2.
  - intros y Hy. congruence.
Qed.

Lemma holders_delete_same (id : segment_id) (pid : DWORD) (c : HookContext)
    (procs : gmap DWORD instance) :
  procs !! pid = Some (alive c) → m_ConfigurationSHM c = id →
  size (holders id procs) = S (size (holders id (delete pid procs))).
Proof.
  intros Hsome Hid. unfold holders. rewrite map_filter_delete.
  assert (filter (λ kv, holds id kv.2 = true) procs !! pid = Some (alive c))
    as Hin.
  { apply map_lookup_filter_Some. split; [done|]. simpl.
    by apply bool_decide_eq_true_2. }
  rewrite map_size_delete, Hin.
  assert (size (filter (λ kv, holds id kv.2 = true) procs) ≠ 0); [|lia].
  intros Hz. apply map_size_empty_inv in Hz. rewrite Hz in Hin.
  by rewrite lookup_empty in Hin.
Qed.

Lemma holders_delete_other (id : segment_id) (pid : DWORD) (c : HookContext)
    (procs : gmap DWORD instance) :
  procs !! pid = Some (alive c) → m_ConfigurationSHM c ≠ id →
  holders id (delete pid procs) = holders id procs.
Proof.
  intros Hsome Hid. unfold holders. apply map_filter_delete_not.
  intros y Hy. assert (y = alive c) as -> by congruence. simpl.
  by rewrite bool_decide_eq_false_2.
Qed.

Lemma holders_lookup_alive (pid : DWORD) (c : HookContext)
    (procs : gmap DWORD instance) :
  procs !! pid = Some (alive c) →
  holders (m_ConfigurationSHM c) procs !! pid = Some (alive c).
Proof.
  intros H. apply map_lookup_filter_Some. split; [done|]. simpl.
  by apply bool_decide_eq_true_2.
Qed.

Lemma idle_consistent (w : World) : idle w → consistent w.
Proof.
  intros (Hprocs & Hempty & Hinj). split_and!.
  - intros name id parameters Hname Hrec. apply Hempty in Hname.
    unfold record in Hrec. by rewrite Hname in Hrec.
  - intros pid i Hi. rewrite Hprocs in Hi. by rewrite lookup_empty in Hi.
  - intros name id Hname. apply Hempty in Hname. by apply elem_of_dom.
  - done.
Qed.

Lemma boot_idle : idle boot.
Proof.
  split_and!; [done| |]; simpl; intros *; by rewrite lookup_empty.
Qed.

Lemma with_trees_idle : idle with_trees.
Proof.
  assert (∀ name id,
            names (memory with_trees) !! name = Some id →
            (name = "uvfs-x-tree" ∧ id = 0) ∨ (name = "uvfs-x-inverse" ∧ id = 1))
    as Hcases.
  { intros name id H. cbn [with_trees memory names] in H.
    apply lookup_insert_Some in H as [[<- <-]|[Hne H]]; [by left|].
    apply lookup_singleton_Some in H as [<- <-]. by right. }
  split_and!; [done| |].
  - intros name id [[-> ->]|[-> ->]]%Hcases; vm_compute; reflexivity.
  - intros name name' id [[-> ->]|[-> ->]]%Hcases [[-> ?]|[-> ?]]%Hcases;
      done.
Qed.

Lemma consistent_sound (w : World) : consistent w → sound w.
Proof.
  intros (Hnames & Hprocs & Hdom & Hinj). split_and!; try done.
  intros pid i Hi. destruct (Hprocs pid i Hi) as (c & name & -> & _ & Hrec).
  by exists c.
Qed.

Lemma idle_sound (w : World) : idle w → sound w.
Proof. intros Hidle. by apply consistent_sound, idle_consistent. Qed.

(** nobody holds a segment without a record *)
Lemma holders_unrecorded_sound (w : World) (id : segment_id) :
  sound w → record id (memory w) = None →
  holders id (processes w) = ∅.
Proof.
  intros (_ & Hprocs & _) Hrec. apply map_empty. intros pid.
  apply map_lookup_filter_None. right. intros i Hi. simpl.
  destruct (Hprocs pid i Hi) as (c & -> & [parameters Hpar]).
  simpl. rewrite bool_decide_eq_false_2; [done|]. intros <-. congruence.
Qed.

Lemma holders_unrecorded (w : World) (id : segment_id) :
  consistent w → record id (memory w) = None →
  holders id (processes w) = ∅.
Proof. intros Hw. by apply holders_unrecorded_sound, consistent_sound. Qed.

(** a successful construction: the instance
    name is linked to the segment of the new context, which holds the
    record with one more user; the other names and records are as before *)
Lemma construct_effect_sound (pid : DWORD) (params : Seed.USVFSParameters)
    (module : HMODULE) (w w' : World) (c : HookContext) :
  sound w →
  construct pid params module true w = (Returned c, w') →
  processes w !! pid = None ∧
  processes w' = <[pid := alive c]> (processes w) ∧
  names (memory w') !! Seed.instanceName params = Some (m_ConfigurationSHM c) ∧
  (∀ name id, names (memory w') !! name = Some id →
     (name = Seed.instanceName params ∧ id = m_ConfigurationSHM c) ∨
     (id ≠ m_ConfigurationSHM c ∧ names (memory w) !! name = Some id)) ∧
  (∀ name id, names (memory w) !! name = Some id →
     names (memory w') !! name = Some id) ∧
  (∃ parameters,
     record (m_ConfigurationSHM c) (memory w') = Some parameters ∧
     Shared.instanceName parameters = Seed.instanceName params ∧
     Shared.userCount parameters =
       (Z.of_nat (size (holders (m_ConfigurationSHM c) (processes w))) + 1)%Z) ∧
  (∀ id, id ≠ m_ConfigurationSHM c →
     record id (memory w') = record id (memory w)) ∧
  dom (segments (memory w)) ⊆ dom (segments (memory w')) ∧
  m_ConfigurationSHM c ∈ dom (segments (memory w')).
Proof.
  intros Hw Hc. pose proof Hw as (Hnames & Hprocs & Hdom & Hinj).
  apply construct_returned in Hc
    as (Hnone & Hp' & parameters & Hm' & Hshm & Hpar & Hzero & Hinst).
  split; [done|]. split; [done|].
  set (stored :=
         Shared.set_userCount (Shared.userCount parameters + 1) parameters) in *.
  assert (record (m_ConfigurationSHM c) (memory w') = Some stored) as Hstored
    by (rewrite Hm'; apply record_store_same).
  assert (∀ id, id ≠ m_ConfigurationSHM c →
            record id (memory w')
            = record id (open_or_create (Seed.instanceName params) (memory w)).2)
    as Hother by (intros id Hne; rewrite Hm'; by apply record_store_other).
  assert (names (memory w')
          = names (open_or_create (Seed.instanceName params) (memory w)).2)
    as Hnm by by rewrite Hm'.
  assert (segments (memory w')
          = <[m_ConfigurationSHM c := Some stored]>
              (segments (open_or_create (Seed.instanceName params) (memory w)).2))
    as Hsg by by rewrite Hm'.
  clear Hm'. rewrite Hnm, Hsg, Hstored. clear Hnm Hsg.
  assert (Shared.instanceName stored = Shared.instanceName parameters) as Hsi
    by done.
  assert (Shared.userCount stored = (Shared.userCount parameters + 1)%Z) as Hsc
    by done.
  clearbody stored.
  unfold open_or_create in Hshm, Hother |- *.
  destruct (names (memory w) !! Seed.instanceName params) as [id|] eqn:Hname;
    simpl in Hshm, Hother |- *.
  - (* the segment exists *)
    subst id. split; [done|]. split.
    { intros name id Hn. destruct (decide (id = m_ConfigurationSHM c)) as [->|?].
      - left. split; [|done]. by eapply Hinj.
      - by right. }
    split; [done|]. split.
    { exists stored. split; [done|]. rewrite Hsi, Hsc.
      destruct (record (m_ConfigurationSHM c) (memory w)) as [found|] eqn:Hrec.
      - destruct (Hnames _ _ _ Hname Hrec) as (Hfound & Hcount & _).
        simpl in Hpar, Hinst. subst parameters. split; [done|]. lia.
      - split; [done|]. rewrite Hzero by done.
        by rewrite (holders_unrecorded_sound w), map_size_empty. }
    split; [done|].
    rewrite dom_insert_L. split; [apply union_subseteq_r|].
    apply elem_of_union_l. by apply elem_of_singleton.
  - (* the segment is created *)
    pose proof (is_fresh (dom (segments (memory w)))) as Hfresh.
    rewrite <- Hshm in *.
    assert (record (m_ConfigurationSHM c) (memory w) = None) as Hrec.
    { unfold record. apply not_elem_of_dom in Hfresh. by rewrite Hfresh. }
    split; [by rewrite lookup_insert_eq|]. split.
    { intros name id [[<- <-]|[Hne Hn]]%lookup_insert_Some; [by left|].
      right. split; [|done]. intros ->. by apply Hdom in Hn. }
    split.
    { intros name id Hn. rewrite lookup_insert_ne; [done|]. congruence. }
    split.
    { exists stored. split; [done|]. rewrite Hsi, Hsc.
      rewrite Hrec in Hinst. split; [done|]. rewrite Hzero by done.
      by rewrite (holders_unrecorded_sound w), map_size_empty. }
    split.
    { intros id Hne. rewrite Hother by done. unfold record. simpl.
      by rewrite lookup_insert_ne. }
    rewrite !dom_insert_L. split.
    + etrans; [|apply union_subseteq_r]. apply union_subseteq_r.
    + apply elem_of_union_l. by apply elem_of_singleton.
Qed.

Lemma construct_effect (pid : DWORD) (params : Seed.USVFSParameters)
    (module : HMODULE) (w w' : World) (c : HookContext) :
  consistent w →
  construct pid params module true w = (Returned c, w') →
  processes w !! pid = None ∧
  processes w' = <[pid := alive c]> (processes w) ∧
  names (memory w') !! Seed.instanceName params = Some (m_ConfigurationSHM c) ∧
  (∀ name id, names (memory w') !! name = Some id →
     (name = Seed.instanceName params ∧ id = m_ConfigurationSHM c) ∨
     (id ≠ m_ConfigurationSHM c ∧ names (memory w) !! name = Some id)) ∧
  (∀ name id, names (memory w) !! name = Some id →
     names (memory w') !! name = Some id) ∧
  (∃ parameters,
     record (m_ConfigurationSHM c) (memory w') = Some parameters ∧
     Shared.instanceName parameters = Seed.instanceName params ∧
     Shared.userCount parameters =
       (Z.of_nat (size (holders (m_ConfigurationSHM c) (processes w))) + 1)%Z) ∧
  (∀ id, id ≠ m_ConfigurationSHM c →
     record id (memory w') = record id (memory w)) ∧
  dom (segments (memory w)) ⊆ dom (segments (memory w')) ∧
  m_ConfigurationSHM c ∈ dom (segments (memory w')).
Proof. intros Hw. by apply construct_effect_sound, consistent_sound. Qed.

Lemma construct_consistent (pid : DWORD) (params : Seed.USVFSParameters)
    (module : HMODULE) (w w' : World) (c : HookContext) :
  consistent w →
  construct pid params module true w = (Returned c, w') →
  consistent w'.
Proof.
  intros Hw Hc. pose proof Hw as (Hnames & Hprocs & Hdom & Hinj).
  destruct (construct_effect _ _ _ _ _ _ Hw Hc)
    as (Hnone & Hp' & Hlink & Hnew & Hold & (stored & Hstored & Hsn & Hsc)
        & Hother & Hsub & Hin).
  split_and!.
  - intros name id parameters Hn Hrec. rewrite Hp'.
    destruct (Hnew _ _ Hn) as [[-> ->]|[Hne Hn0]].
    + assert (parameters = stored) as -> by congruence.
      split; [done|]. rewrite holders_insert_same by done. split; lia.
    + rewrite Hother in Hrec by done.
      rewrite holders_insert_other by congruence. by eapply Hnames.
  - intros pid' i Hi. rewrite Hp' in Hi.
    apply lookup_insert_Some in Hi as [[<- <-]|[Hne Hi]].
    + exists c, (Seed.instanceName params). by rewrite Hstored.
    + destruct (Hprocs _ _ Hi) as (c' & name' & -> & Hn' & Hrec').
      exists c', name'. split; [done|]. split; [by apply Hold|].
      destruct (decide (m_ConfigurationSHM c' = m_ConfigurationSHM c)) as [->|?].
      * by rewrite Hstored.
      * by rewrite Hother.
  - intros name id Hn. destruct (Hnew _ _ Hn) as [[-> ->]|[_ Hn0]]; [done|].
    apply Hsub. by eapply Hdom.
  - intros name name' id Hn Hn'.
    destruct (Hnew _ _ Hn) as [[-> ->]|[Hne Hn0]],
             (Hnew _ _ Hn') as [[-> Heq]|[Hne' Hn0']]; try done.
    by eapply Hinj.
Qed.

Lemma construct_recorded (pid : DWORD) (params : Seed.USVFSParameters)
    (module : HMODULE) (w w' : World) (c : HookContext)
    (instances : gset string) :
  consistent w → recorded instances w →
  construct pid params module true w = (Returned c, w') →
  recorded ({[Seed.instanceName params]} ∪ instances) w'.
Proof.
  intros Hw Hrec Hc.
  destruct (construct_effect _ _ _ _ _ _ Hw Hc)
    as (_ & _ & Hlink & Hnew & _ & (stored & Hstored & _) & Hother & _).
  intros name id Hin Hn.
  destruct (Hnew _ _ Hn) as [[-> ->]|[Hne Hn0]]; [by rewrite Hstored|].
  rewrite Hother by done. apply (Hrec name); [|done].
  apply elem_of_union in Hin as [->%elem_of_singleton|?]; [|done]. congruence.
Qed.

(** what a destruction does to the host *)
Lemma destroy_Some (pid : DWORD) (w w' : World) :
  destroy pid w = Some w' →
  ∃ c parameters,
    processes w !! pid = Some (alive c) ∧
    record (m_ConfigurationSHM c) (memory w) = Some parameters ∧
    processes w' = delete pid (processes w) ∧
    memory w' =
      (if (Shared.userCount parameters - 1 =? 0)%Z
       then remove (Shared.instanceName parameters)
       else λ m, m)
        (store (m_ConfigurationSHM c)
           (Shared.set_userCount (Shared.userCount parameters - 1) parameters)
           (memory w)).
Proof.
  unfold destroy. destruct (processes w !! pid) as [[c|c]|] eqn:Hpid; try done.
  destruct (record (m_ConfigurationSHM c) (memory w)) as [parameters|] eqn:Hrec;
    [|done].
  intros [= <-]. exists c, parameters. simpl.
  by destruct (Shared.userCount parameters - 1 =? 0)%Z.
Qed.

Lemma destroy_effect (pid : DWORD) (w w' : World) :
  destroy pid w = Some w' →
  ∃ c parameters,
    processes w !! pid = Some (alive c) ∧
    record (m_ConfigurationSHM c) (memory w) = Some parameters ∧
    processes w' = delete pid (processes w) ∧
    record (m_ConfigurationSHM c) (memory w')
      = Some (Shared.set_userCount (Shared.userCount parameters - 1) parameters) ∧
    (∀ id, id ≠ m_ConfigurationSHM c →
           record id (memory w') = record id (memory w)) ∧
    ((Shared.userCount parameters - 1 = 0)%Z →
     names (memory w') = delete (Shared.instanceName parameters) (names (memory w))) ∧
    ((Shared.userCount parameters - 1 ≠ 0)%Z →
     names (memory w') = names (memory w)) ∧
    dom (segments (memory w)) ⊆ dom (segments (memory w')).
Proof.
  intros Hd. apply destroy_Some in Hd as (c & parameters & Hpid & Hrec & Hp' & Hm').
  exists c, parameters. split; [done|]. split; [done|]. split; [done|].
  rewrite Hm'.
  destruct (Z.eqb_spec (Shared.userCount parameters - 1) 0) as [Hz|Hz].
  - split_and!; try done.
    + unfold remove, record. simpl. by rewrite lookup_insert_eq.
    + intros id Hne. unfold remove, record. simpl. by rewrite lookup_insert_ne.
    + simpl. rewrite dom_insert_L. set_solver.
  - split_and!; try done.
    + by rewrite record_store_same.
    + intros id Hne. by apply record_store_other.
    + simpl. rewrite dom_insert_L. set_solver.
Qed.

Lemma destroy_names (pid : DWORD) (w w' : World) (name : string)
    (id : segment_id) :
  destroy pid w = Some w' →
  names (memory w') !! name = Some id → names (memory w) !! name = Some id.
Proof.
  intros Hd Hn.
  destruct (destroy_effect _ _ _ Hd)
    as (c & parameters & _ & _ & _ & _ & _ & Hzero & Hmore & _).
  destruct (decide (Shared.userCount parameters - 1 = 0)%Z) as [Hz|Hz].
  - rewrite (Hzero Hz) in Hn. by apply lookup_delete_Some in Hn as [_ ?].
  - by rewrite (Hmore Hz) in Hn.
Qed.

Lemma destroy_consistent (pid : DWORD) (w w' : World) :
  consistent w → destroy pid w = Some w' → consistent w'.
Proof.
  intros Hw Hd. pose proof Hw as (Hnames & Hprocs & Hdom & Hinj).
  pose proof (λ name id, destroy_names pid w w' name id Hd) as Hsub.
  destruct (destroy_effect _ _ _ Hd)
    as (c & parameters & Hpid & Hrec & Hp' & Hstored & Hother & Hzero & Hmore
        & Hsegs).
  destruct (Hprocs _ _ Hpid) as (c0 & name & [= <-] & Hname & _).
  destruct (Hnames _ _ _ Hname Hrec) as (Hfound & Hcount & Hpos).
  pose proof (holders_delete_same _ _ _ _ Hpid eq_refl) as Hsize.
  split_and!.
  - intros name' id' parameters' Hn' Hrec'. rewrite Hp'.
    pose proof (Hsub _ _ Hn') as Hn0.
    destruct (decide (id' = m_ConfigurationSHM c)) as [->|Hne].
    + assert (name' = name) as -> by by eapply Hinj.
      rewrite Hstored in Hrec'. injection Hrec' as <-. simpl.
      split; [done|]. split; [lia|].
      destruct (decide (Shared.userCount parameters - 1 = 0)%Z) as [Hz|Hz];
        [|lia].
      rewrite (Hzero Hz), Hfound in Hn'. by rewrite lookup_delete_eq in Hn'.
    + rewrite Hother in Hrec' by done.
      rewrite (holders_delete_other _ _ _ _ Hpid) by done. by eapply Hnames.
  - intros pid' i Hi. rewrite Hp' in Hi.
    apply lookup_delete_Some in Hi as [Hne Hi].
    destruct (Hprocs _ _ Hi) as (c' & name' & -> & Hn' & Hrec').
    exists c', name'. split; [done|].
    destruct (decide (m_ConfigurationSHM c' = m_ConfigurationSHM c)) as [Heq|Hdiff].
    + (* another holder of the same segment: the count stays above zero *)
      assert (holders (m_ConfigurationSHM c) (delete pid (processes w)) !! pid'
              = Some (alive c')) as Hin.
      { rewrite <- Heq. apply holders_lookup_alive. by rewrite lookup_delete_ne. }
      assert (size (holders (m_ConfigurationSHM c) (delete pid (processes w))) ≠ 0)
        as Hmany.
      { intros Hz. apply map_size_empty_inv in Hz. rewrite Hz in Hin.
        by rewrite lookup_empty in Hin. }
      rewrite Hmore by lia. split; [done|]. rewrite Heq, Hstored. by eexists.
    + rewrite Hother by done. split; [|done].
      destruct (decide (Shared.userCount parameters - 1 = 0)%Z) as [Hz|Hz].
      * rewrite (Hzero Hz), lookup_delete_ne; [done|].
        rewrite Hfound. intros <-. congruence.
      * by rewrite (Hmore Hz).
  - intros name' id' Hn'. apply Hsegs. eapply Hdom. by apply Hsub.
  - intros name1 name2 id' Hn1 Hn2. eapply Hinj; by apply Hsub.
Qed.

Lemma destroy_recorded (pid : DWORD) (w w' : World) (instances : gset string) :
  recorded instances w → destroy pid w = Some w' → recorded instances w'.
Proof.
  intros Hrec Hd name id Hin Hn.
  pose proof (destroy_names _ _ _ _ _ Hd Hn) as Hn0.
  destruct (destroy_effect _ _ _ Hd)
    as (c & parameters & _ & _ & _ & Hstored & Hother & _).
  destruct (decide (id = m_ConfigurationSHM c)) as [->|Hne].
  - rewrite Hstored. by eexists.
  - rewrite Hother by done. by eapply Hrec.
Qed.

Lemma step_consistent (e : event) (w w' : World) :
  consistent w → step e w = Some w' → consistent w'.
Proof.
  intros Hw. destruct e as [pid params module|pid]; simpl.
  - destruct (construct pid params module true w) as [[c|e] w1] eqn:Hc;
      [|done].
    intros [= <-]. by eapply construct_consistent.
  - by apply destroy_consistent.
Qed.

Lemma step_size (e : event) (w w' : World) :
  step e w = Some w' →
  size (processes w') + (if is_detach e then 1 else 0)
  = size (processes w) + (if is_attach e then 1 else 0).
Proof.
  destruct e as [pid params module|pid]; simpl.
  - destruct (construct pid params module true w) as [[c|e] w1] eqn:Hc;
      [|done].
    intros [= <-]. apply construct_returned in Hc as (Hnone & -> & _).
    rewrite map_size_insert_None by done. lia.
  - intros Hd. apply destroy_Some in Hd as (c & parameters & Hpid & _ & -> & _).
    rewrite map_size_delete, Hpid.
    assert (size (processes w) ≠ 0); [|lia].
    intros Hz. apply map_size_empty_inv in Hz. rewrite Hz in Hpid.
    by rewrite lookup_empty in Hpid.
Qed.

Lemma run_consistent (trace : list event) (w w' : World) :
  consistent w → run trace w = Some w' → consistent w'.
Proof.
  revert w. induction trace as [|e rest IH]; intros w Hw; simpl.
  - by intros [= <-].
  - destruct (step e w) as [w1|] eqn:Hstep; [|done].
    apply IH. by eapply step_consistent.
Qed.

Lemma run_size (trace : list event) (w w' : World) :
  run trace w = Some w' →
  size (processes w') + detaches trace = size (processes w) + attaches trace.
Proof.
  unfold attaches, detaches.
  revert w. induction trace as [|e rest IH]; intros w; simpl.
  - intros [= <-]. lia.
  - destruct (step e w) as [w1|] eqn:Hstep; [|done].
    intros Hrun. apply IH in Hrun. apply step_size in Hstep.
    destruct e; simpl in *; lia.
Qed.

Lemma run_recorded (trace : list event) (w w' : World)
    (instances : gset string) :
  consistent w → recorded instances w → run trace w = Some w' →
  recorded (attach_names trace ∪ instances) w'.
Proof.
  revert w instances.
  induction trace as [|e rest IH]; intros w instances Hw Hrec; simpl.
  - intros [= <-]. by rewrite union_empty_l_L.
  - destruct (step e w) as [w1|] eqn:Hstep; [|done]. intros Hrun.
    pose proof (step_consistent _ _ _ Hw Hstep) as Hw1.
    destruct e as [pid params module|pid]; simpl in Hstep.
    + destruct (construct pid params module true w) as [[c|e] w2] eqn:Hc;
        [|done].
      injection Hstep as ->.
      pose proof (construct_recorded _ _ _ _ _ _ _ Hw Hrec Hc) as Hrec1.
      specialize (IH _ _ Hw1 Hrec1 Hrun).
      replace ({[Seed.instanceName params]} ∪ attach_names rest ∪ instances)
        with (attach_names rest ∪ ({[Seed.instanceName params]} ∪ instances));
        [done|].
      rewrite (union_comm_L {[Seed.instanceName params]} (attach_names rest)).
      by rewrite union_assoc_L.
    + apply (IH w1); [done| |done]. by eapply destroy_recorded.
Qed.

Lemma attach_names_elem (trace : list event) (pid : DWORD)
    (params : Seed.USVFSParameters) (module : HMODULE) :
  Attach pid params module ∈ trace →
  Seed.instanceName params ∈ attach_names trace.
Proof.
  induction trace as [|e rest IH]; [by intros ?%elem_of_nil|].
  intros [<-|Hin]%elem_of_cons; simpl.
  - apply elem_of_union_l. by apply elem_of_singleton.
  - destruct e; [apply elem_of_union_r|]; by apply IH.
Qed.

(** a process without context can attach *)
Lemma construct_succeeds (pid : DWORD) (params : Seed.USVFSParameters)
    (module : HMODULE) (w : World) :
  processes w !! pid = None →
  ∃ c w', construct pid params module true w = (Returned c, w').
Proof.
  intros Hnone. unfold construct.
  destruct (open_or_create (Seed.instanceName params) (memory w)) as [shm m1].
  destruct (retrieveParameters params shm m1) as [parameters m2].
  rewrite Hnone. by eexists _, _.
Qed.

(** on a consistent host a process with a context can detach *)
Lemma destroy_succeeds (pid : DWORD) (w : World) :
  consistent w → is_Some (processes w !! pid) → is_Some (destroy pid w).
Proof.
  intros (_ & Hprocs & _) [i Hi].
  destruct (Hprocs _ _ Hi) as (c & name & -> & _ & [parameters Hrec]).
  unfold destroy. rewrite Hi, Hrec. by eexists.
Qed.

Lemma run_progress (trace : list event) (w : World) :
  consistent w → feasible (dom (processes w)) trace = true →
  is_Some (run trace w).
Proof.
  revert w. induction trace as [|e rest IH]; intros w Hw Hf; simpl.
  - by eexists.
  - destruct e as [pid params module|pid]; simpl in Hf;
      apply andb_true_iff in Hf as [Hpid Hrest];
      apply bool_decide_eq_true in Hpid.
    + apply not_elem_of_dom in Hpid.
      destruct (construct_succeeds pid params module w Hpid) as (c & w1 & Hc).
      simpl. rewrite Hc. apply IH.
      * by eapply construct_consistent.
      * apply construct_returned in Hc as (_ & -> & _). by rewrite dom_insert_L.
    + apply elem_of_dom in Hpid.
      destruct (destroy_succeeds pid w Hw Hpid) as [w1 Hd].
      simpl. rewrite Hd. apply IH.
      * by eapply destroy_consistent.
      * apply destroy_Some in Hd as (c & parameters & _ & _ & -> & _).
        by rewrite dom_delete_L.
Qed.

(** on a consistent host without attached process no linked segment holds
    a record *)
Lemma consistent_nobody (w : World) (name : string) (id : segment_id) :
  consistent w → size (processes w) = 0 →
  names (memory w) !! name = Some id → record id (memory w) = None.
Proof.
  intros (Hnames & _) Hz Hname. apply map_size_empty_inv in Hz.
  destruct (record id (memory w)) as [parameters|] eqn:Hrec; [|done].
  destruct (Hnames _ _ _ Hname Hrec) as (_ & _ & Hpos).
  rewrite Hz in Hpos. unfold holders in Hpos.
  rewrite map_filter_empty, map_size_empty in Hpos. lia.
Qed.

Lemma construct_recorded_users (pid : DWORD) (params : Seed.USVFSParameters)
    (module : HMODULE) (w w' : World) (c : HookContext) :
  construct pid params module true w = (Returned c, w') →
  recorded_users (Seed.instanceName params) (memory w')
  = (recorded_users (Seed.instanceName params) (memory w) + 1)%Z.
Proof.
  intros Hc. apply construct_returned in Hc
    as (Hnone & Hp' & parameters & Hm' & Hshm & Hpar & Hzero & Hinst).
  unfold recorded_users. unfold open_or_create in Hm', Hshm.
  destruct (names (memory w) !! Seed.instanceName params) as [id|] eqn:Hname;
    simpl in Hm', Hshm.
  - rewrite Hm'. simpl. rewrite Hname, <- Hshm, record_store_same. simpl.
    destruct (record (m_ConfigurationSHM c) (memory w)) as [found|] eqn:Hrec.
    + simpl in Hpar. by subst.
    + by rewrite Hzero.
  - rewrite Hm'. simpl. rewrite Hshm, lookup_insert_eq, <- Hshm.
    rewrite record_store_same. simpl.
    rewrite Hzero; [done|]. rewrite Hshm. unfold record.
    pose proof (is_fresh (dom (segments (memory w)))) as Hfresh.
    apply not_elem_of_dom in Hfresh. by rewrite Hfresh.
Qed.

Lemma destroy_unlinks (pid : DWORD) (w w' : World) :
  destroy pid w = Some w' →
  ∃ c parameters,
    processes w !! pid = Some (alive c) ∧
    record (m_ConfigurationSHM c) (memory w) = Some parameters ∧
    processes w' !! pid = None ∧
    Shared.userCount <$> record (m_ConfigurationSHM c) (memory w')
      = Some (Shared.userCount parameters - 1)%Z ∧
    ((Shared.userCount parameters - 1 = 0)%Z →
     names (memory w') !! Shared.instanceName parameters = None) ∧
    (∀ name, name ≠ Shared.instanceName parameters →
             names (memory w') !! name = names (memory w) !! name).
Proof.
  intros Hd.
  destruct (destroy_effect _ _ _ Hd)
    as (c & parameters & Hpid & Hrec & Hp' & Hstored & _ & Hzero & Hmore & _).
  exists c, parameters. split; [done|]. split; [done|].
  split; [by rewrite Hp', lookup_delete_eq|].
  split; [by rewrite Hstored|]. split.
  - intros Hz. by rewrite (Hzero Hz), lookup_delete_eq.
  - intros name Hne.
    destruct (decide (Shared.userCount parameters - 1 = 0)%Z) as [Hz|Hz].
    + by rewrite (Hzero Hz), lookup_delete_ne.
    + by rewrite (Hmore Hz).
Qed.

Lemma balanced_unlinked (w0 : World) (trace : list event) :
  idle w0 → feasible ∅ trace = true → attaches trace = detaches trace →
  ∃ w, run trace w0 = Some w ∧ processes w = ∅ ∧
       ∀ pid params module, Attach pid params module ∈ trace →
         names (memory w) !! Seed.instanceName params = None.
Proof.
  intros Hidle Hf Hbalance. pose proof (idle_consistent _ Hidle) as Hw0.
  destruct Hidle as (Hprocs & _).
  destruct (run_progress trace w0 Hw0) as [w Hrun].
  { by rewrite Hprocs, dom_empty_L. }
  exists w. split; [done|].
  pose proof (run_consistent _ _ _ Hw0 Hrun) as Hw.
  pose proof (run_size _ _ _ Hrun) as Hsize.
  rewrite Hprocs, map_size_empty in Hsize.
  assert (size (processes w) = 0) as Hz by lia.
  split; [by apply map_size_empty_inv|].
  intros pid params module Hin.
  destruct (names (memory w) !! Seed.instanceName params) as [id|] eqn:Hname;
    [|done].
  exfalso.
  assert (recorded (attach_names trace ∪ ∅) w) as Hrec.
  { apply (run_recorded trace w0 w ∅ Hw0); [|done].
    intros ? ? []%elem_of_empty. }
  destruct (Hrec _ _ ltac:(apply elem_of_union_l; by eapply attach_names_elem)
              Hname) as [parameters Hpar].
  by rewrite (consistent_nobody w _ _ Hw Hz Hname) in Hpar.
Qed.

(** *** Detaches that take the trees down *)

Lemma construct_sound (pid : DWORD) (params : Seed.USVFSParameters)
    (module : HMODULE) (w w' : World) (c : HookContext) :
  sound w →
  construct pid params module true w = (Returned c, w') →
  sound w'.
Proof.
  intros Hw Hc. pose proof Hw as (Hnames & Hprocs & Hdom & Hinj).
  destruct (construct_effect_sound _ _ _ _ _ _ Hw Hc)
    as (Hnone & Hp' & Hlink & Hnew & Hold & (stored & Hstored & Hsn & Hsc)
        & Hother & Hsub & Hin).
  split_and!.
  - intros name id parameters Hn Hrec. rewrite Hp'.
    destruct (Hnew _ _ Hn) as [[-> ->]|[Hne Hn0]].
    + assert (parameters = stored) as -> by congruence.
      split; [done|]. rewrite holders_insert_same by done. split; lia.
    + rewrite Hother in Hrec by done.
      rewrite holders_insert_other by congruence. by eapply Hnames.
  - intros pid' i Hi. rewrite Hp' in Hi.
    apply lookup_insert_Some in Hi as [[<- <-]|[Hne Hi]].
    + exists c. by rewrite Hstored.
    + destruct (Hprocs _ _ Hi) as (c' & -> & Hrec').
      exists c'. split; [done|].
      destruct (decide (m_ConfigurationSHM c' = m_ConfigurationSHM c)) as [->|?].
      * by rewrite Hstored.
      * by rewrite Hother.
  - intros name id Hn. destruct (Hnew _ _ Hn) as [[-> ->]|[_ Hn0]]; [done|].
    apply Hsub. by eapply Hdom.
  - intros name name' id Hn Hn'.
    destruct (Hnew _ _ Hn) as [[-> ->]|[Hne Hn0]],
             (Hnew _ _ Hn') as [[-> Heq]|[Hne' Hn0']]; try done.
    by eapply Hinj.
Qed.

Lemma construct_recorded_sound (pid : DWORD) (params : Seed.USVFSParameters)
    (module : HMODULE) (w w' : World) (c : HookContext)
    (instances : gset string) :
  sound w → recorded instances w →
  construct pid params module true w = (Returned c, w') →
  recorded ({[Seed.instanceName params]} ∪ instances) w'.
Proof.
  intros Hw Hrec Hc.
  destruct (construct_effect_sound _ _ _ _ _ _ Hw Hc)
    as (_ & _ & Hlink & Hnew & _ & (stored & Hstored & _) & Hother & _).
  intros name id Hin Hn.
  destruct (Hnew _ _ Hn) as [[-> ->]|[Hne Hn0]]; [by rewrite Hstored|].
  rewrite Hother by done. apply (Hrec name); [|done].
  apply elem_of_union in Hin as [->%elem_of_singleton|?]; [|done]. congruence.
Qed.

Lemma destroy_sound (pid : DWORD) (w w' : World) :
  sound w → destroy pid w = Some w' → sound w'.
Proof.
  intros Hw Hd. pose proof Hw as (Hnames & Hprocs & Hdom & Hinj).
  pose proof (λ name id, destroy_names pid w w' name id Hd) as Hsub.
  destruct (destroy_effect _ _ _ Hd)
    as (c & parameters & Hpid & Hrec & Hp' & Hstored & Hother & Hzero & Hmore
        & Hsegs).
  pose proof (holders_delete_same _ _ _ _ Hpid eq_refl) as Hsize.
  split_and!.
  - intros name' id' parameters' Hn' Hrec'. rewrite Hp'.
    pose proof (Hsub _ _ Hn') as Hn0.
    destruct (decide (id' = m_ConfigurationSHM c)) as [->|Hne].
    + destruct (Hnames _ _ _ Hn0 Hrec) as (Hfound & Hcount & Hpos).
      rewrite Hstored in Hrec'. injection Hrec' as <-. simpl.
      split; [done|]. split; [lia|].
      destruct (decide (Shared.userCount parameters - 1 = 0)%Z) as [Hz|Hz];
        [|lia].
      rewrite (Hzero Hz), Hfound in Hn'. by rewrite lookup_delete_eq in Hn'.
    + rewrite Hother in Hrec' by done.
      rewrite (holders_delete_other _ _ _ _ Hpid) by done. by eapply Hnames.
  - intros pid' i Hi. rewrite Hp' in Hi.
    apply lookup_delete_Some in Hi as [Hne Hi].
    destruct (Hprocs _ _ Hi) as (c' & -> & Hrec').
    exists c'. split; [done|].
    destruct (decide (m_ConfigurationSHM c' = m_ConfigurationSHM c)) as [Heq|Hdiff].
    + rewrite Heq, Hstored. by eexists.
    + by rewrite Hother.
  - intros name' id' Hn'. apply Hsegs. eapply Hdom. by apply Hsub.
  - intros name1 name2 id' Hn1 Hn2. eapply Hinj; by apply Hsub.
Qed.

(** unlinking names does no harm *)
Lemma unlink_sound (w : World) (m : SharedMemory) :
  sound w →
  segments m = segments (memory w) →
  (∀ name id, names m !! name = Some id →
              names (memory w) !! name = Some id) →
  sound {| memory := m; processes := processes w |}.
Proof.
  intros (Hnames & Hprocs & Hdom & Hinj) Hsegs Hsub.
  assert (∀ id, record id m = record id (memory w)) as Hrec
    by (intros id; unfold record; by rewrite Hsegs).
  split_and!; simpl.
  - intros name id parameters Hn Hr. rewrite Hrec in Hr.
    apply (Hnames name); [by apply Hsub|done].
  - intros pid i Hi. destruct (Hprocs _ _ Hi) as (c & -> & Hr).
    exists c. by rewrite Hrec.
  - intros name id Hn. rewrite Hsegs. eapply Hdom. by apply Hsub.
  - intros name name' id Hn Hn'. eapply Hinj; by apply Hsub.
Qed.

(** what a detach does to the host *)
Lemma detach_Some (pid : DWORD) (w w' : World) :
  Teardown.detach pid w = Some w' →
  ∃ c parameters w1,
    processes w !! pid = Some (alive c) ∧
    record (m_ConfigurationSHM c) (memory w) = Some parameters ∧
    destroy pid w = Some w1 ∧
    processes w' = processes w1 ∧
    segments (memory w') = segments (memory w1) ∧
    names (memory w')
    = if (Shared.userCount parameters - 1 =? 0)%Z
      then delete (m_Tree c) (delete (m_InverseTree c) (names (memory w1)))
      else names (memory w1).
Proof.
  unfold Teardown.detach.
  destruct (processes w !! pid) as [[c|c]|] eqn:Hpid; try done.
  destruct (record (m_ConfigurationSHM c) (memory w)) as [parameters|] eqn:Hrec;
    [|done].
  destruct (destroy pid w) as [w1|] eqn:Hd; [|done].
  intros Hw'. exists c, parameters, w1. split_and!; try done;
    destruct (Shared.userCount parameters - 1 =? 0)%Z;
    by injection Hw' as <-.
Qed.

Lemma detach_names (pid : DWORD) (w w' : World) (name : string)
    (id : segment_id) :
  Teardown.detach pid w = Some w' →
  names (memory w') !! name = Some id → names (memory w) !! name = Some id.
Proof.
  intros (c & parameters & w1 & _ & _ & Hd & _ & _ & Hn)%detach_Some Hname.
  apply (destroy_names _ _ _ _ _ Hd). rewrite Hn in Hname.
  destruct (Shared.userCount parameters - 1 =? 0)%Z; [|done].
  apply lookup_delete_Some in Hname as [_ Hname].
  by apply lookup_delete_Some in Hname as [_ Hname].
Qed.

Lemma detach_record (pid : DWORD) (w w' w1 : World) (id : segment_id) :
  destroy pid w = Some w1 → segments (memory w') = segments (memory w1) →
  record id (memory w') = record id (memory w1).
Proof. intros _ Hsegs. unfold record. by rewrite Hsegs. Qed.

Lemma detach_sound (pid : DWORD) (w w' : World) :
  sound w → Teardown.detach pid w = Some w' → sound w'.
Proof.
  intros Hw Hdetach.
  destruct (detach_Some _ _ _ Hdetach)
    as (c & parameters & w1 & _ & _ & Hd & Hp' & Hsegs & Hn).
  pose proof (unlink_sound w1 (memory w') (destroy_sound _ _ _ Hw Hd) Hsegs)
    as Hsound.
  rewrite <- Hp' in Hsound. destruct w' as [m' procs']. apply Hsound.
  simpl in Hn |- *. intros name id. rewrite Hn.
  destruct (Shared.userCount parameters - 1 =? 0)%Z; [|done].
  intros [_ Hname]%lookup_delete_Some.
  by apply lookup_delete_Some in Hname as [_ Hname].
Qed.

Lemma detach_recorded (pid : DWORD) (w w' : World) (instances : gset string) :
  recorded instances w → Teardown.detach pid w = Some w' →
  recorded instances w'.
Proof.
  intros Hrec Hdetach.
  destruct (detach_Some _ _ _ Hdetach)
    as (c & parameters & w1 & _ & _ & Hd & Hp' & Hsegs & Hn).
  pose proof (destroy_recorded _ _ _ _ Hrec Hd) as Hrec1.
  intros name id Hin Hname.
  rewrite (detach_record pid w w' w1 id Hd Hsegs). apply (Hrec1 name); [done|].
  rewrite Hn in Hname.
  destruct (Shared.userCount parameters - 1 =? 0)%Z; [|done].
  apply lookup_delete_Some in Hname as [_ Hname].
  by apply lookup_delete_Some in Hname as [_ Hname].
Qed.

Lemma teardown_step_sound (e : event) (w w' : World) :
  sound w → Teardown.step e w = Some w' → sound w'.
Proof.
  intros Hw. destruct e as [pid params module|pid]; simpl.
  - destruct (construct pid params module true w) as [[c|e] w1] eqn:Hc;
      [|done].
    intros [= <-]. by eapply construct_sound.
  - by apply detach_sound.
Qed.

Lemma teardown_step_size (e : event) (w w' : World) :
  Teardown.step e w = Some w' →
  size (processes w') + (if is_detach e then 1 else 0)
  = size (processes w) + (if is_attach e then 1 else 0).
Proof.
  destruct e as [pid params module|pid]; simpl.
  - intros Hstep. by apply (step_size (Attach pid params module)).
  - intros (c & parameters & w1 & _ & _ & Hd & -> & _)%detach_Some.
    by apply (step_size (Detach pid)).
Qed.

Lemma teardown_run_sound (trace : list event) (w w' : World) :
  sound w → Teardown.run trace w = Some w' → sound w'.
Proof.
  revert w. induction trace as [|e rest IH]; intros w Hw; simpl.
  - by intros [= <-].
  - destruct (Teardown.step e w) as [w1|] eqn:Hstep; [|done].
    apply IH. by eapply teardown_step_sound.
Qed.

Lemma teardown_run_size (trace : list event) (w w' : World) :
  Teardown.run trace w = Some w' →
  size (processes w') + detaches trace = size (processes w) + attaches trace.
Proof.
  unfold attaches, detaches.
  revert w. induction trace as [|e rest IH]; intros w; simpl.
  - intros [= <-]. lia.
  - destruct (Teardown.step e w) as [w1|] eqn:Hstep; [|done].
    intros Hrun. apply IH in Hrun. apply teardown_step_size in Hstep.
    destruct e; simpl in *; lia.
Qed.

Lemma teardown_run_recorded (trace : list event) (w w' : World)
    (instances : gset string) :
  sound w → recorded instances w → Teardown.run trace w = Some w' →
  recorded (attach_names trace ∪ instances) w'.
Proof.
  revert w instances.
  induction trace as [|e rest IH]; intros w instances Hw Hrec; simpl.
  - intros [= <-]. by rewrite union_empty_l_L.
  - destruct (Teardown.step e w) as [w1|] eqn:Hstep; [|done]. intros Hrun.
    pose proof (teardown_step_sound _ _ _ Hw Hstep) as Hw1.
    destruct e as [pid params module|pid]; simpl in Hstep.
    + destruct (construct pid params module true w) as [[c|e] w2] eqn:Hc;
        [|done].
      injection Hstep as ->.
      pose proof (construct_recorded_sound _ _ _ _ _ _ _ Hw Hrec Hc) as Hrec1.
      specialize (IH _ _ Hw1 Hrec1 Hrun).
      replace ({[Seed.instanceName params]} ∪ attach_names rest ∪ instances)
        with (attach_names rest ∪ ({[Seed.instanceName params]} ∪ instances));
        [done|].
      rewrite (union_comm_L {[Seed.instanceName params]} (attach_names rest)).
      by rewrite union_assoc_L.
    + apply (IH w1); [done| |done]. by eapply detach_recorded.
Qed.

(** a process with a context can detach *)
Lemma detach_succeeds (pid : DWORD) (w : World) :
  sound w → is_Some (processes w !! pid) → is_Some (Teardown.detach pid w).
Proof.
  intros (_ & Hprocs & _) [i Hi].
  destruct (Hprocs _ _ Hi) as (c & -> & [parameters Hrec]).
  unfold Teardown.detach, destroy. rewrite Hi, Hrec.
  destruct (Shared.userCount parameters - 1 =? 0)%Z; by eexists.
Qed.

Lemma teardown_run_progress (trace : list event) (w : World) :
  sound w → feasible (dom (processes w)) trace = true →
  is_Some (Teardown.run trace w).
Proof.
  revert w. induction trace as [|e rest IH]; intros w Hw Hf; simpl.
  - by eexists.
  - destruct e as [pid params module|pid]; simpl in Hf;
      apply andb_true_iff in Hf as [Hpid Hrest];
      apply bool_decide_eq_true in Hpid.
    + apply not_elem_of_dom in Hpid.
      destruct (construct_succeeds pid params module w Hpid) as (c & w1 & Hc).
      simpl. rewrite Hc. apply IH.
      * by eapply construct_sound.
      * apply construct_returned in Hc as (_ & -> & _). by rewrite dom_insert_L.
    + apply elem_of_dom in Hpid.
      destruct (detach_succeeds pid w Hw Hpid) as [w1 Hd].
      simpl. rewrite Hd. apply IH.
      * by eapply detach_sound.
      * apply detach_Some in Hd
          as (c & parameters & w2 & _ & _ & Hd & -> & _).
        apply destroy_Some in Hd as (c' & parameters' & _ & _ & -> & _).
        by rewrite dom_delete_L.
Qed.

(** without attached process no linked segment holds a record *)
Lemma sound_nobody (w : World) (name : string) (id : segment_id) :
  sound w → size (processes w) = 0 →
  names (memory w) !! name = Some id → record id (memory w) = None.
Proof.
  intros (Hnames & _) Hz Hname. apply map_size_empty_inv in Hz.
  destruct (record id (memory w)) as [parameters|] eqn:Hrec; [|done].
  destruct (Hnames _ _ _ Hname Hrec) as (_ & _ & Hpos).
  rewrite Hz in Hpos. unfold holders in Hpos.
  rewrite map_filter_empty, map_size_empty in Hpos. lia.
Qed.

Lemma detach_unlinks (pid : DWORD) (w w' : World) :
  Teardown.detach pid w = Some w' →
  ∃ c parameters,
    processes w !! pid = Some (alive c) ∧
    record (m_ConfigurationSHM c) (memory w) = Some parameters ∧
    processes w' !! pid = None ∧
    Shared.userCount <$> record (m_ConfigurationSHM c) (memory w')
      = Some (Shared.userCount parameters - 1)%Z ∧
    ((Shared.userCount parameters - 1 = 0)%Z →
     names (memory w') !! Shared.instanceName parameters = None ∧
     names (memory w') !! m_Tree c = None ∧
     names (memory w') !! m_InverseTree c = None).
Proof.
  intros Hdetach.
  destruct (detach_Some _ _ _ Hdetach)
    as (c & parameters & w1 & Hpid & Hrec & Hd & Hp' & Hsegs & Hn).
  destruct (destroy_unlinks _ _ _ Hd)
    as (c' & parameters' & Hpid' & Hrec' & Hgone & Hcount & Hzero & _).
  assert (c' = c) as -> by congruence.
  assert (parameters' = parameters) as -> by congruence.
  exists c, parameters. split; [done|]. split; [done|].
  split; [by rewrite Hp'|]. split.
  { by rewrite (detach_record pid w w' w1 _ Hd Hsegs). }
  intros Hz. rewrite Hn. rewrite (proj2 (Z.eqb_eq _ _) Hz). split_and!.
  - destruct (decide (m_Tree c = Shared.instanceName parameters)) as [->|?];
      [by rewrite lookup_delete_eq|].
    rewrite lookup_delete_ne by done.
    destruct (decide (m_InverseTree c = Shared.instanceName parameters))
      as [->|?]; [by rewrite lookup_delete_eq|].
    rewrite lookup_delete_ne by done. by apply Hzero.
  - by rewrite lookup_delete_eq.
  - destruct (decide (m_Tree c = m_InverseTree c)) as [->|?];
      [by rewrite lookup_delete_eq|].
    rewrite lookup_delete_ne by done. by rewrite lookup_delete_eq.
Qed.

Lemma teardown_balanced (w0 : World) (trace : list event) :
  idle w0 → feasible ∅ trace = true → attaches trace = detaches trace →
  ∃ w, Teardown.run trace w0 = Some w ∧ processes w = ∅ ∧
       ∀ pid params module, Attach pid params module ∈ trace →
         names (memory w) !! Seed.instanceName params = None.
Proof.
  intros Hidle Hf Hbalance. pose proof (idle_sound _ Hidle) as Hw0.
  destruct Hidle as (Hprocs & _).
  destruct (teardown_run_progress trace w0 Hw0) as [w Hrun].
  { by rewrite Hprocs, dom_empty_L. }
  exists w. split; [done|].
  pose proof (teardown_run_sound _ _ _ Hw0 Hrun) as Hw.
  pose proof (teardown_run_size _ _ _ Hrun) as Hsize.
  rewrite Hprocs, map_size_empty in Hsize.
  assert (size (processes w) = 0) as Hz by lia.
  split; [by apply map_size_empty_inv|].
  intros pid params module Hin.
  destruct (names (memory w) !! Seed.instanceName params) as [id|] eqn:Hname;
    [|done].
  exfalso.
  assert (recorded (attach_names trace ∪ ∅) w) as Hrec.
  { apply (teardown_run_recorded trace w0 w ∅ Hw0); [|done].
    intros ? ? []%elem_of_empty. }
  destruct (Hrec _ _ ltac:(apply elem_of_union_l; by eapply attach_names_elem)
              Hname) as [parameters Hpar].
  by rewrite (sound_nobody w _ _ Hw Hz Hname) in Hpar.
Qed.

(** C2. An attach adds one to the [userCount] recorded for its instance
    and a detach subtracts one; after the detach that brings it to zero
    all three segments are unlinked, the configuration segment, named by
    [instanceName], by the body of the destructor and the segments of the
    two trees by the destructors of the tree containers, which are the
    ones the specification describes; so when processes attach and detach
    in any order on a host where nobody was attached and no linked segment
    held a record, and there have been as many detaches as attaches, all
    of them take place and the configuration segment of every instance
    attached to is unlinked. *)
Theorem attach_detach_balance :
  (∀ pid params module w w' c,
     construct pid params module true w = (Returned c, w') →
     recorded_users (Seed.instanceName params) (memory w')
     = (recorded_users (Seed.instanceName params) (memory w) + 1)%Z) ∧
  (∀ pid w w',
     Teardown.detach pid w = Some w' →
     ∃ c parameters,
       processes w !! pid = Some (alive c) ∧
       record (m_ConfigurationSHM c) (memory w) = Some parameters ∧
       processes w' !! pid = None ∧
       Shared.userCount <$> record (m_ConfigurationSHM c) (memory w')
         = Some (Shared.userCount parameters - 1)%Z ∧
       ((Shared.userCount parameters - 1 = 0)%Z →
        names (memory w') !! Shared.instanceName parameters = None ∧
        names (memory w') !! m_Tree c = None ∧
        names (memory w') !! m_InverseTree c = None)) ∧
  (∀ w0 trace,
     idle w0 →
     feasible ∅ trace = true →
     attaches trace = detaches trace →
     ∃ w, Teardown.run trace w0 = Some w ∧ processes w = ∅ ∧
          ∀ pid params module, Attach pid params module ∈ trace →
            names (memory w) !! Seed.instanceName params = None).
Proof.
  split_and!.
  - apply construct_recorded_users.
  - apply detach_unlinks.
  - apply teardown_balanced.
Qed.

Lemma attach_detach_balance_witness :
  ∃ w, Teardown.run sample_trace with_trees = Some w ∧ processes w = ∅ ∧
       ∀ pid params module, Attach pid params module ∈ sample_trace →
         names (memory w) !! Seed.instanceName params = None.
Proof.
  apply (proj2 (proj2 attach_detach_balance) with_trees sample_trace).
  - apply with_trees_idle.
  - vm_compute. reflexivity.
  - reflexivity.
Defined.

(** on a host where the two tree segments are linked, process 1 attaches,
    which makes it the only user, and detaches: no name is linked any
    more, while the body of the destructor alone unlinks the
    configuration segment only *)
Example detach_unlinks_trees :
  recorded_users "uvfs-x" (memory attached_once) = 1%Z ∧
  names ∘ memory <$> Teardown.run once with_trees = Some ∅ ∧
  names ∘ memory <$> run once with_trees
  = Some {[ "uvfs-x-tree" := 0; "uvfs-x-inverse" := 1 ]}.
Proof. vm_compute. by split_and!. Qed.

(** C3. When [s_Instance] of a process is not null, constructing another
    context in that process throws the "duplicate instantiation" error:
    no context is returned and [s_Instance] is what it was. *)
Theorem second_attach_fails (pid : DWORD) (params : Seed.USVFSParameters)
    (module : HMODULE) (tree_found : bool) (w : World) (i : instance) :
  processes w !! pid = Some i →
  (construct pid params module tree_found w).1
    = Thrown (runtime_error "singleton duplicate instantiation (HookContext)") ∧
  processes (construct pid params module tree_found w).2 = processes w.
Proof.
  intros Hi. unfold construct.
  destruct (open_or_create (Seed.instanceName params) (memory w)) as [shm m1].
  destruct (retrieveParameters params shm m1) as [parameters m2].
  by rewrite Hi.
Qed.

Lemma second_attach_fails_witness :
  (construct 1%Z sample_seed 0%Z true attached_once).1
    = Thrown (runtime_error "singleton duplicate instantiation (HookContext)") ∧
  processes (construct 1%Z sample_seed 0%Z true attached_once).2
    = processes attached_once.
Proof.
  eapply (second_attach_fails 1%Z sample_seed 0%Z true attached_once).
  vm_compute. reflexivity.
Defined.

End life_cycle.

(** * Further properties of the code *)

(** ** The blacklist under changes of case, additions and clearing *)

Section blacklist_more.

Import Shared HookContext.

Lemma match_here_upcase (input input' search : list ascii) :
  Chars.toupper <$> input = Chars.toupper <$> input' →
  Boost.match_here input search = Boost.match_here input' search.
Proof.
  revert input input'.
  induction search as [|p search IH]; intros [|c input] [|c' input'] Hup;
    simpl; try done; try discriminate.
  rewrite !fmap_cons in Hup. injection Hup as Hc Hrest.
  unfold Boost.is_iequal. rewrite Hc. by rewrite (IH _ _ Hrest).
Qed.

Lemma first_finder_upcase (search input input' : list ascii) (offset : nat) :
  Chars.toupper <$> input = Chars.toupper <$> input' →
  Boost.first_finder search input offset
  = Boost.first_finder search input' offset.
Proof.
  revert input' offset.
  induction input as [|c input IH]; intros [|c' input'] offset Hup;
    try done; try discriminate.
  cbn [Boost.first_finder]. destruct search as [|p srch]; [done|].
  rewrite (match_here_upcase _ (c' :: input')) by done.
  rewrite !fmap_cons in Hup. injection Hup as _ Hrest.
  by rewrite (IH _ _ Hrest).
Qed.

Lemma iends_with_upcase (Input Input' Test : string) :
  Str.iequal Input Input' →
  Boost.iends_with Input Test = Boost.iends_with Input' Test.
Proof.
  unfold Str.iequal, Str.upcase, Boost.iends_with. intros Hup.
  rewrite !ends_with_iter_match_here. apply match_here_upcase.
  by rewrite !fmap_reverse, Hup.
Qed.

Lemma icontains_upcase (Input Input' Test : string) :
  Str.iequal Input Input' →
  Boost.icontains Input Test = Boost.icontains Input' Test.
Proof.
  unfold Str.iequal, Str.upcase, Boost.icontains. intros Hup.
  destruct (Str.chars Test) as [|p test]; [done|].
  by rewrite (first_finder_upcase _ _ (Str.chars Input')).
Qed.

Lemma scan_blacklist_ext (hit hit' : string → bool) (items : list string)
    (b : BOOL) :
  (∀ item, hit item = hit' item) →
  scan_blacklist hit items b = scan_blacklist hit' items b.
Proof.
  intros Hext. induction items as [|item rest IH]; simpl; [done|].
  by rewrite Hext, IH.
Qed.

(** X1. The answer of [executableBlacklisted] does not depend on the case
    of the letters of the application name or of the command line. *)
Theorem executableBlacklisted_case (p : SharedParameters)
    (appName appName' commandLine commandLine' : option string) :
  same_up_to_case appName appName' →
  same_up_to_case commandLine commandLine' →
  executableBlacklisted appName commandLine p
  = executableBlacklisted appName' commandLine' p.
Proof.
  intros Ha Hc. unfold executableBlacklisted.
  destruct appName as [a|], appName' as [a'|]; try done;
    destruct commandLine as [c|], commandLine' as [c'|]; try done;
    simpl in Ha, Hc.
  - rewrite (scan_blacklist_ext _ (λ item, Boost.icontains c' item))
      by (intros item; by apply icontains_upcase).
    f_equal. apply scan_blacklist_ext. intros item. by apply iends_with_upcase.
  - apply scan_blacklist_ext. intros item. by apply iends_with_upcase.
  - apply scan_blacklist_ext. intros item. by apply icontains_upcase.
Qed.

Lemma executableBlacklisted_case_witness :
  executableBlacklisted (Some "C:\x\HELPER.tmp.exe") (Some "Helper /Q")
    (blacklistExecutable ".TMP.exe" sample_record)
  = executableBlacklisted (Some "c:\X\helper.TMP.EXE") (Some "helper /q")
    (blacklistExecutable ".TMP.exe" sample_record).
Proof.
  apply (executableBlacklisted_case
           (blacklistExecutable ".TMP.exe" sample_record)
           (Some "C:\x\HELPER.tmp.exe") (Some "c:\X\helper.TMP.EXE")
           (Some "Helper /Q") (Some "helper /q")).
  - vm_compute. reflexivity.
  - vm_compute. reflexivity.
Defined.

(** X2. Blacklisting one more name keeps every launch blacklisted that was
    blacklisted before, and blacklists every application whose name ends
    in the new entry and every command line that contains it, up to case;
    after [clearExecutableBlacklist] no launch is blacklisted. *)
Theorem blacklistExecutable_grows (p : SharedParameters) (name : string)
    (appName commandLine : option string) :
  (executableBlacklisted appName commandLine p = TRUE →
   executableBlacklisted appName commandLine (blacklistExecutable name p)
   = TRUE) ∧
  (∀ a, appName = Some a → Str.isuffix name a →
        executableBlacklisted appName commandLine (blacklistExecutable name p)
        = TRUE) ∧
  (∀ c, commandLine = Some c → Str.isubstring name c →
        executableBlacklisted appName commandLine (blacklistExecutable name p)
        = TRUE) ∧
  executableBlacklisted appName commandLine (clearExecutableBlacklist p)
  = FALSE.
Proof.
  split_and!.
  - rewrite !executableBlacklisted_TRUE. unfold blacklist_match. simpl.
    intros [(a & item & Ha & Hin & Hs)|(c & item & Hc & Hin & Hs)].
    + left. exists a, item. split_and!; [done| |done].
      by apply elem_of_union_r.
    + right. exists c, item. split_and!; [done| |done].
      by apply elem_of_union_r.
  - intros a Ha Hs. apply executableBlacklisted_TRUE. left.
    exists a, name. split_and!; [done| |done]. simpl.
    apply elem_of_union_l. by apply elem_of_singleton.
  - intros c Hc Hs. apply executableBlacklisted_TRUE. right.
    exists c, name. split_and!; [done| |done]. simpl.
    apply elem_of_union_l. by apply elem_of_singleton.
  - unfold executableBlacklisted, clearExecutableBlacklist. simpl.
    rewrite elements_empty. by destruct appName, commandLine.
Qed.

Lemma blacklistExecutable_grows_witness :
  executableBlacklisted (Some "C:\x\helper.TMP.EXE") None
    (blacklistExecutable "steam.exe"
       (blacklistExecutable ".tmp.exe" sample_record)) = TRUE ∧
  executableBlacklisted (Some "D:\Steam.EXE") None
    (blacklistExecutable "steam.exe" sample_record) = TRUE ∧
  executableBlacklisted None (Some "cmd /c STEAM.exe -silent")
    (blacklistExecutable "steam.exe" sample_record) = TRUE.
Proof.
  split_and!.
  - apply (blacklistExecutable_grows
             (blacklistExecutable ".tmp.exe" sample_record) "steam.exe"
             (Some "C:\x\helper.TMP.EXE") None).
    vm_compute. reflexivity.
  - apply (proj1 (proj2 (blacklistExecutable_grows sample_record "steam.exe"
             (Some "D:\Steam.EXE") None)) "D:\Steam.EXE" eq_refl).
    exists "D:\", "Steam.EXE". split; vm_compute; reflexivity.
  - apply (proj1 (proj2 (proj2 (blacklistExecutable_grows sample_record
             "steam.exe" None (Some "cmd /c STEAM.exe -silent"))))
             "cmd /c STEAM.exe -silent" eq_refl).
    exists "cmd /c ", "STEAM.exe", " -silent". split; vm_compute; reflexivity.
Defined.

(** X3. Once the empty name is on the blacklist every launch that has an
    application name or a command line is blacklisted; a launch with
    neither is never blacklisted. *)
Theorem blacklist_empty_name (p : SharedParameters)
    (appName commandLine : option string) :
  ("" ∈ processBlacklist p →
   is_Some appName ∨ is_Some commandLine →
   executableBlacklisted appName commandLine p = TRUE) ∧
  executableBlacklisted None None p = FALSE.
Proof.
  split; [|done]. intros Hin Hsome.
  apply executableBlacklisted_TRUE. unfold blacklist_match.
  destruct Hsome as [[a ->]|[c ->]].
  - left. exists a, "". split_and!; [done|done|].
    exists a, "". split; [|done]. apply chars_inj.
    rewrite chars_app. simpl. by rewrite app_nil_r.
  - right. exists c, "". split_and!; [done|done|].
    by exists "", "", c.
Qed.

Lemma blacklist_empty_name_witness :
  executableBlacklisted (Some "C:\Windows\notepad.exe") None
    (blacklistExecutable "" sample_record) = TRUE.
Proof.
  apply (blacklist_empty_name (blacklistExecutable "" sample_record)
           (Some "C:\Windows\notepad.exe") None).
  - apply (bool_decide_unpack _). vm_compute. exact I.
  - left. by eexists.
Defined.

End blacklist_more.

(** ** Forced libraries: registration order and case *)

Section libraries_more.

Import Shared HookContext.

(** X4. A pair registered with [forceLoadLibrary] comes first in the answer
    of [librariesToForceLoad] for a matching name, in front of what was
    returned before, also when the same pair was registered already; for a
    name that does not match the answer is what it was. After
    [clearLibraryForceLoads] the answer is empty. *)
Theorem forceLoadLibrary_prepends (p : SharedParameters) (name pn lp : string) :
  librariesToForceLoad name (forceLoadLibrary pn lp p)
  = (if decide (Str.iequal (c_str name) (c_str pn)) then [lp] else [])
    ++ librariesToForceLoad name p ∧
  librariesToForceLoad name (clearLibraryForceLoads p) = [].
Proof.
  unfold librariesToForceLoad. rewrite !collect_libraries_filter.
  split; [|done]. simpl. rewrite filter_cons. simpl.
  by destruct (decide (Str.iequal (c_str name) (c_str pn))).
Qed.

(** X5. [librariesToForceLoad] gives the same answer for two process names
    that are equal up to case. *)
Theorem librariesToForceLoad_case (p : SharedParameters) (name name' : string) :
  Str.iequal (c_str name) (c_str name') →
  librariesToForceLoad name p = librariesToForceLoad name' p.
Proof.
  intros Hname. unfold librariesToForceLoad.
  rewrite !collect_libraries_filter. do 2 f_equal.
  apply list_filter_iff. intros l. unfold Str.iequal in *. by rewrite Hname.
Qed.

Lemma librariesToForceLoad_case_witness :
  librariesToForceLoad "GAME.EXE" sample_libraries
  = librariesToForceLoad "game.exe" sample_libraries.
Proof.
  apply (librariesToForceLoad_case sample_libraries "GAME.EXE" "game.exe").
  vm_compute. reflexivity.
Defined.

End libraries_more.

(** ** The trackers: other paths, the other tracker, forgetting *)

Section trackers_more.

Import Shared HookContext.

Lemma emplace_lookup_other (k k' v : string) (m : gmap string string) :
  k ≠ k' → (Container.emplace k v m).1 !! k' = m !! k'.
Proof.
  intros Hne. unfold Container.emplace. destruct (m !! k); simpl; [done|].
  by rewrite lookup_insert_ne.
Qed.

Lemma erase_lookup_other (k k' : string) (m : gmap string string) :
  k ≠ k' → (Container.erase k m).1 !! k' = m !! k'.
Proof.
  intros Hne. unfold Container.erase. destruct (m !! k); simpl; [|done].
  by rewrite lookup_delete_ne.
Qed.

Lemma addDeletedFile_present (v r old : string) (p : SharedParameters) :
  deletedFileTracker p !! v = Some old → addDeletedFile v r p = p.
Proof.
  intros Hold. unfold addDeletedFile. rewrite (emplace_present _ _ _ _ Hold).
  apply set_deletedFileTracker_id.
Qed.

Lemma addFakeDirectory_present (v r old : string) (p : SharedParameters) :
  fakeDirectoryTracker p !! v = Some old → addFakeDirectory v r p = p.
Proof.
  intros Hold. unfold addFakeDirectory. rewrite (emplace_present _ _ _ _ Hold).
  apply set_fakeDirectoryTracker_id.
Qed.

(** X6. [forgetDeletedFile] returns whether the path was tracked, and when
    it was not the record is left as it is; the same for
    [forgetFakeDirectory]. *)
Theorem forget_reports (p : SharedParameters) (v : string) :
  ((forgetDeletedFile v p).1 = existsDeletedFile v p ∧
   (existsDeletedFile v p = false → (forgetDeletedFile v p).2 = p)) ∧
  ((forgetFakeDirectory v p).1 = existsFakeDirectory v p ∧
   (existsFakeDirectory v p = false → (forgetFakeDirectory v p).2 = p)).
Proof.
  split.
  - unfold forgetDeletedFile, existsDeletedFile, Container.erase,
      Container.find.
    destruct (deletedFileTracker p !! v); simpl; split; try done.
    intros _. apply set_deletedFileTracker_id.
  - unfold forgetFakeDirectory, existsFakeDirectory, Container.erase,
      Container.find.
    destruct (fakeDirectoryTracker p !! v); simpl; split; try done.
    intros _. apply set_fakeDirectoryTracker_id.
Qed.

Lemma forget_reports_witness :
  (forgetDeletedFile "\data\b.txt" sample_tracked).2 = sample_tracked ∧
  (forgetFakeDirectory "\data\b" sample_tracked).2 = sample_tracked.
Proof.
  split.
  - apply (forget_reports sample_tracked "\data\b.txt"). reflexivity.
  - apply (forget_reports sample_tracked "\data\b"). reflexivity.
Defined.

(** X7. Adding or forgetting one path changes neither [exists] nor
    [lookup] of any other path, in both trackers. *)
Theorem tracker_other_paths (p : SharedParameters) (v v' r : string) :
  v ≠ v' →
  (existsDeletedFile v' (addDeletedFile v r p) = existsDeletedFile v' p ∧
   lookupDeletedFile v' (addDeletedFile v r p) = lookupDeletedFile v' p ∧
   existsDeletedFile v' (forgetDeletedFile v p).2 = existsDeletedFile v' p ∧
   lookupDeletedFile v' (forgetDeletedFile v p).2 = lookupDeletedFile v' p) ∧
  (existsFakeDirectory v' (addFakeDirectory v r p) = existsFakeDirectory v' p ∧
   lookupFakeDirectory v' (addFakeDirectory v r p) = lookupFakeDirectory v' p ∧
   existsFakeDirectory v' (forgetFakeDirectory v p).2
     = existsFakeDirectory v' p ∧
   lookupFakeDirectory v' (forgetFakeDirectory v p).2
     = lookupFakeDirectory v' p).
Proof.
  intros Hne.
  assert (deletedFileTracker (addDeletedFile v r p) !! v'
          = deletedFileTracker p !! v') as Hadd
    by (unfold addDeletedFile; simpl; by apply emplace_lookup_other).
  assert (fakeDirectoryTracker (addFakeDirectory v r p) !! v'
          = fakeDirectoryTracker p !! v') as Hadd'
    by (unfold addFakeDirectory; simpl; by apply emplace_lookup_other).
  assert (deletedFileTracker (forgetDeletedFile v p).2 !! v'
          = deletedFileTracker p !! v') as Hforget
    by (rewrite forgetDeletedFile_tracker; by apply erase_lookup_other).
  assert (fakeDirectoryTracker (forgetFakeDirectory v p).2 !! v'
          = fakeDirectoryTracker p !! v') as Hforget'
    by (rewrite forgetFakeDirectory_tracker; by apply erase_lookup_other).
  rewrite !existsDeletedFile_lookup, !lookupDeletedFile_lookup.
  rewrite !existsFakeDirectory_lookup, !lookupFakeDirectory_lookup.
  by rewrite Hadd, Hadd', Hforget, Hforget'.
Qed.

Lemma tracker_other_paths_witness :
  lookupDeletedFile "\data\a.txt"
    (addDeletedFile "\data\b.txt" "C:\s2\b.txt" sample_tracked)
  = lookupDeletedFile "\data\a.txt" sample_tracked.
Proof.
  apply (tracker_other_paths sample_tracked "\data\b.txt" "\data\a.txt"
           "C:\s2\b.txt").
  discriminate.
Defined.

(** X8. The two trackers do not interfere: adding or forgetting a deleted
    file changes no answer of the fake-directory tracker, and the other
    way round, also for the same path. *)
Theorem trackers_independent (p : SharedParameters) (v v' r : string) :
  (existsFakeDirectory v' (addDeletedFile v r p) = existsFakeDirectory v' p ∧
   lookupFakeDirectory v' (addDeletedFile v r p) = lookupFakeDirectory v' p ∧
   existsFakeDirectory v' (forgetDeletedFile v p).2
     = existsFakeDirectory v' p ∧
   lookupFakeDirectory v' (forgetDeletedFile v p).2
     = lookupFakeDirectory v' p) ∧
  (existsDeletedFile v' (addFakeDirectory v r p) = existsDeletedFile v' p ∧
   lookupDeletedFile v' (addFakeDirectory v r p) = lookupDeletedFile v' p ∧
   existsDeletedFile v' (forgetFakeDirectory v p).2
     = existsDeletedFile v' p ∧
   lookupDeletedFile v' (forgetFakeDirectory v p).2
     = lookupDeletedFile v' p).
Proof.
  unfold forgetDeletedFile, forgetFakeDirectory.
  destruct (Container.erase v (deletedFileTracker p)) as [t1 n1].
  destruct (Container.erase v (fakeDirectoryTracker p)) as [t2 n2].
  by split_and!.
Qed.

(** X9. Forgetting a path and adding it again stores the new real path,
    whatever was tracked before: afterwards the path is tracked and the
    lookup returns what the conversion to UTF-8 at the addition and the
    conversion back at the lookup make of the new real path. This holds
    for both trackers, whatever [string_cast] does. *)
Theorem forget_then_add_replaces `{Wide.StringCast} (p : SharedParameters)
    (v r : Wide.wstring) :
  (Wide.existsDeletedFile v
     (Wide.addDeletedFile v r (Wide.forgetDeletedFile v p).2) = true ∧
   Wide.lookupDeletedFile v
     (Wide.addDeletedFile v r (Wide.forgetDeletedFile v p).2)
   = Wide.there_and_back r) ∧
  (Wide.existsFakeDirectory v
     (Wide.addFakeDirectory v r (Wide.forgetFakeDirectory v p).2) = true ∧
   Wide.lookupFakeDirectory v
     (Wide.addFakeDirectory v r (Wide.forgetFakeDirectory v p).2)
   = Wide.there_and_back r).
Proof.
  rewrite wide_lookupDeletedFile_lookup, wide_lookupFakeDirectory_lookup.
  unfold Wide.existsDeletedFile, Wide.addDeletedFile, Wide.forgetDeletedFile.
  unfold Wide.existsFakeDirectory, Wide.addFakeDirectory,
    Wide.forgetFakeDirectory.
  rewrite existsDeletedFile_lookup, existsFakeDirectory_lookup.
  rewrite addDeletedFile_lookup, addFakeDirectory_lookup.
  rewrite forgetDeletedFile_tracker, forgetFakeDirectory_tracker.
  by rewrite !erase_lookup_same.
Qed.

(** X10. Of two additions of the same path the first one counts: the
    second leaves the record as the first left it, in both trackers. *)
Theorem add_first_wins (p : SharedParameters) (v r1 r2 : string) :
  addDeletedFile v r2 (addDeletedFile v r1 p) = addDeletedFile v r1 p ∧
  addFakeDirectory v r2 (addFakeDirectory v r1 p) = addFakeDirectory v r1 p.
Proof.
  split.
  - eapply addDeletedFile_present, addDeletedFile_lookup.
  - eapply addFakeDirectory_present, addFakeDirectory_lookup.
Qed.

(** X11. Adding a path that is not tracked and forgetting it again gives
    back the record as it was, and the forgetting reports that the path
    was tracked; in both trackers. *)
Theorem add_then_forget_restores (p : SharedParameters) (v r : string) :
  (existsDeletedFile v p = false →
   forgetDeletedFile v (addDeletedFile v r p) = (true, p)) ∧
  (existsFakeDirectory v p = false →
   forgetFakeDirectory v (addFakeDirectory v r p) = (true, p)).
Proof.
  split.
  - rewrite existsDeletedFile_lookup. intros Hnew.
    apply bool_decide_eq_false in Hnew.
    assert (deletedFileTracker p !! v = None) as Hnone.
    { destruct (deletedFileTracker p !! v); [|done]. destruct Hnew. by eexists. }
    unfold forgetDeletedFile, addDeletedFile, Container.emplace,
      Container.erase.
    rewrite Hnone. simpl. rewrite lookup_insert_eq, delete_insert_eq.
    rewrite delete_id by done. f_equal. by destruct p.
  - rewrite existsFakeDirectory_lookup. intros Hnew.
    apply bool_decide_eq_false in Hnew.
    assert (fakeDirectoryTracker p !! v = None) as Hnone.
    { destruct (fakeDirectoryTracker p !! v); [|done]. destruct Hnew. by eexists. }
    unfold forgetFakeDirectory, addFakeDirectory, Container.emplace,
      Container.erase.
    rewrite Hnone. simpl. rewrite lookup_insert_eq, delete_insert_eq.
    rewrite delete_id by done. f_equal. by destruct p.
Qed.

Lemma add_then_forget_restores_witness :
  forgetDeletedFile "\data\b.txt"
    (addDeletedFile "\data\b.txt" "C:\s1\b.txt" sample_tracked)
  = (true, sample_tracked) ∧
  forgetFakeDirectory "\data\b"
    (addFakeDirectory "\data\b" "C:\s1\b" sample_tracked)
  = (true, sample_tracked).
Proof.
  split.
  - apply (add_then_forget_restores sample_tracked "\data\b.txt" "C:\s1\b.txt").
    reflexivity.
  - apply (add_then_forget_restores sample_tracked "\data\b" "C:\s1\b").
    reflexivity.
Defined.

End trackers_more.

(** ** The process list: registering and unregistering *)

Section process_list_more.

Import Shared HookContext.

Lemma set_processList_id (p : SharedParameters) :
  set_processList (processList p) p = p.
Proof. by destruct p. Qed.

(** X12. Registering a process twice is the same as registering it once,
    the order of two registrations does not matter, and
    [registeredProcesses] lists every registered identifier once. *)
Theorem registerProcess_set (p : SharedParameters) (a b : DWORD) :
  registerProcess a (registerProcess a p) = registerProcess a p ∧
  registerProcess a (registerProcess b p)
  = registerProcess b (registerProcess a p) ∧
  NoDup (registeredProcesses (registerProcess a p)) ∧
  (∀ x, x ∈ registeredProcesses (registerProcess a p) ↔
        x = a ∨ x ∈ registeredProcesses p).
Proof.
  unfold registerProcess, registeredProcesses, set_processList. simpl.
  split_and!.
  - f_equal. by rewrite (assoc_L (∪)), union_idemp_L.
  - f_equal. rewrite !(assoc_L (∪)). f_equal. apply (comm_L (∪)).
  - apply NoDup_elements.
  - intros x. rewrite !elem_of_elements, elem_of_union, elem_of_singleton.
    done.
Qed.

(** X13. Unregistering a process that has just been registered, and was
    not registered before, gives back the record as it was. *)
Theorem register_then_unregister (p : SharedParameters) (pid : DWORD) :
  pid ∉ processList p →
  unregisterCurrentProcess pid (registerProcess pid p) = Container.Done p.
Proof.
  intros Hout. unfold unregisterCurrentProcess, Container.set_find.
  unfold registerProcess. simpl.
  rewrite decide_True
    by (apply elem_of_union_l; by apply elem_of_singleton).
  simpl. f_equal.
  assert (({[pid]} ∪ processList p) ∖ {[pid]} = processList p) as ->.
  { rewrite difference_union_distr_l_L, difference_diag_L, union_empty_l_L.
    apply difference_disjoint_L. by apply disjoint_singleton_r. }
  by destruct p.
Qed.

Lemma register_then_unregister_witness :
  unregisterCurrentProcess 4242%Z (registerProcess 4242%Z sample_record)
  = Container.Done sample_record.
Proof.
  apply (register_then_unregister sample_record 4242%Z).
  vm_compute. intros H. discriminate H.
Defined.

(** X14. After [unregisterCurrentProcess] has removed the current process,
    a second call by the same process erases [end()]: it is undefined. *)
Theorem unregister_twice_undefined (p q : SharedParameters) (pid : DWORD) :
  unregisterCurrentProcess pid p = Container.Done q →
  unregisterCurrentProcess pid q = Container.Undefined.
Proof.
  unfold unregisterCurrentProcess, Container.set_find.
  destruct (decide (pid ∈ processList p)) as [Hin|Hout]; [|done]. simpl.
  intros [= <-]. simpl. rewrite decide_False; [done|].
  intros [_ Hn]%elem_of_difference. by apply Hn, elem_of_singleton.
Qed.

Lemma unregister_twice_undefined_witness :
  unregisterCurrentProcess 4242%Z sample_record = Container.Undefined.
Proof.
  apply (unregister_twice_undefined
           (registerProcess 4242%Z sample_record) sample_record 4242%Z).
  vm_compute. reflexivity.
Defined.

End process_list_more.

(** ** Initialisation: strings that fit, and initialising again *)

Section init_more.

Lemma strncpy_s_TRUNCATE_fits (size : nat) (src : string) :
  String.length src < size → Crt.strncpy_s_TRUNCATE size src = src.
Proof.
  intros Hfit. unfold Crt.strncpy_s_TRUNCATE.
  rewrite copy_truncate_take, take_ge by (rewrite length_chars; lia).
  apply of_chars_chars.
Qed.

Lemma strncpy_s_TRUNCATE_again (size : nat) (src : string) :
  Crt.strncpy_s_TRUNCATE size (Crt.strncpy_s_TRUNCATE size src)
  = Crt.strncpy_s_TRUNCATE size src.
Proof.
  unfold Crt.strncpy_s_TRUNCATE.
  rewrite chars_of_chars, (copy_truncate_take _ (Str.chars src)).
  by rewrite copy_truncate_take, take_idemp.
Qed.

(** X15. When each of the four strings, with its terminator, fits in its
    array, [USVFSInitParametersInt] stores all of them whole: the record
    holds exactly the arguments. *)
Theorem USVFSInitParametersInt_fits (sizes : BufferSizes)
    (instanceName currentSHMName currentInverseSHMName : string)
    (debugMode : bool) (logLevel : LogLevel) (crashDumpsType : CrashDumpsType)
    (crashDumpsPath : string) :
  String.length instanceName < instanceName_size sizes →
  String.length currentSHMName < currentSHMName_size sizes →
  String.length currentInverseSHMName < currentInverseSHMName_size sizes →
  String.length crashDumpsPath < crashDumpsPath_size sizes →
  USVFSInitParametersInt sizes instanceName currentSHMName
    currentInverseSHMName debugMode logLevel crashDumpsType crashDumpsPath
  = {| Seed.instanceName := instanceName;
       Seed.currentSHMName := currentSHMName;
       Seed.currentInverseSHMName := currentInverseSHMName;
       Seed.debugMode := debugMode;
       Seed.logLevel := logLevel;
       Seed.crashDumpsType := crashDumpsType;
       Seed.crashDumpsPath := crashDumpsPath |}.
Proof.
  intros H1 H2 H3 H4. unfold USVFSInitParametersInt.
  by rewrite !strncpy_s_TRUNCATE_fits.
Qed.

Lemma USVFSInitParametersInt_fits_witness :
  USVFSInitParametersInt sample_sizes "uvfs-x" "tree" "inverse"
    true LogDebug DumpsMini "C:\dumps"
  = {| Seed.instanceName := "uvfs-x";
       Seed.currentSHMName := "tree";
       Seed.currentInverseSHMName := "inverse";
       Seed.debugMode := true;
       Seed.logLevel := LogDebug;
       Seed.crashDumpsType := DumpsMini;
       Seed.crashDumpsPath := "C:\dumps" |}.
Proof.
  apply (USVFSInitParametersInt_fits sample_sizes "uvfs-x" "tree" "inverse"
           true LogDebug DumpsMini "C:\dumps"); vm_compute; lia.
Defined.

(** X16. Initialising a record from the strings of a record that was
    initialised with the same array sizes changes nothing: what has been
    cut once is not cut again. *)
Theorem USVFSInitParametersInt_again (sizes : BufferSizes)
    (instanceName currentSHMName currentInverseSHMName : string)
    (debugMode : bool) (logLevel : LogLevel) (crashDumpsType : CrashDumpsType)
    (crashDumpsPath : string) :
  let parameters :=
    USVFSInitParametersInt sizes instanceName currentSHMName
      currentInverseSHMName debugMode logLevel crashDumpsType crashDumpsPath in
  USVFSInitParametersInt sizes
    (Seed.instanceName parameters) (Seed.currentSHMName parameters)
    (Seed.currentInverseSHMName parameters) (Seed.debugMode parameters)
    (Seed.logLevel parameters) (Seed.crashDumpsType parameters)
    (Seed.crashDumpsPath parameters)
  = parameters.
Proof.
  simpl. unfold USVFSInitParametersInt.
  by rewrite !strncpy_s_TRUNCATE_again.
Qed.

End init_more.

(** ** Attaching: existing records, failures and removal *)

Section life_more.

Import Os Life.

Lemma construct_existing (pid : DWORD) (params : Seed.USVFSParameters)
    (module : HMODULE) (w : World) (id : segment_id)
    (found : Shared.SharedParameters) :
  processes w !! pid = None →
  names (memory w) !! Seed.instanceName params = Some id →
  record id (memory w) = Some found →
  construct pid params module true w =
    (Returned {| m_ConfigurationSHM := id;
                 m_Tree := Shared.currentSHMName found;
                 m_InverseTree := Shared.currentInverseSHMName found;
                 m_DebugMode := Seed.debugMode params;
                 m_DLLModule := module |},
     {| memory :=
          store id (Shared.set_userCount (Shared.userCount found + 1) found)
                (memory w);
        processes :=
          <[pid := alive {| m_ConfigurationSHM := id;
                            m_Tree := Shared.currentSHMName found;
                            m_InverseTree := Shared.currentInverseSHMName found;
                            m_DebugMode := Seed.debugMode params;
                            m_DLLModule := module |}]> (processes w) |}).
Proof.
  intros Hnone Hname Hrec. unfold construct, open_or_create.
  rewrite Hname. unfold retrieveParameters. by rewrite Hrec, Hnone.
Qed.

Lemma construct_duplicate (pid : DWORD) (params : Seed.USVFSParameters)
    (module : HMODULE) (tree_found : bool) (w : World) (i : instance) :
  processes w !! pid = Some i →
  construct pid params module tree_found w =
    (Thrown (runtime_error "singleton duplicate instantiation (HookContext)"),
     {| memory :=
          (retrieveParameters params
             (open_or_create (Seed.instanceName params) (memory w)).1
             (open_or_create (Seed.instanceName params) (memory w)).2).2;
        processes := processes w |}).
Proof.
  intros Hi. unfold construct.
  destruct (open_or_create (Seed.instanceName params) (memory w)) as [shm m1].
  simpl. destruct (retrieveParameters params shm m1) as [parameters m2].
  by rewrite Hi.
Qed.

(** X17. A process that attaches to an instance whose segment holds a
    record adopts that record: when the tree is found the constructor
    returns, the names under which the new context opens its trees are
    those of the record, not those of the seed, and the record is changed
    in its [userCount] only; the debug flag of the context is the one of
    the seed. *)
Theorem attach_adopts_record (pid : DWORD) (params : Seed.USVFSParameters)
    (module : HMODULE) (w : World) (id : segment_id)
    (found : Shared.SharedParameters) :
  processes w !! pid = None →
  names (memory w) !! Seed.instanceName params = Some id →
  record id (memory w) = Some found →
  ∃ c w',
    construct pid params module true w = (Returned c, w') ∧
    m_ConfigurationSHM c = id ∧
    m_Tree c = Shared.currentSHMName found ∧
    m_InverseTree c = Shared.currentInverseSHMName found ∧
    m_DebugMode c = Seed.debugMode params ∧
    record id (memory w')
      = Some (Shared.set_userCount (Shared.userCount found + 1) found).
Proof.
  intros Hnone Hname Hrec. eexists _, _.
  split; [by apply construct_existing|]. simpl.
  by rewrite record_store_same.
Qed.

Lemma attach_adopts_record_witness :
  ∃ c w',
    construct 2%Z
      {| Seed.instanceName := "uvfs-x"; Seed.currentSHMName := "other-tree";
         Seed.currentInverseSHMName := "other-inverse";
         Seed.debugMode := true; Seed.logLevel := LogError;
         Seed.crashDumpsType := DumpsFull; Seed.crashDumpsPath := "" |}
      0%Z true attached_once = (Returned c, w') ∧
    m_ConfigurationSHM c = 2 ∧
    m_Tree c = "uvfs-x-tree" ∧
    m_InverseTree c = "uvfs-x-inverse" ∧
    m_DebugMode c = true ∧
    record 2 (memory w')
      = Some (Shared.set_userCount (1 + 1) (Shared.set_userCount 1 sample_record)).
Proof.
  apply (attach_adopts_record 2%Z
           {| Seed.instanceName := "uvfs-x"; Seed.currentSHMName := "other-tree";
              Seed.currentInverseSHMName := "other-inverse";
              Seed.debugMode := true; Seed.logLevel := LogError;
              Seed.crashDumpsType := DumpsFull; Seed.crashDumpsPath := "" |}
           0%Z attached_once 2 (Shared.set_userCount 1 sample_record)).
  - vm_compute. reflexivity.
  - vm_compute. reflexivity.
  - vm_compute. reflexivity.
Defined.

(** X18. When the tree is not found the constructor throws "shm not found"
    after it has counted the process as a user and set [s_Instance]: the
    [userCount] stays incremented, there is no context that could be
    destroyed to take it down, and every later attach of the process fails
    as a duplicate. *)
Theorem attach_without_tree (pid : DWORD) (params : Seed.USVFSParameters)
    (module : HMODULE) (w : World) :
  processes w !! pid = None →
  ∃ c w',
    construct pid params module false w
      = (Thrown (usage_error "shm not found" (Seed.instanceName params)), w') ∧
    processes w' !! pid = Some (dangling c) ∧
    recorded_users (Seed.instanceName params) (memory w')
      = (recorded_users (Seed.instanceName params) (memory w) + 1)%Z ∧
    destroy pid w' = None ∧
    ∀ params' module' tree_found,
      (construct pid params' module' tree_found w').1
      = Thrown (runtime_error "singleton duplicate instantiation (HookContext)").
Proof.
  intros Hnone.
  destruct (construct_succeeds pid params module w Hnone) as (c & w1 & Hc).
  pose proof (construct_recorded_users _ _ _ _ _ _ Hc) as Hcount.
  assert (construct pid params module false w
          = (Thrown (usage_error "shm not found" (Seed.instanceName params)),
             {| memory := memory w1;
                processes := <[pid := dangling c]> (processes w) |})) as Hthrow.
  { unfold construct in Hc |- *.
    destruct (open_or_create (Seed.instanceName params) (memory w)) as [shm m1].
    destruct (retrieveParameters params shm m1) as [parameters m2].
    rewrite Hnone in Hc |- *. by injection Hc as <- <-. }
  eexists _, _. split; [exact Hthrow|]. simpl.
  split; [by rewrite lookup_insert_eq|]. split; [done|]. split.
  - unfold destroy. simpl. by rewrite lookup_insert_eq.
  - intros params' module' tree_found.
    erewrite construct_duplicate; [done|]. simpl. by rewrite lookup_insert_eq.
Qed.

Lemma attach_without_tree_witness :
  ∃ c w',
    construct 1%Z sample_seed 0%Z false boot
      = (Thrown (usage_error "shm not found" "uvfs-x"), w') ∧
    processes w' !! 1%Z = Some (dangling c) ∧
    recorded_users "uvfs-x" (memory w') = (0 + 1)%Z ∧
    destroy 1%Z w' = None ∧
    ∀ params' module' tree_found,
      (construct 1%Z params' module' tree_found w').1
      = Thrown (runtime_error "singleton duplicate instantiation (HookContext)").
Proof.
  apply (attach_without_tree 1%Z sample_seed 0%Z boot). reflexivity.
Defined.

(** X20. After [HookContext::remove] of an instance name, an attach under
    that name does not join the segment that was linked before: it creates
    a new segment and links it under the name, and the records of all the
    segments that existed are left as they were, so the processes that
    were attached keep working on the old record. *)
Theorem attach_after_remove (pid : DWORD) (params : Seed.USVFSParameters)
    (module : HMODULE) (w w' : World) (c : HookContext) :
  construct pid params module true (Host.remove (Seed.instanceName params) w)
    = (Returned c, w') →
  (m_ConfigurationSHM c ∉ dom (segments (memory w))) ∧
  names (memory w') !! Seed.instanceName params = Some (m_ConfigurationSHM c) ∧
  (∀ id, id ∈ dom (segments (memory w)) →
         record id (memory w') = record id (memory w)).
Proof.
  intros Hc. apply construct_returned in Hc
    as (_ & _ & parameters & Hm' & Hshm & _).
  unfold open_or_create, Host.remove in Hm', Hshm. simpl in Hm', Hshm.
  rewrite lookup_delete_eq in Hm', Hshm. simpl in Hm', Hshm.
  pose proof (is_fresh (dom (segments (memory w)))) as Hfresh.
  rewrite <- Hshm in *. split; [done|]. rewrite Hm'. simpl.
  split; [by rewrite lookup_insert_eq|].
  intros id Hid. rewrite record_store_other by (by intros <-).
  unfold record. simpl. rewrite lookup_insert_ne; [done|]. by intros <-.
Qed.

Lemma attach_after_remove_witness :
  ∃ c w',
    construct 2%Z sample_seed 0%Z true (Host.remove "uvfs-x" attached_once)
      = (Returned c, w') ∧
    (m_ConfigurationSHM c ∉ dom (segments (memory attached_once))) ∧
    names (memory w') !! "uvfs-x" = Some (m_ConfigurationSHM c).
Proof.
  eexists _, _. split; [vm_compute; reflexivity|].
  split.
  - eapply (attach_after_remove 2%Z sample_seed 0%Z attached_once).
    vm_compute. reflexivity.
  - eapply (attach_after_remove 2%Z sample_seed 0%Z attached_once).
    vm_compute. reflexivity.
Defined.

End life_more.

(** ** Member functions called between attaches and detaches *)

Section host_more.

Import Os Life Host.

(** no member function other than the constructor and the destructor
    changes the instance name or the user count *)
Lemma perform_keeps (self : DWORD) (c : call) (p p' : Shared.SharedParameters) :
  perform self c p = Container.Done p' →
  Shared.instanceName p' = Shared.instanceName p ∧
  Shared.userCount p' = Shared.userCount p.
Proof.
  destruct c; simpl; try (by intros [= <-]).
  - unfold HookContext.unregisterCurrentProcess.
    destruct (Container.set_erase _ _); [|done]. by intros [= <-].
  - unfold HookContext.forgetDeletedFile.
    destruct (Container.erase _ _). by intros [= <-].
  - unfold HookContext.forgetFakeDirectory.
    destruct (Container.erase _ _). by intros [= <-].
Qed.

Lemma parameters_of_Some (pid : DWORD) (w : World) (p : Shared.SharedParameters) :
  parameters_of pid w = Some p →
  ∃ c, processes w !! pid = Some (alive c) ∧
       record (m_ConfigurationSHM c) (memory w) = Some p.
Proof.
  unfold parameters_of.
  destruct (processes w !! pid) as [[c|c]|]; try done. by exists c.
Qed.

Lemma assign_consistent (pid : DWORD) (p p' : Shared.SharedParameters)
    (w w' : World) :
  consistent w → parameters_of pid w = Some p →
  Shared.instanceName p' = Shared.instanceName p →
  Shared.userCount p' = Shared.userCount p →
  assign pid p' w = Some w' → consistent w'.
Proof.
  intros (Hnames & Hprocs & Hdom & Hinj) Hp Hin Huc Ha.
  apply parameters_of_Some in Hp as (c & Hc & Hrec).
  unfold assign in Ha. rewrite Hc in Ha. injection Ha as <-.
  split_and!; simpl.
  - intros name id parameters Hname Hpar.
    destruct (decide (id = m_ConfigurationSHM c)) as [->|Hne].
    + rewrite record_store_same in Hpar. injection Hpar as <-.
      rewrite Hin, Huc. by eapply Hnames.
    + rewrite record_store_other in Hpar by done. by eapply Hnames.
  - intros pid' i Hi.
    destruct (Hprocs _ _ Hi) as (c' & name & -> & Hname & Hsome).
    exists c', name. split; [done|]. split; [done|].
    destruct (decide (m_ConfigurationSHM c' = m_ConfigurationSHM c)) as [->|Hne].
    + rewrite record_store_same. by eexists.
    + by rewrite record_store_other.
  - intros name id Hname. rewrite dom_insert_L.
    apply elem_of_union_r. by eapply Hdom.
  - done.
Qed.

Lemma act_call (pid : DWORD) (c : call) (w w' : World) :
  act (Call pid c) w = Some w' →
  ∃ p p', parameters_of pid w = Some p ∧
          perform pid c p = Container.Done p' ∧ assign pid p' w = Some w'.
Proof.
  simpl. destruct (parameters_of pid w) as [p|]; [|done].
  destruct (perform pid c p) as [p'|] eqn:Hperform; [|done].
  intros Ha. by exists p, p'.
Qed.

Lemma assign_Some (pid : DWORD) (p' : Shared.SharedParameters) (w w' : World) :
  assign pid p' w = Some w' →
  ∃ c, processes w !! pid = Some (alive c) ∧
       memory w' = store (m_ConfigurationSHM c) p' (memory w) ∧
       processes w' = processes w.
Proof.
  unfold assign. destruct (processes w !! pid) as [[c|c]|]; try done.
  intros [= <-]. by exists c.
Qed.

Lemma act_consistent (a : action) (w w' : World) :
  consistent w → act a w = Some w' → consistent w'.
Proof.
  intros Hw. destruct a as [e|pid c].
  - by apply step_consistent.
  - intros (p & p' & Hp & Hperform & Hassign)%act_call.
    apply perform_keeps in Hperform as [Hin Huc].
    by eapply assign_consistent.
Qed.

Lemma act_recorded (a : action) (w w' : World) (instances : gset string) :
  consistent w → recorded instances w → act a w = Some w' →
  recorded (attach_names (lifecycle [a]) ∪ instances) w'.
Proof.
  intros Hw Hrec. destruct a as [e|pid c]; simpl.
  - intros Hstep. change [e] with ([e] ++ []).
    apply (run_recorded [e] w w' instances Hw Hrec).
    simpl. by rewrite Hstep.
  - intros (p & p' & Hp & Hperform & Hassign)%act_call.
    apply assign_Some in Hassign as (ctx & Hctx & Hm & Hp').
    rewrite union_empty_l_L. intros name id Hin Hname. rewrite Hm in Hname |- *.
    simpl in Hname.
    destruct (decide (id = m_ConfigurationSHM ctx)) as [->|Hne].
    + rewrite record_store_same. by eexists.
    + rewrite record_store_other by done. by eapply Hrec.
Qed.

Lemma play_consistent (script : list action) (w w' : World) :
  consistent w → play script w = Some w' → consistent w'.
Proof.
  revert w. induction script as [|a rest IH]; intros w Hw; simpl.
  - by intros [= <-].
  - destruct (act a w) as [w1|] eqn:Hact; [|done].
    apply IH. by eapply act_consistent.
Qed.

Lemma play_size (script : list action) (w w' : World) :
  play script w = Some w' →
  size (processes w') + detaches (lifecycle script)
  = size (processes w) + attaches (lifecycle script).
Proof.
  revert w. induction script as [|a rest IH]; intros w; simpl.
  - intros [= <-]. unfold attaches, detaches. simpl. lia.
  - destruct (act a w) as [w1|] eqn:Hact; [|done].
    intros Hplay. apply IH in Hplay. destruct a as [e|pid c].
    + simpl in Hact. apply step_size in Hact.
      unfold attaches, detaches in *. simpl.
      destruct e; simpl in *; lia.
    + apply act_call in Hact as (p & p' & _ & _ & Hassign).
      apply assign_Some in Hassign as (ctx & _ & _ & Hp'). by rewrite <- Hp'.
Qed.

Lemma play_recorded (script : list action) (w w' : World)
    (instances : gset string) :
  consistent w → recorded instances w → play script w = Some w' →
  recorded (attach_names (lifecycle script) ∪ instances) w'.
Proof.
  revert w instances.
  induction script as [|a rest IH]; intros w instances Hw Hrec; simpl.
  - intros [= <-]. by rewrite union_empty_l_L.
  - destruct (act a w) as [w1|] eqn:Hact; [|done]. intros Hplay.
    pose proof (act_consistent _ _ _ Hw Hact) as Hw1.
    pose proof (act_recorded _ _ _ _ Hw Hrec Hact) as Hrec1.
    specialize (IH _ _ Hw1 Hrec1 Hplay).
    destruct a as [e|pid c]; simpl in *.
    + destruct e as [pid params module|pid]; simpl in *.
      * rewrite union_empty_r_L in IH.
        replace ({[Seed.instanceName params]} ∪ attach_names (lifecycle rest)
                   ∪ instances)
          with (attach_names (lifecycle rest)
                  ∪ ({[Seed.instanceName params]} ∪ instances)); [done|].
        rewrite (union_comm_L {[Seed.instanceName params]}
                   (attach_names (lifecycle rest))).
        by rewrite union_assoc_L.
      * by rewrite union_empty_l_L in IH.
    + by rewrite union_empty_l_L in IH.
Qed.

(** X21. The member functions that change the shared record leave its
    instance name and its user count alone, so calls to them between the
    attaches and detaches do not disturb the count: on a host where nobody
    was attached and no linked segment held a record, once there have been
    as many detaches as attaches nobody is attached and the configuration
    segment of every instance attached to is unlinked, whatever calls the
    attached processes made in between. *)
Theorem calls_keep_balance (w0 w : World) (script : list action) :
  idle w0 →
  play script w0 = Some w →
  attaches (lifecycle script) = detaches (lifecycle script) →
  processes w = ∅ ∧
  ∀ pid params module, Attach pid params module ∈ lifecycle script →
    names (memory w) !! Seed.instanceName params = None.
Proof.
  intros Hidle Hplay Hbalance. pose proof (idle_consistent _ Hidle) as Hw0.
  destruct Hidle as (Hprocs & _).
  pose proof (play_consistent _ _ _ Hw0 Hplay) as Hw.
  pose proof (play_size _ _ _ Hplay) as Hsize.
  rewrite Hprocs, map_size_empty in Hsize.
  assert (size (processes w) = 0) as Hz by lia.
  split; [by apply map_size_empty_inv|].
  intros pid params module Hin.
  destruct (names (memory w) !! Seed.instanceName params) as [id|] eqn:Hname;
    [|done].
  exfalso.
  assert (recorded (attach_names (lifecycle script) ∪ ∅) w) as Hrec.
  { apply (play_recorded script w0 w ∅ Hw0); [|done].
    intros ? ? []%elem_of_empty. }
  destruct (Hrec _ _ ltac:(apply elem_of_union_l; by eapply attach_names_elem)
              Hname) as [parameters Hpar].
  by rewrite (consistent_nobody w _ _ Hw Hz Hname) in Hpar.
Qed.

Lemma calls_keep_balance_witness :
  ∃ w, play sample_script with_trees = Some w ∧
       processes w = ∅ ∧
       ∀ pid params module, Attach pid params module ∈ lifecycle sample_script →
         names (memory w) !! Seed.instanceName params = None.
Proof.
  eexists. split; [vm_compute; reflexivity|].
  eapply (calls_keep_balance with_trees _ sample_script).
  - apply with_trees_idle.
  - vm_compute. reflexivity.
  - reflexivity.
Defined.

(** X22. On a consistent host two attached processes whose records carry
    the same instance name have one and the same record, and what one of
    them assigns through its context is what the other one reads. *)
Theorem attached_processes_share (w : World) (a b : DWORD)
    (pa pb : Shared.SharedParameters) :
  consistent w →
  parameters_of a w = Some pa →
  parameters_of b w = Some pb →
  Shared.instanceName pa = Shared.instanceName pb →
  pa = pb ∧
  ∀ c p' w',
    perform a c pa = Container.Done p' → assign a p' w = Some w' →
    parameters_of b w' = Some p'.
Proof.
  intros (Hnames & Hprocs & _ & _) Ha Hb Hsame.
  apply parameters_of_Some in Ha as (ca & Hca & Hra).
  apply parameters_of_Some in Hb as (cb & Hcb & Hrb).
  destruct (Hprocs _ _ Hca) as (ca' & na & [= <-] & Hna & _).
  destruct (Hprocs _ _ Hcb) as (cb' & nb & [= <-] & Hnb & _).
  destruct (Hnames _ _ _ Hna Hra) as (Hia & _).
  destruct (Hnames _ _ _ Hnb Hrb) as (Hib & _).
  assert (m_ConfigurationSHM ca = m_ConfigurationSHM cb) as Hid by congruence.
  split; [congruence|]. intros c p' w' _ Hassign.
  apply assign_Some in Hassign as (ctx & Hctx & Hm & Hp').
  assert (ctx = ca) as -> by congruence.
  unfold parameters_of. rewrite Hp', Hcb, Hm, <- Hid.
  apply record_store_same.
Qed.

Lemma attached_twice_consistent : consistent attached_twice.
Proof.
  apply (run_consistent [Attach 1%Z sample_seed 0%Z; Attach 2%Z sample_seed 0%Z]
           boot).
  - apply idle_consistent, boot_idle.
  - vm_compute. reflexivity.
Qed.

Lemma attached_processes_share_witness :
  parameters_of 2%Z written = Some shared_after.
Proof.
  assert (parameters_of 1%Z attached_twice = Some shared_before) as H1
    by (vm_compute; reflexivity).
  assert (parameters_of 2%Z attached_twice = Some shared_before) as H2
    by (vm_compute; reflexivity).
  apply (proj2 (attached_processes_share attached_twice 1%Z 2%Z
                  shared_before shared_before attached_twice_consistent
                  H1 H2 eq_refl)
           (BlacklistExecutable ".tmp.exe") shared_after written).
  - vm_compute. reflexivity.
  - vm_compute. reflexivity.
Defined.

End host_more.


(** ** Handing the parameters to a child process *)

Section handoff.

Import Os Life Host.

Lemma attached_instance_linked (w : World) (pid : DWORD)
    (p : Shared.SharedParameters) :
  consistent w → parameters_of pid w = Some p →
  ∃ c, processes w !! pid = Some (alive c) ∧
       record (m_ConfigurationSHM c) (memory w) = Some p ∧
       names (memory w) !! Shared.instanceName p = Some (m_ConfigurationSHM c).
Proof.
  intros (Hnames & Hprocs & _ & _) Hp.
  apply parameters_of_Some in Hp as (c & Hc & Hr).
  destruct (Hprocs _ _ Hc) as (c' & name & [= <-] & Hname & _).
  destruct (Hnames _ _ _ Hname Hr) as (Hi & _).
  exists c. by rewrite Hi.
Qed.

(** X26. A child started with what [callParameters] returned joins the
    parent: when the instance name fits in its array, the context the
    child constructs from the local copy has the parent's record, with one
    more user, and it opens the trees under the names that
    [updateParameters] has just written to the record, in full, whether
    or not they fitted in the arrays of the copy. *)
Theorem callParameters_child_joins (sizes : BufferSizes) (parent child : DWORD)
    (treeName inverseName : string) (module : HMODULE) (w w1 : World)
    (p : Shared.SharedParameters) :
  consistent w →
  parameters_of parent w = Some p →
  processes w !! child = None →
  nul_free (Shared.instanceName p) →
  String.length (Shared.instanceName p) < instanceName_size sizes →
  assign parent (Settings.callParameters sizes treeName inverseName p).2 w
    = Some w1 →
  ∃ c w2,
    construct child (Settings.callParameters sizes treeName inverseName p).1
      module true w1 = (Returned c, w2) ∧
    m_Tree c = c_str treeName ∧
    m_InverseTree c = c_str inverseName ∧
    parameters_of child w2
      = Some (Shared.set_userCount (Shared.userCount p + 1)
                (Settings.updateParameters treeName inverseName p)) ∧
    parameters_of parent w2 = parameters_of child w2 ∧
    consistent w2.
Proof.
  intros Hw Hp Hchild _ Hfits Hassign.
  destruct (attached_instance_linked w parent p Hw Hp) as (c0 & Hc0 & Hr0 & Hn0).
  assert (consistent w1) as Hw1.
  { by apply (assign_consistent parent p
                (Settings.callParameters sizes treeName inverseName p).2 w w1). }
  apply assign_Some in Hassign as (c0' & Hc0' & Hm1 & Hp1).
  assert (c0' = c0) as -> by congruence.
  set (p' := Settings.updateParameters treeName inverseName p) in *.
  assert (Seed.instanceName
            (Settings.callParameters sizes treeName inverseName p).1
          = Shared.instanceName p) as Hname.
  { simpl. by apply strncpy_s_TRUNCATE_fits. }
  pose proof (construct_existing child
                (Settings.callParameters sizes treeName inverseName p).1
                module w1 (m_ConfigurationSHM c0) p') as Hconstruct.
  rewrite Hp1, Hm1, Hname in Hconstruct.
  specialize (Hconstruct Hchild Hn0 (record_store_same _ _ _)).
  rewrite <- Hm1, <- Hp1 in Hconstruct.
  eexists _, _. split; [exact Hconstruct|].
  assert (parent ≠ child) as Hne by congruence.
  split; [done|]. split; [done|].
  assert (∀ q, parameters_of child
                 {| memory := store (m_ConfigurationSHM c0) q (memory w1);
                    processes :=
                      <[child := alive
                           {| m_ConfigurationSHM := m_ConfigurationSHM c0;
                              m_Tree := Shared.currentSHMName p';
                              m_InverseTree := Shared.currentInverseSHMName p';
                              m_DebugMode :=
                                Seed.debugMode
                                  (Settings.callParameters sizes treeName
                                     inverseName p).1;
                              m_DLLModule := module |}]> (processes w1) |}
               = Some q) as Hchild2.
  { intros q. unfold parameters_of. simpl.
    rewrite lookup_insert_eq. simpl. apply record_store_same. }
  split; [apply Hchild2|]. split.
  - rewrite Hchild2. unfold parameters_of. simpl.
    rewrite lookup_insert_ne by done. rewrite Hp1, Hc0.
    apply record_store_same.
  - by apply (construct_consistent child _ module w1 _ _ Hw1 Hconstruct).
Qed.

Lemma callParameters_child_joins_witness :
  ∃ c w2,
    construct 3%Z
      (Settings.callParameters sample_sizes "uvfs-x-tree-2" "uvfs-x-inverse-2"
         shared_before).1 0%Z true handed_over = (Returned c, w2) ∧
    m_Tree c = c_str "uvfs-x-tree-2" ∧
    m_InverseTree c = c_str "uvfs-x-inverse-2" ∧
    parameters_of 3%Z w2
      = Some (Shared.set_userCount (Shared.userCount shared_before + 1)
                (Settings.updateParameters "uvfs-x-tree-2" "uvfs-x-inverse-2"
                   shared_before)) ∧
    parameters_of 1%Z w2 = parameters_of 3%Z w2 ∧
    consistent w2.
Proof.
  apply (callParameters_child_joins sample_sizes 1%Z 3%Z "uvfs-x-tree-2"
           "uvfs-x-inverse-2" 0%Z attached_twice handed_over shared_before).
  - exact attached_twice_consistent.
  - vm_compute. reflexivity.
  - vm_compute. reflexivity.
  - apply (bool_decide_unpack _). vm_compute. exact I.
  - vm_compute. lia.
  - vm_compute. reflexivity.
Defined.

End handoff.
(** ** The hexadecimal dump *)

Section dump.

Import Dump.

Lemma length_hexline (bytes : list ascii) :
  length (hexline bytes) = 3 * length bytes.
Proof.
  unfold hexline. rewrite length_fmap.
  induction bytes as [|c bytes IH]; [done|].
  rewrite bind_cons, length_app, IH. simpl. lia.
Qed.

Lemma hexline_app (a b : list ascii) : hexline (a ++ b) = hexline a ++ hexline b.
Proof. unfold hexline. by rewrite bind_app, fmap_app. Qed.

Lemma hexline_cons (c : ascii) (bytes : list ascii) :
  hexline (c :: bytes) = (Some <$> format_02x c) ++ hexline bytes.
Proof. unfold hexline. by rewrite bind_cons, fmap_app. Qed.

(** bytes written inside a row, before its last place *)
Lemma print_loop_within (part rest : list ascii) (j k : nat)
    (written base : list (option ascii)) (log : list entry) :
  length written = 3 * j → (j + length part ≤ 15)%nat →
  print_loop (part ++ rest) (j + k * 16) (written ++ drop (3 * j) base) log
  = print_loop rest (j + length part + k * 16)
      ((written ++ hexline part) ++ drop (3 * (j + length part)) base) log.
Proof.
  revert j written.
  induction part as [|c part IH]; intros j written Hlen Hroom.
  - simpl. unfold hexline. simpl. by rewrite app_nil_r, !Nat.add_0_r.
  - simpl in Hroom. cbn [app print_loop].
    rewrite Nat.Div0.mod_add, Nat.mod_small by lia.
    replace (j =? 15)%nat with false by (symmetry; apply Nat.eqb_neq; lia).
    replace (j * 3) with (length written) by lia.
    rewrite take_app_length.
    rewrite drop_app_add, drop_drop.
    replace (S (j + k * 16)) with (S j + k * 16) by done.
    replace (written ++ (Some <$> format_02x c) ++ drop (3 * j + 3) base)
      with ((written ++ (Some <$> format_02x c)) ++ drop (3 * S j) base).
    2:{ rewrite <- app_assoc. do 3 f_equal. lia. }
    rewrite IH.
    + rewrite hexline_cons, <- !app_assoc. simpl.
      do 2 f_equal; [lia|]. do 5 f_equal. lia.
    + rewrite length_app, Hlen. simpl. lia.
    + lia.
Qed.

(** the byte that fills the last place of a row *)
Lemma print_loop_last_place (c : ascii) (rest : list ascii) (k : nat)
    (written base : list (option ascii)) (log : list entry) :
  length written = 45 → length base = 48 →
  print_loop (c :: rest) (15 + k * 16) (written ++ drop 45 base) log
  = print_loop rest (S k * 16) (written ++ (Some <$> format_02x c))
      (log ++ [Row (k * 16) (written ++ (Some <$> format_02x c))]).
Proof.
  intros Hlen Hbase.
  assert (take 45 (written ++ drop 45 base) ++ (Some <$> format_02x c)
            ++ drop (45 + 3) (written ++ drop 45 base)
          = written ++ (Some <$> format_02x c)) as Htemp.
  { rewrite take_app_length', drop_app_add', drop_drop by done.
    rewrite (drop_ge base) by lia. by rewrite app_nil_r. }
  cbn [print_loop].
  rewrite Nat.Div0.mod_add, Nat.mod_small by lia.
  change (15 =? 15)%nat with true. cbv iota.
  change (15 * 3) with 45. rewrite !Htemp.
  replace (15 + k * 16 - 15) with (k * 16) by lia.
  by replace (S (15 + k * 16)) with (S k * 16) by lia.
Qed.

(** a complete row *)
Lemma print_loop_row (row rest : list ascii) (k : nat)
    (base : list (option ascii)) (log : list entry) :
  length row = 16 → length base = 48 →
  print_loop (row ++ rest) (k * 16) base log
  = print_loop rest (S k * 16) (hexline row)
      (log ++ [Row (k * 16) (hexline row)]).
Proof.
  intros Hrow Hbase.
  rewrite <- (take_drop 15 row).
  destruct (drop 15 row) as [|c [|? ?]] eqn:Hlast;
    try (apply (f_equal length) in Hlast; rewrite length_drop in Hlast;
         simpl in Hlast; lia).
  assert (length (take 15 row) = 15) as Hpart by (rewrite length_take; lia).
  assert (hexline (take 15 row ++ [c])
          = hexline (take 15 row) ++ (Some <$> format_02x c)) as ->.
  { rewrite hexline_app, hexline_cons. unfold hexline at 2. by simpl. }
  rewrite <- app_assoc. cbn [app].
  pose proof (print_loop_within (take 15 row) (c :: rest) 0 k [] base log
                eq_refl) as Hwithin.
  rewrite Hpart in Hwithin. cbn [Nat.add Nat.mul app] in Hwithin.
  rewrite drop_0 in Hwithin. rewrite Hwithin by lia.
  apply print_loop_last_place; [|done].
  by rewrite length_hexline, Hpart.
Qed.

Lemma print_loop_rows (count k : nat) (buffer : list ascii)
    (base : list (option ascii)) (log : list entry) :
  length base = 48 → (count * 16 ≤ length buffer)%nat →
  print_loop buffer (k * 16) base log
  = print_loop (drop (count * 16) buffer) ((k + count) * 16)
      (match count with
       | 0 => base
       | S count' => hexline (take 16 (drop (count' * 16) buffer))
       end)
      (log ++ row_entries count k buffer).
Proof.
  revert k buffer base log.
  induction count as [|count IH]; intros k buffer base log Hbase Hlen.
  - simpl. by rewrite app_nil_r, Nat.add_0_r.
  - rewrite <- (take_drop 16 buffer) at 1.
    rewrite print_loop_row by (try done; rewrite ?length_take; lia).
    rewrite (IH (S k) (drop 16 buffer))
      by (rewrite ?length_hexline, ?length_take, ?length_drop; lia).
    rewrite drop_drop.
    replace (16 + count * 16) with (S count * 16) by lia.
    replace ((S k + count) * 16) with ((k + S count) * 16) by lia.
    cbn [row_entries]. rewrite <- app_assoc. simpl.
    f_equal. destruct count as [|count']; [by rewrite drop_0|].
    rewrite drop_drop. do 3 f_equal; lia.
Qed.

Lemma length_row_entries (count k : nat) (buffer : list ascii) :
  length (row_entries count k buffer) = count.
Proof.
  revert k buffer. induction count as [|count IH]; intros k buffer; simpl;
    by rewrite ?IH.
Qed.

Lemma lookup_row_entries (count k i : nat) (buffer : list ascii) :
  i < count →
  row_entries count k buffer !! i
  = Some (Row ((k + i) * 16) (hexline (take 16 (drop (i * 16) buffer)))).
Proof.
  revert k i buffer.
  induction count as [|count IH]; intros k [|i] buffer Hi; try lia; simpl.
  - by rewrite Nat.add_0_r, drop_0.
  - rewrite IH by lia. rewrite drop_drop.
    replace (S k + i) with (k + S i) by lia. done.
Qed.

Lemma row_entries_snoc (n k : nat) (b : list ascii) :
  row_entries (S n) k b
  = row_entries n k b
    ++ [Row ((k + n) * 16) (hexline (take 16 (drop (n * 16) b)))].
Proof.
  revert k b. induction n as [|n IH]; intros k b.
  - simpl. by rewrite Nat.add_0_r, drop_0.
  - change (row_entries (S (S n)) k b)
      with (Row (k * 16) (hexline (take 16 b))
              :: row_entries (S n) (S k) (drop 16 b)).
    rewrite (IH (S k) (drop 16 b)), drop_drop.
    change (row_entries (S n) k b)
      with (Row (k * 16) (hexline (take 16 b))
              :: row_entries n (S k) (drop 16 b)).
    rewrite <- app_comm_cons.
    replace (16 + n * 16) with (S n * 16) by lia.
    replace (S k + n) with (k + S n) by lia. done.
Qed.

(** everything [printBuffer] logs *)
Lemma printBuffer_shape (buffer : list ascii) :
  printBuffer buffer
  = row_entries (length buffer / 16) 0 buffer
    ++ [Plain
          (hexline (drop (length buffer / 16 * 16) buffer)
           ++ drop (3 * (length buffer `mod` 16))
                (match length buffer / 16 with
                 | 0 => replicate 48 None
                 | S count' => hexline (take 16 (drop (count' * 16) buffer))
                 end))].
Proof.
  unfold printBuffer.
  pose proof (Nat.div_mod_eq (length buffer) 16) as Hdiv.
  pose proof (Nat.mod_upper_bound (length buffer) 16 ltac:(lia)) as Hmod.
  set (count := length buffer / 16) in *.
  set (r := length buffer `mod` 16) in *.
  change 0 with (0 * 16) at 1.
  rewrite (print_loop_rows count 0 buffer) by (rewrite ?length_replicate; lia).
  set (base := match count with
               | 0 => replicate 48 None
               | S count' => hexline (take 16 (drop (count' * 16) buffer))
               end).
  assert (length (drop (count * 16) buffer) = r) as Htail
    by (rewrite length_drop; lia).
  pose proof (print_loop_within (drop (count * 16) buffer) [] 0 count [] base [])
    as Hwithin.
  rewrite app_nil_r, Htail in Hwithin. simpl in Hwithin.
  rewrite drop_0 in Hwithin. simpl.
  pose proof (print_loop_within (drop (count * 16) buffer) [] 0 count [] base
                (row_entries count 0 buffer)) as Hlog.
  rewrite app_nil_r, Htail in Hlog. simpl in Hlog. rewrite drop_0 in Hlog.
  rewrite Hlog by (done || lia). simpl.
  by rewrite Nat.add_0_r.
Qed.

(** X23. [printBuffer] logs one row for every complete group of 16 bytes,
    in order, each with the offset of its first byte and the sixteen bytes
    in hexadecimal, two digits and a blank each; one more record follows
    the rows. *)
Theorem printBuffer_rows (buffer : list ascii) :
  length (printBuffer buffer) = length buffer / 16 + 1 ∧
  ∀ k, k < length buffer / 16 →
       printBuffer buffer !! k
       = Some (Row (k * 16) (hexline (take 16 (drop (k * 16) buffer)))).
Proof.
  rewrite printBuffer_shape. split.
  - rewrite length_app, length_row_entries. simpl. lia.
  - intros k Hk. rewrite lookup_app_l by (by rewrite length_row_entries).
    by rewrite lookup_row_entries.
Qed.

Lemma printBuffer_rows_witness :
  printBuffer (Str.chars "0123456789abcdefGHIJ") !! 0
  = Some (Row (0 * 16)
            (hexline (take 16 (drop (0 * 16)
                                 (Str.chars "0123456789abcdefGHIJ"))))).
Proof.
  apply (printBuffer_rows (Str.chars "0123456789abcdefGHIJ")).
  vm_compute. lia.
Defined.

(** X24. The record that [printBuffer] logs after the loop is the buffer
    as the loop left it: the bytes after the last complete row, in
    hexadecimal, followed by what the row before them left in the rest of
    the buffer; when there has been no complete row the rest was never
    written. *)
Theorem printBuffer_last (buffer : list ascii) :
  last (printBuffer buffer)
  = Some (Plain
            (hexline (drop (length buffer / 16 * 16) buffer)
             ++ drop (3 * (length buffer `mod` 16))
                  (match length buffer / 16 with
                   | 0 => replicate 48 None
                   | S count' => hexline (take 16 (drop (count' * 16) buffer))
                   end))).
Proof. rewrite printBuffer_shape. apply last_snoc. Qed.

(** X25. When the number of bytes is a multiple of 16 and not zero, the
    last row is logged twice: the record after the loop has the text of
    the last row. *)
Theorem printBuffer_repeats_last_row (buffer : list ascii) :
  0 < length buffer → length buffer `mod` 16 = 0 →
  ∃ rows offset text,
    printBuffer buffer = rows ++ [Row offset text; Plain text].
Proof.
  intros Hpos Hmod. rewrite printBuffer_shape.
  pose proof (Nat.div_mod_eq (length buffer) 16) as Hdiv.
  rewrite Hmod in *.
  destruct (length buffer / 16) as [|count] eqn:Hcount;
    rewrite ?Hcount in Hdiv; [lia|].
  rewrite row_entries_snoc, (drop_ge buffer (S count * 16)) by lia.
  rewrite <- app_assoc. simpl. rewrite drop_0.
  by exists (row_entries count 0 buffer), (count * 16),
    (hexline (take 16 (drop (count * 16) buffer))).
Qed.

Lemma printBuffer_repeats_last_row_witness :
  ∃ rows offset text,
    printBuffer (Str.chars "0123456789abcdef")
    = rows ++ [Row offset text; Plain text].
Proof.
  apply (printBuffer_repeats_last_row (Str.chars "0123456789abcdef")).
  - vm_compute. lia.
  - vm_compute. reflexivity.
Defined.

End dump.
